(** * ara_gnb_monitoring: a shallow embedding and its verified properties

    The monitor reads the periodic statistics an OAI gNB prints, keeps one
    aggregate per UE (keyed by RNTI), emits a snapshot of a UE on two kinds of
    line, and posts buffered snapshots to an HTTP endpoint.

    Conventions of the embedding.
    - A Python [str] is a [string]; a character is a code point below 256
      (Latin-1), which covers every character the patterns name.
    - A Python [int] is a [Z]; a Python [float] is a binary64 value, written
      as a [spec_float] of precision 53 and maximal exponent 1024, and
      computed with the Standard Library's IEEE-754 operations.
    - A Python exception is a result [Raise]; the state a raising statement
      had already mutated is kept in that result.
    - The module-level variables that change while the program runs are the
      fields of [World]; the ones [__main__] sets once are the fields of
      [Config]; the clock, the HTTP server and [urllib.parse.urljoin] are the
      fields of [Env].
    - The loop of [_http_post_json] has no bound in the source, so it takes
      fuel; running out of fuel is the result [Diverge]. *)

From Stdlib Require Import ZArith String Ascii List Bool Lia.
From Stdlib Require Import Floats.SpecFloat.
From stdpp Require Import gmap strings.
Import ListNotations.

Local Open Scope Z_scope.

(** ** Python built-ins the program uses *)

Module Py.

(** [ord(c)] *)
Definition ord (c : ascii) : Z := Z.of_N (N_of_ascii c).

Definition between (lo hi : Z) (c : ascii) : bool :=
  (lo <=? ord c) && (ord c <=? hi).

(** [c.isspace()] on Latin-1: TAB..CR, FS..US, space, NEL, NBSP. It is also
    the class [\s] of [re] on a [str] pattern. *)
Definition isspace (c : ascii) : bool :=
  between 9 13 c || between 28 32 c || (ord c =? 133) || (ord c =? 160).

(** The decimal digits [0-9]: the class [\d] on Latin-1, and the digits
    [int()] and [float()] read. *)
Definition isdecimal (c : ascii) : bool := between 48 57 c.

(** [c.isdigit()] on Latin-1: the decimal digits and the superscripts
    U+00B2, U+00B3, U+00B9. *)
Definition isdigit_char (c : ascii) : bool :=
  isdecimal c || (ord c =? 178) || (ord c =? 179) || (ord c =? 185).

Definition ishex (c : ascii) : bool :=
  isdecimal c || between 97 102 c || between 65 70 c.

(** [c.isalnum() or c == '_']: the word characters [\w] on Latin-1. *)
Definition isword (c : ascii) : bool :=
  isdecimal c || between 65 90 c || between 97 122 c || (ord c =? 95)
  || (ord c =? 170) || (ord c =? 178) || (ord c =? 179) || (ord c =? 181)
  || (ord c =? 185) || (ord c =? 186) || between 188 190 c
  || between 192 214 c || between 216 246 c || between 248 255 c.

(** [c.lower()] on Latin-1. *)
Definition lower_char (c : ascii) : ascii :=
  if between 65 90 c || (between 192 222 c && negb (ord c =? 215))
  then ascii_of_N (Z.to_N (ord c + 32)) else c.

Fixpoint lower (s : string) : string :=
  match s with
  | EmptyString => EmptyString
  | String c s' => String (lower_char c) (lower s')
  end.

Fixpoint lstrip (s : string) : string :=
  match s with
  | EmptyString => EmptyString
  | String c s' => if isspace c then lstrip s' else s
  end.

Fixpoint rstrip (s : string) : string :=
  match s with
  | EmptyString => EmptyString
  | String c s' =>
      match rstrip s' with
      | EmptyString => if isspace c then EmptyString else String c EmptyString
      | r => String c r
      end
  end.

(** [s.strip()] *)
Definition strip (s : string) : string := rstrip (lstrip s).

(** [s.startswith(p)] *)
Fixpoint startswith (s p : string) {struct p} : bool :=
  match p, s with
  | EmptyString, _ => true
  | String a p', String b s' => Ascii.eqb a b && startswith s' p'
  | String _ _, EmptyString => false
  end.

(** [s.endswith(p)] for a one-character [p] *)
Fixpoint endswith_char (s : string) (p : ascii) : bool :=
  match s with
  | EmptyString => false
  | String c EmptyString => Ascii.eqb c p
  | String _ s' => endswith_char s' p
  end.

(** [s[:-1]] *)
Fixpoint drop_last (s : string) : string :=
  match s with
  | EmptyString => EmptyString
  | String _ EmptyString => EmptyString
  | String c s' => String c (drop_last s')
  end.

(** [s[n:]] *)
Fixpoint drop (n : nat) (s : string) : string :=
  match n, s with
  | O, _ => s
  | S n', String _ s' => drop n' s'
  | S _, EmptyString => EmptyString
  end.

Fixpoint all_chars (p : ascii -> bool) (s : string) : bool :=
  match s with
  | EmptyString => true
  | String c s' => p c && all_chars p s'
  end.

Definition nonempty (s : string) : bool :=
  match s with EmptyString => false | String _ _ => true end.

(** [s.isdigit()]: at least one character, and every character a digit. *)
Definition isdigit (s : string) : bool := nonempty s && all_chars isdigit_char s.

(** *** [int(s, base)] *)

(** The value of a digit in [base], for the bases 10 and 16. *)
Definition digit (base : Z) (c : ascii) : option Z :=
  let v := if isdecimal c then ord c - 48
           else if between 97 122 c then ord c - 87
           else if between 65 90 c then ord c - 55
           else base in
  if v <? base then Some v else None.

(** Digits after the first one; a single underscore may stand between two
    digits. *)
Fixpoint int_tail (base acc : Z) (s : string) : option Z :=
  match s with
  | EmptyString => Some acc
  | String c s' =>
      if Ascii.eqb c "_"
      then match s' with
           | EmptyString => None
           | String d s'' =>
               match digit base d with
               | Some v => int_tail base (acc * base + v) s''
               | None => None
               end
           end
      else match digit base c with
           | Some v => int_tail base (acc * base + v) s'
           | None => None
           end
  end.

Definition int_body (base : Z) (s : string) : option Z :=
  match s with
  | EmptyString => None
  | String c s' =>
      match digit base c with
      | Some v => int_tail base v s'
      | None => None
      end
  end.

(** [int(s, base)] for [base] 10 or 16; [None] is a [ValueError]. Blanks
    around the number are dropped, a sign may lead, base 16 accepts the
    prefix [0x] (then one underscore), and the digits follow. CPython's
    configurable limit on the length of a decimal string is not modelled. *)
Definition int (base : Z) (s : string) : option Z :=
  let s := strip s in
  let '(neg, s) :=
    match s with
    | String "-" s' => (true, s')
    | String "+" s' => (false, s')
    | _ => (false, s)
    end in
  let s :=
    if (base =? 16) && startswith (lower s) "0x"
    then match drop 2 s with
         | String "_" s' => s'
         | s' => s'
         end
    else s in
  match int_body base s with
  | Some v => Some (if neg then - v else v)
  | None => None
  end.

(** *** Floats *)

Definition float : Type := spec_float.
Definition prec : Z := 53.
Definition emax : Z := 1024.

Definition fmul : float -> float -> float := SFmul prec emax.
Definition fdiv : float -> float -> float := SFdiv prec emax.

(** An integer as the dividend or divisor of an exact quotient: the whole
    integer is the mantissa, nothing is rounded yet. *)
Definition exact (z : Z) : float :=
  match z with
  | Z0 => S754_zero false
  | Zpos p => S754_finite false p 0
  | Zneg p => S754_finite true p 0
  end.

(** A float literal with an integral value, such as [100.0] or [4e6]. *)
Definition of_Z (z : Z) : float := binary_normalize prec emax z 0 false.

(** [bool(x)] of a float: false on both zeros only. *)
Definition ftruthy (x : float) : bool :=
  match x with S754_zero _ => false | _ => true end.

(** [x / y] on two ints, [y] not zero: the quotient rounded once to
    binary64 (the division of [exact] mantissas rounds the true quotient);
    [None] is the [OverflowError] CPython raises when the quotient is beyond
    the binary64 range. *)
Definition truediv (x y : Z) : option float :=
  match fdiv (exact x) (exact y) with
  | S754_infinity _ => None
  | q => Some q
  end.

Inductive exn : Type :=
| ValueError
| OverflowError
| ZeroDivisionError.

(** [int(x)] of a float: truncation toward zero. *)
Definition int_of_float (x : float) : exn + Z :=
  match x with
  | S754_zero _ => inr 0
  | S754_finite s m e =>
      let a := match e with
               | Zneg k => Z.shiftr (Zpos m) (Zpos k)
               | _ => Z.shiftl (Zpos m) e
               end in
      inr (if s then - a else a)
  | S754_infinity _ => inl OverflowError
  | S754_nan => inl ValueError
  end.

Fixpoint digits_value (acc : Z) (s : string) : Z :=
  match s with
  | EmptyString => acc
  | String c s' => digits_value (acc * 10 + (ord c - 48)) s'
  end.

Fixpoint split_dot (s : string) : string * option string :=
  match s with
  | EmptyString => (EmptyString, None)
  | String c s' =>
      if Ascii.eqb c "."
      then (EmptyString, Some s')
      else let '(i, f) := split_dot s' in (String c i, f)
  end.

(** [float(s)] for [s] of the shape [-?\d+(\.\d+)?], the only strings the
    program passes to [float()]: the decimal value rounded once to binary64.
    [None] is a [ValueError]; it is what this function answers on every other
    spelling, also on those Python would read (exponents, [inf], blanks). *)
Definition float_of_str (s : string) : option float :=
  let '(neg, s) :=
    match s with
    | String "-" s' => (true, s')
    | _ => (false, s)
    end in
  let '(i, f) := split_dot s in
  let f' := match f with Some f => f | None => EmptyString end in
  let shape := nonempty i && all_chars isdecimal i
               && match f with
                  | Some f => nonempty f && all_chars isdecimal f
                  | None => true
                  end in
  if shape then
    let m := digits_value (digits_value 0 i) f' in
    let q := fdiv (exact m) (exact (10 ^ Z.of_nat (String.length f'))) in
    Some (if neg then SFopp q else q)
  else None.

(** A value that is an [int] at one time and a [float] at another. *)
Inductive num : Type :=
| Int (z : Z)
| Flt (x : float).

(** [bool(n)] *)
Definition truthy (n : num) : bool :=
  match n with
  | Int z => negb (z =? 0)
  | Flt x => ftruthy x
  end.

(** [int(n)] *)
Definition int_of_num (n : num) : exn + Z :=
  match n with
  | Int z => inr z
  | Flt x => int_of_float x
  end.

End Py.

(** ** The fragment of [re] the patterns are written in

    Python's [re] is a backtracking matcher: alternatives are tried left to
    right, a greedy repetition tries the longest run first, a lazy one the
    shortest, and the first complete match wins. Every repetition in the
    patterns of this program repeats a single character class, so the
    fragment has repetition of classes only. All patterns are compiled with
    [re.IGNORECASE]. *)

Module Re.

Inductive re : Type :=
| Eps
| Chr (c : ascii)                 (* a literal character, ignoring case *)
| Cls (p : ascii -> bool)         (* one character of a class *)
| Seq (r1 r2 : re)
| Alt (r1 r2 : re)                (* r1|r2 *)
| Opt (r : re)                    (* (?:r)? *)
| Star (p : ascii -> bool)        (* [p]* *)
| Plus (p : ascii -> bool)        (* [p]+ *)
| Lazy (p : ascii -> bool)        (* [p]*? *)
| Group (name : string) (r : re)  (* (?P<name>r) *)
| Bound.                          (* \b *)

(** The groups of a match, the most recently closed one first. *)
Definition caps : Type := list (string * string).

(** What remains to be matched after a part of the pattern: it receives the
    character just before the position, the rest of the subject and the
    groups closed so far. *)
Definition cont : Type := option ascii -> string -> caps -> option caps.

Definition eq_nocase (x c : ascii) : bool :=
  Ascii.eqb (Py.lower_char x) (Py.lower_char c).

Definition is_word (c : option ascii) : bool :=
  match c with Some c => Py.isword c | None => false end.

Definition next_char (s : string) : option ascii :=
  match s with String c _ => Some c | EmptyString => None end.

(** [\b]: exactly one side of the position is a word character. *)
Definition at_boundary (prev : option ascii) (s : string) : bool :=
  xorb (is_word prev) (is_word (next_char s)).

(** The text between the position [s] and the later position [s']. *)
Definition taken (s s' : string) : string :=
  String.substring 0 (String.length s - String.length s') s.

Fixpoint star (p : ascii -> bool) (prev : option ascii) (s : string)
    (cs : caps) (k : cont) : option caps :=
  match s with
  | String x s' =>
      if p x
      then match star p (Some x) s' cs k with
           | Some m => Some m
           | None => k prev s cs
           end
      else k prev s cs
  | EmptyString => k prev s cs
  end.

Fixpoint lazy (p : ascii -> bool) (prev : option ascii) (s : string)
    (cs : caps) (k : cont) : option caps :=
  match k prev s cs with
  | Some m => Some m
  | None =>
      match s with
      | String x s' => if p x then lazy p (Some x) s' cs k else None
      | EmptyString => None
      end
  end.

Fixpoint exec (r : re) (prev : option ascii) (s : string) (cs : caps)
    (k : cont) : option caps :=
  match r with
  | Eps => k prev s cs
  | Chr c =>
      match s with
      | String x s' => if eq_nocase x c then k (Some x) s' cs else None
      | EmptyString => None
      end
  | Cls p =>
      match s with
      | String x s' => if p x then k (Some x) s' cs else None
      | EmptyString => None
      end
  | Seq r1 r2 =>
      exec r1 prev s cs (fun prev' s' cs' => exec r2 prev' s' cs' k)
  | Alt r1 r2 =>
      match exec r1 prev s cs k with
      | Some m => Some m
      | None => exec r2 prev s cs k
      end
  | Opt r1 =>
      match exec r1 prev s cs k with
      | Some m => Some m
      | None => k prev s cs
      end
  | Star p => star p prev s cs k
  | Plus p =>
      match s with
      | String x s' => if p x then star p (Some x) s' cs k else None
      | EmptyString => None
      end
  | Lazy p => lazy p prev s cs k
  | Group name r1 =>
      exec r1 prev s cs
        (fun prev' s' cs' => k prev' s' ((name, taken s s') :: cs'))
  | Bound => if at_boundary prev s then k prev s cs else None
  end.

Definition accept : cont := fun _ _ cs => Some cs.

Fixpoint search_from (r : re) (prev : option ascii) (s : string)
    : option caps :=
  match exec r prev s [] accept with
  | Some m => Some m
  | None =>
      match s with
      | String x s' => search_from r (Some x) s'
      | EmptyString => None
      end
  end.

(** [pattern.search(s)]: the match at the leftmost position that has one. *)
Definition search (r : re) (s : string) : option caps := search_from r None s.

(** [m.groupdict().get(name)]: [None] when the group took no part in the
    match, or when the pattern has no such group. *)
Fixpoint get (m : caps) (name : string) : option string :=
  match m with
  | [] => None
  | (n, v) :: m' => if String.eqb n name then Some v else get m' name
  end.

(** [m.group(name)] for a group that is not optional in its pattern: such a
    group takes part in every match. *)
Definition group (m : caps) (name : string) : string :=
  match get m name with Some v => v | None => EmptyString end.

(** A literal text. *)
Fixpoint lit (s : string) : re :=
  match s with
  | EmptyString => Eps
  | String c EmptyString => Chr c
  | String c s' => Seq (Chr c) (lit s')
  end.

Fixpoint seq (rs : list re) : re :=
  match rs with
  | [] => Eps
  | [r] => r
  | r :: rs' => Seq r (seq rs')
  end.

(** The classes the patterns use. *)
Definition hex : ascii -> bool := Py.ishex.                    (* [0-9a-fA-F] *)
Definition d : ascii -> bool := Py.isdecimal.                  (* \d *)
Definition sp : ascii -> bool := Py.isspace.                   (* \s *)
Definition dot : ascii -> bool := fun c => negb (Py.ord c =? 10).   (* . *)
Definition d_or_dot : ascii -> bool :=                         (* [0-9.] *)
  fun c => Py.isdecimal c || Ascii.eqb c ".".
Definition not_rparen : ascii -> bool :=                       (* [^)] *)
  fun c => negb (Ascii.eqb c ")").

(** [-?\d+(?:\.\d+)?] *)
Definition number : re :=
  seq [Opt (Chr "-"); Plus d; Opt (Seq (Chr ".") (Plus d))].

End Re.

(** ** The patterns of the periodic statistics lines *)

Section Patterns.
Import Re.
Local Open Scope string_scope.

(** [(?:, average RSRP (?P<rsrp>-?\d+(?:\.\d+)?)(?: \([^)]*\))?)?] *)
Definition rsrp_tail : re :=
  Opt (seq [lit ", average RSRP "; Group "rsrp" number;
            Opt (seq [lit " ("; Star not_rparen; Chr ")"])]).

(** [(?P<a>\d+)\/(?P<b>\d+)\/(?P<c>\d+)\/(?P<d>\d+)] *)
Definition rounds : re :=
  seq [Group "a" (Plus d); Chr "/"; Group "b" (Plus d); Chr "/";
       Group "c" (Plus d); Chr "/"; Group "d" (Plus d)].

Definition P_HEADER_SIMPLE : re :=
  seq [lit "UE RNTI "; Group "rnti" (Plus hex); Star sp;
       Opt (seq [Chr "("; Group "cu" (Plus d); Chr ")"]);
       Lazy dot; lit "PH "; Group "phr" number; lit " dB";
       Lazy dot; lit "PCMAX "; Group "pcmax" number; lit " dBm";
       rsrp_tail].

Definition P_HEADER_OLD : re :=
  seq [lit "UE RNTI "; Group "rnti" (Plus hex); Bound;
       Lazy dot; Group "sync" (Alt (lit "in-sync") (lit "out-of-sync")); Bound;
       Lazy dot; lit "PH "; Group "phr" number; lit " dB";
       Lazy dot; lit "PCMAX "; Group "pcmax" number; lit " dBm";
       rsrp_tail;
       Opt (seq [Lazy dot; lit "average SINR "; Group "sinsb" number])].

Definition P_CQI : re :=
  seq [lit "UE "; Group "rnti" (Plus hex); lit ": CQI "; Group "cqi" (Plus d);
       lit ", RI "; Group "ri" (Plus d); lit ", PMI"].

Definition P_DLSCH_OLD : re :=
  seq [lit "UE "; Group "rnti" (Plus hex); lit ": dlsch_rounds "; rounds;
       lit ", dlsch_errors "; Group "errors" (Plus d);
       lit ", pucch0_DTX "; Group "pucch0_dtx" (Plus d);
       lit ", BLER "; Group "bler" (Plus d_or_dot);
       lit " MCS ("; Group "mcs_table" (Plus d); lit ") "; Group "mcs" (Plus d)].

Definition P_DLSCH_SIMPLE : re :=
  seq [lit "UE "; Group "rnti" (Plus hex); lit ": dlsch_rounds "; rounds;
       lit ", dlsch_errors "; Group "errors" (Plus d);
       lit ", pucch0_DTX "; Group "pucch0_dtx" (Plus d);
       lit ", BLER "; Group "bler" (Plus d_or_dot);
       lit " MCS "; Group "mcs" (Plus d)].

Definition P_ULSCH_OLD : re :=
  seq [lit "UE "; Group "rnti" (Plus hex); lit ": ulsch_rounds "; rounds;
       lit ", ulsch_errors "; Group "errors" (Plus d);
       lit ", ulsch_DTX "; Group "dtx" (Plus d);
       lit ", BLER "; Group "bler" (Plus d_or_dot);
       lit " MCS ("; Group "mcs_table" (Plus d); lit ") "; Group "mcs" (Plus d);
       Lazy dot;
       Opt (seq [lit "SNR "; Group "snr" number; lit " dB"])].

Definition P_ULSCH_SIMPLE : re :=
  seq [lit "UE "; Group "rnti" (Plus hex); lit ": ulsch_rounds "; rounds;
       lit ", ulsch_DTX "; Group "dtx" (Plus d);
       lit ", ulsch_errors "; Group "errors" (Plus d);
       lit ", BLER "; Group "bler" (Plus d_or_dot);
       lit " MCS "; Group "mcs" (Plus d)].

Definition P_DLSCH_BYTES : re :=
  seq [lit "UE "; Group "rnti" (Plus hex); lit ": dlsch_total_bytes ";
       Group "bytes" (Plus d)].

Definition P_ULSCH_BYTES_RX : re :=
  seq [lit "UE "; Group "rnti" (Plus hex); lit ": ulsch_total_bytes_received ";
       Group "bytes" (Plus d)].

Definition P_LCID : re :=
  seq [lit "UE "; Group "rnti" (Plus hex); lit ": LCID "; Plus d; lit ": ";
       Star dot].

End Patterns.

(** ** Results and the state monad of the program *)

Inductive result (S A : Type) : Type :=
| Ok (a : A) (s : S)            (* returned [a] *)
| Raise (e : Py.exn) (s : S)    (* an exception left the function *)
| Diverge (s : S).              (* the fuel of a loop ran out *)

Arguments Ok {S A} a s.
Arguments Raise {S A} e s.
Arguments Diverge {S A} s.

Definition M (S A : Type) : Type := S -> result S A.

Definition ret {S A} (a : A) : M S A := fun s => Ok a s.

Definition bind {S A B} (c : M S A) (k : A -> M S B) : M S B :=
  fun s =>
    match c s with
    | Ok a s' => k a s'
    | Raise e s' => Raise e s'
    | Diverge s' => Diverge s'
    end.

Definition raise {S A} (e : Py.exn) : M S A := fun s => Raise e s.
Definition diverge {S A} : M S A := fun s => Diverge s.
Definition gets {S A} (f : S -> A) : M S A := fun s => Ok (f s) s.
Definition modify {S} (f : S -> S) : M S unit := fun s => Ok tt (f s).

(** A call that raises [e] when it has no value. *)
Definition orraise {S A} (e : Py.exn) (o : option A) : M S A :=
  match o with Some a => ret a | None => raise e end.

Definition lift {S A} (r : Py.exn + A) : M S A :=
  match r with inr a => ret a | inl e => raise e end.

(** A computation on a part [S] of a state [T]: the part is read, the
    computation runs on it, and what it left is written back, whatever the
    outcome (the part is a mutable object both sides share). *)
Definition zoom {S T A} (rd : T -> S) (wr : S -> T -> T) (c : M S A) : M T A :=
  fun t =>
    match c (rd t) with
    | Ok a s => Ok a (wr s t)
    | Raise e s => Raise e (wr s t)
    | Diverge s => Diverge (wr s t)
    end.

(** The state a computation ended in, whatever its outcome. *)
Definition final {S A} (r : result S A) : S :=
  match r with Ok _ s | Raise _ s | Diverge s => s end.

Declare Scope monad_scope.
Delimit Scope monad_scope with monad.
Notation "x <- c ;; k" := (bind c (fun x => k))
  (at level 100, c at next level, right associativity) : monad_scope.
Notation "c ;; k" := (bind c (fun _ => k))
  (at level 100, right associativity) : monad_scope.
Local Open Scope monad_scope.

(** ** The data model *)

Abbreviation float := Py.float.
Abbreviation num := Py.num.

(** [ue["dl"]] *)
Record Dl : Type := mkDl {
  dl_cqi : option Z;
  dl_ri : option Z;
  dl_mcs : option Z;
  dl_a : Z;
  dl_errors : Z;
  dl_packets_ok : Z;
  dl_packets_nok : Z;
  dl_drop_rate : float;
  dl_total_bytes : Z;
  dl_last_total_bytes : option Z;
  dl_last_t_ms : option Z;
  dl_bitrate : num;
  dl_buffer_status : Z }.

(** [ue["ul"]] *)
Record Ul : Type := mkUl {
  ul_ri : option Z;
  ul_mcs : option Z;
  ul_snr : option float;
  ul_a : Z;
  ul_errors : Z;
  ul_packets_ok : Z;
  ul_packets_nok : Z;
  ul_drop_rate : float;
  ul_total_bytes_rx : Z;
  ul_last_total_bytes_rx : option Z;
  ul_last_t_ms : option Z;
  ul_bitrate : num;
  ul_bsr : Z;
  ul_timing_advance : Z }.

(** The per-UE state container. *)
Record UEState : Type := mkUE {
  ue_rnti : Z;
  ue_pci : Z;
  ue_sync : option string;
  ue_phr : option float;
  ue_pcmax : option float;
  ue_rsrp : option float;
  ue_ssb_sinr : option float;
  ue_dl : Dl;
  ue_ul : Ul }.

(** The snapshot as it is written and posted. *)
Record Downlink : Type := mkDownlink {
  down_cqi : Z;
  down_ri : Z;
  down_mcs : Z;
  down_bitrate : Z;
  down_packets_ok : Z;
  down_packets_nok : Z;
  down_drop_rate : float;
  down_buffer_status : Z }.

Record Uplink : Type := mkUplink {
  up_pusch_sinr : float;
  up_rsrp : float;
  up_ri : Z;
  up_mcs : Z;
  up_bitrate : Z;
  up_packets_ok : Z;
  up_packets_nok : Z;
  up_drop_rate : float;
  up_bsr : Z;
  up_timing_advance : Z;
  up_phr : float }.

Record UeRecord : Type := mkUeRecord {
  pci : Z;
  rnti : Z;
  downlink : Downlink;
  uplink : Uplink }.

Record Snapshot : Type := mkSnapshot {
  timestamp : Z;
  source : string;
  ues : list UeRecord }.

(** A cell and a row of the CSV file: the columns in the order of
    [fieldnames]. *)
Inductive cell : Type :=
| CInt (z : Z)
| CFloat (x : float)
| CStr (s : string).

Definition Row : Type := list (string * cell).

(** The body of a POST: [obj] is one snapshot or a list of them. *)
Inductive Payload : Type :=
| One (s : Snapshot)
| Batch (l : list Snapshot).

(** [request.Request(url, data=data, headers=headers, method=...)]; the
    headers are the same four in every request and are left out. *)
Record Request : Type := mkRequest {
  req_method : string;
  req_url : string;
  req_data : Payload;
  req_timeout : float }.

(** What [request.urlopen] does with a request: it returns a response, or
    raises [HTTPError] (with the status and the [Location] header, if any),
    [URLError], or another exception. *)
Inductive Reply : Type :=
| Response (status : Z)
| HTTPError (code : Z) (location : option string)
| URLError
| OtherException.

(** Everything the program obtains from outside: the reading of the clock
    at its n-th call, the server's answer to the n-th request, and
    [urllib.parse.urljoin]. *)
Record Env : Type := mkEnv {
  clock : nat -> Z;
  server : nat -> Request -> Reply;
  urljoin : string -> string -> string }.

(** The module-level variables [__main__] sets from the command line. *)
Record Config : Type := mkConfig {
  _SOURCE : string;
  _POST_URL : option string;
  _POST_TIMEOUT : float;
  _MAX_RETRIES : Z;
  _SEND_INTERVAL : float;
  _ONE_AT_A_TIME : bool;
  _SEND_ORDER : string;
  _CSV_WRITER : bool }.          (* [_CSV_WRITER is not None] *)

(** The module-level variables that change at run time, and the effects the
    program has had: the lines of the NDJSON sink, the rows of the CSV sink,
    the number of clock readings, the requests sent and the sleeps taken. *)
Record World : Type := mkWorld {
  state : gmap Z UEState;
  _counts : gmap string Z;
  _buffer : list Snapshot;
  _last_post_ms : Z;
  out_lines : list Snapshot;
  csv_rows : list Row;
  ticks : nat;
  requests : list Request;
  sleeps : list float }.

(** *** Field updates *)

Definition set_dl_cqi v (x : Dl) : Dl :=
  mkDl v (dl_ri x) (dl_mcs x) (dl_a x) (dl_errors x) (dl_packets_ok x)
    (dl_packets_nok x) (dl_drop_rate x) (dl_total_bytes x)
    (dl_last_total_bytes x) (dl_last_t_ms x) (dl_bitrate x) (dl_buffer_status x).
Definition set_dl_ri v (x : Dl) : Dl :=
  mkDl (dl_cqi x) v (dl_mcs x) (dl_a x) (dl_errors x) (dl_packets_ok x)
    (dl_packets_nok x) (dl_drop_rate x) (dl_total_bytes x)
    (dl_last_total_bytes x) (dl_last_t_ms x) (dl_bitrate x) (dl_buffer_status x).
Definition set_dl_mcs v (x : Dl) : Dl :=
  mkDl (dl_cqi x) (dl_ri x) v (dl_a x) (dl_errors x) (dl_packets_ok x)
    (dl_packets_nok x) (dl_drop_rate x) (dl_total_bytes x)
    (dl_last_total_bytes x) (dl_last_t_ms x) (dl_bitrate x) (dl_buffer_status x).
Definition set_dl_a v (x : Dl) : Dl :=
  mkDl (dl_cqi x) (dl_ri x) (dl_mcs x) v (dl_errors x) (dl_packets_ok x)
    (dl_packets_nok x) (dl_drop_rate x) (dl_total_bytes x)
    (dl_last_total_bytes x) (dl_last_t_ms x) (dl_bitrate x) (dl_buffer_status x).
Definition set_dl_errors v (x : Dl) : Dl :=
  mkDl (dl_cqi x) (dl_ri x) (dl_mcs x) (dl_a x) v (dl_packets_ok x)
    (dl_packets_nok x) (dl_drop_rate x) (dl_total_bytes x)
    (dl_last_total_bytes x) (dl_last_t_ms x) (dl_bitrate x) (dl_buffer_status x).
Definition set_dl_packets_ok v (x : Dl) : Dl :=
  mkDl (dl_cqi x) (dl_ri x) (dl_mcs x) (dl_a x) (dl_errors x) v
    (dl_packets_nok x) (dl_drop_rate x) (dl_total_bytes x)
    (dl_last_total_bytes x) (dl_last_t_ms x) (dl_bitrate x) (dl_buffer_status x).
Definition set_dl_packets_nok v (x : Dl) : Dl :=
  mkDl (dl_cqi x) (dl_ri x) (dl_mcs x) (dl_a x) (dl_errors x) (dl_packets_ok x)
    v (dl_drop_rate x) (dl_total_bytes x)
    (dl_last_total_bytes x) (dl_last_t_ms x) (dl_bitrate x) (dl_buffer_status x).
Definition set_dl_drop_rate v (x : Dl) : Dl :=
  mkDl (dl_cqi x) (dl_ri x) (dl_mcs x) (dl_a x) (dl_errors x) (dl_packets_ok x)
    (dl_packets_nok x) v (dl_total_bytes x)
    (dl_last_total_bytes x) (dl_last_t_ms x) (dl_bitrate x) (dl_buffer_status x).
Definition set_dl_total_bytes v (x : Dl) : Dl :=
  mkDl (dl_cqi x) (dl_ri x) (dl_mcs x) (dl_a x) (dl_errors x) (dl_packets_ok x)
    (dl_packets_nok x) (dl_drop_rate x) v
    (dl_last_total_bytes x) (dl_last_t_ms x) (dl_bitrate x) (dl_buffer_status x).
Definition set_dl_last_total_bytes v (x : Dl) : Dl :=
  mkDl (dl_cqi x) (dl_ri x) (dl_mcs x) (dl_a x) (dl_errors x) (dl_packets_ok x)
    (dl_packets_nok x) (dl_drop_rate x) (dl_total_bytes x)
    v (dl_last_t_ms x) (dl_bitrate x) (dl_buffer_status x).
Definition set_dl_last_t_ms v (x : Dl) : Dl :=
  mkDl (dl_cqi x) (dl_ri x) (dl_mcs x) (dl_a x) (dl_errors x) (dl_packets_ok x)
    (dl_packets_nok x) (dl_drop_rate x) (dl_total_bytes x)
    (dl_last_total_bytes x) v (dl_bitrate x) (dl_buffer_status x).
Definition set_dl_bitrate v (x : Dl) : Dl :=
  mkDl (dl_cqi x) (dl_ri x) (dl_mcs x) (dl_a x) (dl_errors x) (dl_packets_ok x)
    (dl_packets_nok x) (dl_drop_rate x) (dl_total_bytes x)
    (dl_last_total_bytes x) (dl_last_t_ms x) v (dl_buffer_status x).

Definition set_ul_mcs v (x : Ul) : Ul :=
  mkUl (ul_ri x) v (ul_snr x) (ul_a x) (ul_errors x) (ul_packets_ok x)
    (ul_packets_nok x) (ul_drop_rate x) (ul_total_bytes_rx x)
    (ul_last_total_bytes_rx x) (ul_last_t_ms x) (ul_bitrate x) (ul_bsr x)
    (ul_timing_advance x).
Definition set_ul_snr v (x : Ul) : Ul :=
  mkUl (ul_ri x) (ul_mcs x) v (ul_a x) (ul_errors x) (ul_packets_ok x)
    (ul_packets_nok x) (ul_drop_rate x) (ul_total_bytes_rx x)
    (ul_last_total_bytes_rx x) (ul_last_t_ms x) (ul_bitrate x) (ul_bsr x)
    (ul_timing_advance x).
Definition set_ul_a v (x : Ul) : Ul :=
  mkUl (ul_ri x) (ul_mcs x) (ul_snr x) v (ul_errors x) (ul_packets_ok x)
    (ul_packets_nok x) (ul_drop_rate x) (ul_total_bytes_rx x)
    (ul_last_total_bytes_rx x) (ul_last_t_ms x) (ul_bitrate x) (ul_bsr x)
    (ul_timing_advance x).
Definition set_ul_errors v (x : Ul) : Ul :=
  mkUl (ul_ri x) (ul_mcs x) (ul_snr x) (ul_a x) v (ul_packets_ok x)
    (ul_packets_nok x) (ul_drop_rate x) (ul_total_bytes_rx x)
    (ul_last_total_bytes_rx x) (ul_last_t_ms x) (ul_bitrate x) (ul_bsr x)
    (ul_timing_advance x).
Definition set_ul_packets_ok v (x : Ul) : Ul :=
  mkUl (ul_ri x) (ul_mcs x) (ul_snr x) (ul_a x) (ul_errors x) v
    (ul_packets_nok x) (ul_drop_rate x) (ul_total_bytes_rx x)
    (ul_last_total_bytes_rx x) (ul_last_t_ms x) (ul_bitrate x) (ul_bsr x)
    (ul_timing_advance x).
Definition set_ul_packets_nok v (x : Ul) : Ul :=
  mkUl (ul_ri x) (ul_mcs x) (ul_snr x) (ul_a x) (ul_errors x) (ul_packets_ok x)
    v (ul_drop_rate x) (ul_total_bytes_rx x)
    (ul_last_total_bytes_rx x) (ul_last_t_ms x) (ul_bitrate x) (ul_bsr x)
    (ul_timing_advance x).
Definition set_ul_drop_rate v (x : Ul) : Ul :=
  mkUl (ul_ri x) (ul_mcs x) (ul_snr x) (ul_a x) (ul_errors x) (ul_packets_ok x)
    (ul_packets_nok x) v (ul_total_bytes_rx x)
    (ul_last_total_bytes_rx x) (ul_last_t_ms x) (ul_bitrate x) (ul_bsr x)
    (ul_timing_advance x).
Definition set_ul_total_bytes_rx v (x : Ul) : Ul :=
  mkUl (ul_ri x) (ul_mcs x) (ul_snr x) (ul_a x) (ul_errors x) (ul_packets_ok x)
    (ul_packets_nok x) (ul_drop_rate x) v
    (ul_last_total_bytes_rx x) (ul_last_t_ms x) (ul_bitrate x) (ul_bsr x)
    (ul_timing_advance x).
Definition set_ul_last_total_bytes_rx v (x : Ul) : Ul :=
  mkUl (ul_ri x) (ul_mcs x) (ul_snr x) (ul_a x) (ul_errors x) (ul_packets_ok x)
    (ul_packets_nok x) (ul_drop_rate x) (ul_total_bytes_rx x)
    v (ul_last_t_ms x) (ul_bitrate x) (ul_bsr x)
    (ul_timing_advance x).
Definition set_ul_last_t_ms v (x : Ul) : Ul :=
  mkUl (ul_ri x) (ul_mcs x) (ul_snr x) (ul_a x) (ul_errors x) (ul_packets_ok x)
    (ul_packets_nok x) (ul_drop_rate x) (ul_total_bytes_rx x)
    (ul_last_total_bytes_rx x) v (ul_bitrate x) (ul_bsr x)
    (ul_timing_advance x).
Definition set_ul_bitrate v (x : Ul) : Ul :=
  mkUl (ul_ri x) (ul_mcs x) (ul_snr x) (ul_a x) (ul_errors x) (ul_packets_ok x)
    (ul_packets_nok x) (ul_drop_rate x) (ul_total_bytes_rx x)
    (ul_last_total_bytes_rx x) (ul_last_t_ms x) v (ul_bsr x)
    (ul_timing_advance x).

Definition set_ue_phr v (u : UEState) : UEState :=
  mkUE (ue_rnti u) (ue_pci u) (ue_sync u) v (ue_pcmax u) (ue_rsrp u)
    (ue_ssb_sinr u) (ue_dl u) (ue_ul u).
Definition set_ue_pcmax v (u : UEState) : UEState :=
  mkUE (ue_rnti u) (ue_pci u) (ue_sync u) (ue_phr u) v (ue_rsrp u)
    (ue_ssb_sinr u) (ue_dl u) (ue_ul u).
Definition set_ue_rsrp v (u : UEState) : UEState :=
  mkUE (ue_rnti u) (ue_pci u) (ue_sync u) (ue_phr u) (ue_pcmax u) v
    (ue_ssb_sinr u) (ue_dl u) (ue_ul u).
Definition set_ue_ssb_sinr v (u : UEState) : UEState :=
  mkUE (ue_rnti u) (ue_pci u) (ue_sync u) (ue_phr u) (ue_pcmax u) (ue_rsrp u)
    v (ue_dl u) (ue_ul u).
Definition set_ue_dl v (u : UEState) : UEState :=
  mkUE (ue_rnti u) (ue_pci u) (ue_sync u) (ue_phr u) (ue_pcmax u) (ue_rsrp u)
    (ue_ssb_sinr u) v (ue_ul u).
Definition set_ue_ul v (u : UEState) : UEState :=
  mkUE (ue_rnti u) (ue_pci u) (ue_sync u) (ue_phr u) (ue_pcmax u) (ue_rsrp u)
    (ue_ssb_sinr u) (ue_dl u) v.

Definition set_state v (w : World) : World :=
  mkWorld v (_counts w) (_buffer w) (_last_post_ms w) (out_lines w)
    (csv_rows w) (ticks w) (requests w) (sleeps w).
Definition set_counts v (w : World) : World :=
  mkWorld (state w) v (_buffer w) (_last_post_ms w) (out_lines w)
    (csv_rows w) (ticks w) (requests w) (sleeps w).
Definition set_buffer v (w : World) : World :=
  mkWorld (state w) (_counts w) v (_last_post_ms w) (out_lines w)
    (csv_rows w) (ticks w) (requests w) (sleeps w).
Definition set_last_post_ms v (w : World) : World :=
  mkWorld (state w) (_counts w) (_buffer w) v (out_lines w)
    (csv_rows w) (ticks w) (requests w) (sleeps w).
Definition set_out_lines v (w : World) : World :=
  mkWorld (state w) (_counts w) (_buffer w) (_last_post_ms w) v
    (csv_rows w) (ticks w) (requests w) (sleeps w).
Definition set_csv_rows v (w : World) : World :=
  mkWorld (state w) (_counts w) (_buffer w) (_last_post_ms w) (out_lines w)
    v (ticks w) (requests w) (sleeps w).
Definition set_ticks v (w : World) : World :=
  mkWorld (state w) (_counts w) (_buffer w) (_last_post_ms w) (out_lines w)
    (csv_rows w) v (requests w) (sleeps w).
Definition set_requests v (w : World) : World :=
  mkWorld (state w) (_counts w) (_buffer w) (_last_post_ms w) (out_lines w)
    (csv_rows w) (ticks w) v (sleeps w).
Definition set_sleeps v (w : World) : World :=
  mkWorld (state w) (_counts w) (_buffer w) (_last_post_ms w) (out_lines w)
    (csv_rows w) (ticks w) (requests w) v.

(** ** The program *)

Definition zero : float := S754_zero false.                 (* 0.0 *)
Definition _BACKOFF_BASE : float := binary_normalize Py.prec Py.emax 1 (-1) false.  (* 0.5 *)
Definition max_redirects : Z := 5.

(** [x or 0] on an int. *)
Definition or0 (x : Z) : Z := if x =? 0 then 0 else x.

(** [x or 0.0] on a float. *)
Definition or0f (x : float) : float := if Py.ftruthy x then x else zero.

(** [x or 0.0] on a float that may be [None]. *)
Definition opt_or0f (x : option float) : float :=
  match x with Some v => or0f v | None => zero end.

(** [x or 0] on a number. *)
Definition or0n (x : num) : num := if Py.truthy x then x else Py.Int 0.

(** [x if x is not None else 0] *)
Definition not_none_or0 (x : option Z) : Z :=
  match x with Some v => v | None => 0 end.

Definition _parse_rnti (rnti_str : string) : option Z :=
  let s := Py.lower (Py.strip rnti_str) in
  let s := if Py.startswith s "0x" then Py.drop 2 s else s in
  if Py.isdigit s then Py.int 10 s else Py.int 16 s.

Definition _init_ue (rnti : Z) : UEState :=
  {| ue_rnti := rnti;
     ue_pci := 0;
     ue_sync := None;
     ue_phr := None;
     ue_pcmax := None;
     ue_rsrp := None;
     ue_ssb_sinr := None;
     ue_dl := {| dl_cqi := None;
                 dl_ri := None;
                 dl_mcs := None;
                 dl_a := 0;
                 dl_errors := 0;
                 dl_packets_ok := 0;
                 dl_packets_nok := 0;
                 dl_drop_rate := zero;
                 dl_total_bytes := 0;
                 dl_last_total_bytes := None;
                 dl_last_t_ms := None;
                 dl_bitrate := Py.Flt (Py.of_Z 4000000);
                 dl_buffer_status := 0 |};
     ue_ul := {| ul_ri := None;
                 ul_mcs := None;
                 ul_snr := None;
                 ul_a := 0;
                 ul_errors := 0;
                 ul_packets_ok := 0;
                 ul_packets_nok := 0;
                 ul_drop_rate := zero;
                 ul_total_bytes_rx := 0;
                 ul_last_total_bytes_rx := None;
                 ul_last_t_ms := None;
                 ul_bitrate := Py.Int 0;
                 ul_bsr := 0;
                 ul_timing_advance := 0 |} |}.

(** [_get_ue] answers a reference to the dict stored under [rnti]; here the
    reference is the key, and [ue] and [at_ue] read and update the dict it
    stands for. *)
Definition _get_ue (rnti : Z) : M World Z :=
  fun w =>
    match state w !! rnti with
    | Some _ => Ok rnti w
    | None => Ok rnti (set_state (<[rnti := _init_ue rnti]> (state w)) w)
    end.

Definition ue (ref : Z) (w : World) : UEState :=
  match state w !! ref with Some u => u | None => _init_ue ref end.

Definition at_ue {A} (ref : Z) (c : M UEState A) : M World A :=
  zoom (ue ref) (fun u w => set_state (<[ref := u]> (state w)) w) c.

Definition at_dl {A} (c : M Dl A) : M UEState A := zoom ue_dl set_ue_dl c.
Definition at_ul {A} (c : M Ul A) : M UEState A := zoom ue_ul set_ue_ul c.

(** The keys [_update_pkt_stats] reads and writes; both [ue["dl"]] and
    [ue["ul"]] have them. *)
Class PktSide (S : Type) : Type := {
  side_a : S -> Z;
  side_errors : S -> Z;
  side_packets_ok : S -> Z;
  side_packets_nok : S -> Z;
  side_drop_rate : S -> float;
  set_packets_ok : Z -> S -> S;
  set_packets_nok : Z -> S -> S;
  set_drop_rate : float -> S -> S }.

#[export] Instance Dl_side : PktSide Dl := {|
  side_a := dl_a; side_errors := dl_errors;
  side_packets_ok := dl_packets_ok; side_packets_nok := dl_packets_nok;
  side_drop_rate := dl_drop_rate;
  set_packets_ok := set_dl_packets_ok; set_packets_nok := set_dl_packets_nok;
  set_drop_rate := set_dl_drop_rate |}.

#[export] Instance Ul_side : PktSide Ul := {|
  side_a := ul_a; side_errors := ul_errors;
  side_packets_ok := ul_packets_ok; side_packets_nok := ul_packets_nok;
  side_drop_rate := ul_drop_rate;
  set_packets_ok := set_ul_packets_ok; set_packets_nok := set_ul_packets_nok;
  set_drop_rate := set_ul_drop_rate |}.

Definition _update_pkt_stats {S} `{PktSide S} : M S unit :=
  a <- gets side_a ;;
  errors <- gets side_errors ;;
  let ok := Z.max 0 (a - errors) in
  modify (set_packets_ok ok) ;;
  modify (set_packets_nok errors) ;;
  rate <- (if 0 <? a
           then q <- orraise Py.OverflowError (Py.truediv errors a) ;;
                ret (Py.fmul q (Py.of_Z 100))
           else ret zero) ;;
  modify (set_drop_rate rate).

Definition incr (key : string) (n : Z) : M World unit :=
  modify (fun w => set_counts (<[key := (_counts w !!! key) + n]> (_counts w)) w).

Section Program.

Variable env : Env.
Variable cfg : Config.

Definition _now_ms : M World Z :=
  fun w => Ok (clock env (ticks w)) (set_ticks (S (ticks w)) w).

Definition sleep (delay : float) : M World unit :=
  modify (fun w => set_sleeps (sleeps w ++ [delay]) w).

(** [request.urlopen(req, timeout=timeout)] *)
Definition urlopen (req : Request) : M World Reply :=
  fun w => Ok (server env (length (requests w)) req)
              (set_requests (requests w ++ [req]) w).

Definition is_redirect (code : Z) : bool :=
  (code =? 301) || (code =? 302) || (code =? 303) || (code =? 307)
  || (code =? 308).

Definition is_transient (code : Z) : bool :=
  (code =? 429) || (code =? 500) || (code =? 502) || (code =? 503)
  || (code =? 504).

(** [current_url[:-1] if current_url.endswith("/") else current_url + "/"] *)
Definition toggle_slash (current_url : string) : string :=
  if Py.endswith_char current_url "/" then Py.drop_last current_url
  else String.append current_url "/".

(** The [while True] of [_http_post_json], one [fuel] per request. *)
Fixpoint post_loop (fuel : nat) (data : Payload) (timeout : float)
    (retries : Z) (attempt : Z) (delay : float) (current_url : string)
    (redirects : Z) : M World bool :=
  match fuel with
  | O => diverge
  | S fuel' =>
      reply <- urlopen (mkRequest "POST" current_url data timeout) ;;
      match reply with
      | Response code => ret ((200 <=? code) && (code <? 300))
      | HTTPError code loc =>
          if is_redirect code then
            match loc with
            | None | Some EmptyString => ret false
            | Some loc =>
                let redirects := redirects + 1 in
                if redirects >? max_redirects then ret false
                else post_loop fuel' data timeout retries attempt delay
                       (urljoin env current_url loc) redirects
            end
          else
            let alt_url := toggle_slash current_url in
            if (code =? 405) && negb (String.eqb alt_url current_url)
            then post_loop fuel' data timeout retries attempt delay
                   alt_url redirects
            else
              let transient := is_transient code in
              let attempt := attempt + 1 in
              if negb transient || (attempt >? retries) then ret false
              else sleep delay ;;
                   post_loop fuel' data timeout retries attempt
                     (Py.fmul delay (Py.of_Z 2)) current_url redirects
      | URLError | OtherException =>
          let attempt := attempt + 1 in
          if attempt >? retries then ret false
          else sleep delay ;;
               post_loop fuel' data timeout retries attempt
                 (Py.fmul delay (Py.of_Z 2)) current_url redirects
      end
  end.

Definition _http_post_json (fuel : nat) (url : string) (obj : Payload)
    (timeout : float) (retries : Z) : M World bool :=
  post_loop fuel obj timeout retries 0 _BACKOFF_BASE url 0.

(** [force or (_last_post_ms == 0) or
     ((now_ms - _last_post_ms) >= int(_SEND_INTERVAL * 1000))] *)
Definition due (force : bool) (now_ms : Z) : M World bool :=
  if force then ret true
  else
    last <- gets _last_post_ms ;;
    if last =? 0 then ret true
    else
      interval <- lift (Py.int_of_float
                          (Py.fmul (_SEND_INTERVAL cfg) (Py.of_Z 1000))) ;;
      ret (now_ms - last >=? interval).

(** [_POST_URL] when it is set and not empty. *)
Definition post_url : option string :=
  match _POST_URL cfg with
  | Some EmptyString | None => None
  | Some url => Some url
  end.

Definition _maybe_post_flush (fuel : nat) (force : bool) : M World unit :=
  match post_url with
  | None => ret tt
  | Some url =>
      buf <- gets _buffer ;;
      match buf with
      | [] => ret tt
      | first :: rest =>
          now_ms <- _now_ms ;;
          is_due <- due force now_ms ;;
          if negb is_due then ret tt
          else if _ONE_AT_A_TIME cfg then
            item <- (if String.eqb (_SEND_ORDER cfg) "fifo"
                     then modify (set_buffer rest) ;; ret first
                     else modify (set_buffer []) ;; ret (List.last rest first)) ;;
            ok <- _http_post_json fuel url (One item) (_POST_TIMEOUT cfg)
                    (_MAX_RETRIES cfg) ;;
            if ok then
              incr "posted_batches" 1 ;;
              incr "posted_snapshots" 1 ;;
              modify (set_last_post_ms now_ms)
            else
              incr "post_errors" 1 ;;
              if String.eqb (_SEND_ORDER cfg) "fifo"
              then modify (fun w => set_buffer (item :: _buffer w) w)
              else ret tt
          else
            let payload := buf in
            ok <- _http_post_json fuel url (Batch payload) (_POST_TIMEOUT cfg)
                    (_MAX_RETRIES cfg) ;;
            if ok then
              incr "posted_batches" 1 ;;
              incr "posted_snapshots" (Z.of_nat (length payload)) ;;
              modify (set_buffer []) ;;
              modify (set_last_post_ms now_ms)
            else incr "post_errors" 1
      end
  end.

(** The dict under ["ues"] in [_emit_snapshot]. *)
Definition ue_record (u : UEState) : Py.exn + UeRecord :=
  match Py.int_of_num (or0n (dl_bitrate (ue_dl u))),
        Py.int_of_num (or0n (ul_bitrate (ue_ul u))) with
  | inl e, _ => inl e
  | inr _, inl e => inl e
  | inr dl_bps, inr ul_bps =>
      inr {| pci := or0 (ue_pci u);
             rnti := ue_rnti u;
             downlink :=
               {| down_cqi := not_none_or0 (dl_cqi (ue_dl u));
                  down_ri := not_none_or0 (dl_ri (ue_dl u));
                  down_mcs := not_none_or0 (dl_mcs (ue_dl u));
                  down_bitrate := dl_bps;
                  down_packets_ok := or0 (dl_packets_ok (ue_dl u));
                  down_packets_nok := or0 (dl_packets_nok (ue_dl u));
                  down_drop_rate := or0f (dl_drop_rate (ue_dl u));
                  down_buffer_status := or0 (dl_buffer_status (ue_dl u)) |};
             uplink :=
               {| up_pusch_sinr := opt_or0f (ul_snr (ue_ul u));
                  up_rsrp := opt_or0f (ue_rsrp u);
                  up_ri := not_none_or0 (ul_ri (ue_ul u));
                  up_mcs := not_none_or0 (ul_mcs (ue_ul u));
                  up_bitrate := ul_bps;
                  up_packets_ok := or0 (ul_packets_ok (ue_ul u));
                  up_packets_nok := or0 (ul_packets_nok (ue_ul u));
                  up_drop_rate := or0f (ul_drop_rate (ue_ul u));
                  up_bsr := or0 (ul_bsr (ue_ul u));
                  up_timing_advance := or0 (ul_timing_advance (ue_ul u));
                  up_phr := opt_or0f (ue_phr u) |} |}
  end.

Definition _write_json_line (obj : Snapshot) : M World unit :=
  modify (fun w => set_out_lines (out_lines w ++ [obj]) w).

(** The [row] dict of [_write_csv_rows], in the order of [fieldnames]. *)
Definition csv_row (ts : Z) (src : string) (r : UeRecord) : Row :=
  [ ("timestamp", CInt ts);
    ("source", CStr src);
    ("pci", CInt (pci r));
    ("rnti", CInt (rnti r));
    ("dl_cqi", CInt (or0 (down_cqi (downlink r))));
    ("dl_ri", CInt (or0 (down_ri (downlink r))));
    ("dl_mcs", CInt (or0 (down_mcs (downlink r))));
    ("dl_bitrate", CInt (or0 (down_bitrate (downlink r))));
    ("dl_packets_ok", CInt (or0 (down_packets_ok (downlink r))));
    ("dl_packets_nok", CInt (or0 (down_packets_nok (downlink r))));
    ("dl_drop_rate", CFloat (or0f (down_drop_rate (downlink r))));
    ("dl_buffer_status", CInt (or0 (down_buffer_status (downlink r))));
    ("ul_pusch_sinr", CFloat (or0f (up_pusch_sinr (uplink r))));
    ("ul_rsrp", CFloat (or0f (up_rsrp (uplink r))));
    ("ul_ri", CInt (or0 (up_ri (uplink r))));
    ("ul_mcs", CInt (or0 (up_mcs (uplink r))));
    ("ul_bitrate", CInt (or0 (up_bitrate (uplink r))));
    ("ul_packets_ok", CInt (or0 (up_packets_ok (uplink r))));
    ("ul_packets_nok", CInt (or0 (up_packets_nok (uplink r))));
    ("ul_drop_rate", CFloat (or0f (up_drop_rate (uplink r))));
    ("ul_bsr", CInt (or0 (up_bsr (uplink r))));
    ("ul_timing_advance", CInt (or0 (up_timing_advance (uplink r))));
    ("ul_phr", CFloat (or0f (up_phr (uplink r)))) ].

Definition _write_csv_rows (snapshot : Snapshot) : M World unit :=
  if negb (_CSV_WRITER cfg) then ret tt
  else
    let ts := timestamp snapshot in
    let src := source snapshot in
    modify (fun w =>
      set_csv_rows (csv_rows w ++ List.map (csv_row ts src) (ues snapshot)) w).

Definition _emit_snapshot (u : UEState) (reason : string) : M World unit :=
  ts <- _now_ms ;;
  r <- lift (ue_record u) ;;
  let payload := {| timestamp := ts; source := _SOURCE cfg; ues := [r] |} in
  _write_json_line payload ;;
  incr "snapshots" 1 ;;
  _write_csv_rows payload ;;
  match post_url with
  | Some _ =>
      if _ONE_AT_A_TIME cfg && String.eqb (_SEND_ORDER cfg) "latest"
      then modify (set_buffer []) ;;
           modify (fun w => set_buffer (_buffer w ++ [payload]) w)
      else modify (fun w => set_buffer (_buffer w ++ [payload]) w)
  | None => ret tt
  end.

(** [int(s)] *)
Definition int10 (s : string) : M World Z := orraise Py.ValueError (Py.int 10 s).

(** [float(s)] *)
Definition float_ (s : string) : M World float :=
  orraise Py.ValueError (Py.float_of_str s).

(** [ue[...] = v], [ue["dl"][...] = v] and [ue["ul"][...] = v] *)
Definition ue_assign (ref : Z) (f : UEState -> UEState) : M World unit :=
  at_ue ref (modify f).
Definition dl_assign (ref : Z) (f : Dl -> Dl) : M World unit :=
  at_ue ref (at_dl (modify f)).
Definition ul_assign (ref : Z) (f : Ul -> Ul) : M World unit :=
  at_ue ref (at_ul (modify f)).

(** [a or b] on two match results. *)
Definition or_match (a b : option Re.caps) : option Re.caps :=
  match a with Some m => Some m | None => b end.

(** The branches of [process_line]: the body of each [if m:], up to its
    closing [_maybe_post_flush(force=False)]. *)

Definition header_line (m : Re.caps) : M World unit :=
  rnti <- orraise Py.ValueError (_parse_rnti (Re.group m "rnti")) ;;
  ref <- _get_ue rnti ;;
  match Re.get m "phr" with
  | Some v => x <- float_ v ;; ue_assign ref (set_ue_phr (Some x))
  | None => ret tt
  end ;;
  match Re.get m "pcmax" with
  | Some v => x <- float_ v ;; ue_assign ref (set_ue_pcmax (Some x))
  | None => ret tt
  end ;;
  match Re.get m "rsrp" with
  | Some v =>
      match Py.float_of_str v with
      | Some x => ue_assign ref (set_ue_rsrp (Some x))
      | None => ret tt
      end
  | None => ret tt
  end ;;
  match Re.get m "sinsb" with
  | Some v =>
      match Py.float_of_str v with
      | Some x => ue_assign ref (set_ue_ssb_sinr (Some x))
      | None => ret tt
      end
  | None => ret tt
  end ;;
  incr "header" 1.

Definition cqi_line (m : Re.caps) : M World unit :=
  rnti <- orraise Py.ValueError (_parse_rnti (Re.group m "rnti")) ;;
  ref <- _get_ue rnti ;;
  cqi <- int10 (Re.group m "cqi") ;;
  dl_assign ref (set_dl_cqi (Some cqi)) ;;
  ri <- int10 (Re.group m "ri") ;;
  dl_assign ref (set_dl_ri (Some ri)) ;;
  incr "cqi" 1.

Definition dlsch_line (m : Re.caps) : M World unit :=
  rnti <- orraise Py.ValueError (_parse_rnti (Re.group m "rnti")) ;;
  ref <- _get_ue rnti ;;
  a <- int10 (Re.group m "a") ;;
  dl_assign ref (set_dl_a a) ;;
  errors <- int10 (Re.group m "errors") ;;
  dl_assign ref (set_dl_errors errors) ;;
  mcs <- int10 (Re.group m "mcs") ;;
  dl_assign ref (set_dl_mcs (Some mcs)) ;;
  at_ue ref (at_dl _update_pkt_stats) ;;
  incr "dlsch" 1.

Definition ulsch_line (m : Re.caps) : M World unit :=
  rnti <- orraise Py.ValueError (_parse_rnti (Re.group m "rnti")) ;;
  ref <- _get_ue rnti ;;
  a <- int10 (Re.group m "a") ;;
  ul_assign ref (set_ul_a a) ;;
  errors <- int10 (Re.group m "errors") ;;
  ul_assign ref (set_ul_errors errors) ;;
  mcs <- int10 (Re.group m "mcs") ;;
  ul_assign ref (set_ul_mcs (Some mcs)) ;;
  match Re.get m "snr" with
  | Some v =>
      if Py.nonempty v
      then match Py.float_of_str v with
           | Some x => ul_assign ref (set_ul_snr (Some x))
           | None => ret tt
           end
      else ret tt
  | None => ret tt
  end ;;
  at_ue ref (at_ul _update_pkt_stats) ;;
  incr "ulsch" 1.

(** [bps = 4e6#_compute_bitrate(...)], then [if bps is not None]. *)
Definition bps : option float := Some (Py.of_Z 4000000).

Definition dl_bytes_line (m : Re.caps) : M World unit :=
  rnti <- orraise Py.ValueError (_parse_rnti (Re.group m "rnti")) ;;
  ref <- _get_ue rnti ;;
  cur_t_ms <- _now_ms ;;
  total_bytes <- int10 (Re.group m "bytes") ;;
  match bps with
  | Some b => dl_assign ref (set_dl_bitrate (Py.Flt b))
  | None => ret tt
  end ;;
  dl_assign ref (set_dl_total_bytes total_bytes) ;;
  dl_assign ref (set_dl_last_total_bytes (Some total_bytes)) ;;
  dl_assign ref (set_dl_last_t_ms (Some cur_t_ms)) ;;
  incr "dl_bytes" 1.

Definition ul_bytes_line (m : Re.caps) : M World unit :=
  rnti <- orraise Py.ValueError (_parse_rnti (Re.group m "rnti")) ;;
  ref <- _get_ue rnti ;;
  cur_t_ms <- _now_ms ;;
  total_bytes_rx <- int10 (Re.group m "bytes") ;;
  match bps with
  | Some b => ul_assign ref (set_ul_bitrate (Py.Flt b))
  | None => ret tt
  end ;;
  ul_assign ref (set_ul_total_bytes_rx total_bytes_rx) ;;
  ul_assign ref (set_ul_last_total_bytes_rx (Some total_bytes_rx)) ;;
  ul_assign ref (set_ul_last_t_ms (Some cur_t_ms)) ;;
  incr "ul_bytes" 1 ;;
  u <- gets (ue ref) ;;
  _emit_snapshot u "ul_bytes_rx".

Definition lcid_line (m : Re.caps) : M World unit :=
  rnti <- orraise Py.ValueError (_parse_rnti (Re.group m "rnti")) ;;
  ref <- _get_ue rnti ;;
  incr "lcid" 1 ;;
  u <- gets (ue ref) ;;
  _emit_snapshot u "lcid_fallback".

Definition process_line (fuel : nat) (line : string) : M World unit :=
  incr "lines" 1 ;;
  let s := Py.strip line in
  if negb (Py.nonempty s) then ret tt
  else if Py.startswith s "[" then _maybe_post_flush fuel false
  else
    match or_match (Re.search P_HEADER_SIMPLE s) (Re.search P_HEADER_OLD s) with
    | Some m => header_line m ;; _maybe_post_flush fuel false
    | None =>
    match Re.search P_CQI s with
    | Some m => cqi_line m ;; _maybe_post_flush fuel false
    | None =>
    match or_match (Re.search P_DLSCH_SIMPLE s) (Re.search P_DLSCH_OLD s) with
    | Some m => dlsch_line m ;; _maybe_post_flush fuel false
    | None =>
    match or_match (Re.search P_ULSCH_SIMPLE s) (Re.search P_ULSCH_OLD s) with
    | Some m => ulsch_line m ;; _maybe_post_flush fuel false
    | None =>
    match Re.search P_DLSCH_BYTES s with
    | Some m => dl_bytes_line m ;; _maybe_post_flush fuel false
    | None =>
    match Re.search P_ULSCH_BYTES_RX s with
    | Some m => ul_bytes_line m ;; _maybe_post_flush fuel false
    | None =>
    match Re.search P_LCID s with
    | Some m => lcid_line m ;; _maybe_post_flush fuel false
    | None => ret tt
    end end end end end end end.

(** [stream_gnb_log(path, follow=False)] on a file whose lines are [lines]:
    every line is processed and followed by a flush check; the [finally]
    clause forces one last flush, also when a line raised. *)
Fixpoint read_lines (fuel : nat) (lines : list string) : M World unit :=
  match lines with
  | [] => ret tt
  | line :: rest =>
      process_line fuel line ;;
      _maybe_post_flush fuel false ;;
      read_lines fuel rest
  end.

Definition stream_gnb_log (fuel : nat) (lines : list string) : M World unit :=
  fun w =>
    match read_lines fuel lines w with
    | Ok _ w' => _maybe_post_flush fuel true w'
    | Raise e w' =>
        match _maybe_post_flush fuel true w' with
        | Ok _ w'' => Raise e w''
        | other => other
        end
    | Diverge w' => Diverge w'
    end.

End Program.

(** The state at start-up. *)
Definition initial_counts : gmap string Z :=
  list_to_map
    [("lines", 0); ("header", 0); ("cqi", 0); ("dlsch", 0); ("ulsch", 0);
     ("dl_bytes", 0); ("ul_bytes", 0); ("lcid", 0); ("snapshots", 0);
     ("posted_batches", 0); ("posted_snapshots", 0); ("post_errors", 0)].

Definition initial : World :=
  {| state := ∅;
     _counts := initial_counts;
     _buffer := [];
     _last_post_ms := 0;
     out_lines := [];
     csv_rows := [];
     ticks := 0;
     requests := [];
     sleeps := [] |}.

(** The configuration [__main__] builds when no option is given. *)
Definition default_config : Config :=
  {| _SOURCE := "OAI";
     _POST_URL := None;
     _POST_TIMEOUT := Py.of_Z 5;
     _MAX_RETRIES := 3;
     _SEND_INTERVAL := Py.of_Z 1;
     _ONE_AT_A_TIME := true;
     _SEND_ORDER := "latest";
     _CSV_WRITER := false |}.

(** * Properties *)

(** ** The delivery client *)

(** [w'] differs from [w] in the requests sent and the sleeps taken only. *)
Definition net_only (w w' : World) : Prop :=
  state w' = state w /\ _counts w' = _counts w /\ _buffer w' = _buffer w
  /\ _last_post_ms w' = _last_post_ms w /\ out_lines w' = out_lines w
  /\ csv_rows w' = csv_rows w /\ ticks w' = ticks w.

Definition is_post_of (obj : Payload) (timeout : float) (rq : Request) : Prop :=
  req_method rq = "POST" /\ req_data rq = obj /\ req_timeout rq = timeout.

(** What a delivery leaves behind: nothing but requests, each a POST of
    [obj], and sleeps. *)
Definition delivered (obj : Payload) (timeout : float) (w w' : World) : Prop :=
  net_only w w'
  /\ exists new, requests w' = requests w ++ new
                 /\ Forall (is_post_of obj timeout) new.

Lemma delivered_sleep obj timeout w w' dl :
  delivered obj timeout (set_sleeps (sleeps w ++ [dl]) w) w' ->
  delivered obj timeout w w'.
Proof. intros H. exact H. Qed.

Lemma delivered_refl obj timeout w : delivered obj timeout w w.
Proof.
  split; [repeat split|]. exists []. rewrite app_nil_r. auto.
Qed.

Definition post (url : string) (obj : Payload) (timeout : float) : Request :=
  mkRequest "POST" url obj timeout.

(** One more request was sent. *)
Definition sent (rq : Request) (w : World) : World :=
  set_requests (requests w ++ [rq]) w.

Lemma delivered_sent obj timeout w w' url :
  delivered obj timeout (sent (post url obj timeout) w) w' ->
  delivered obj timeout w w'.
Proof.
  intros (Hn & new & Hr & Hall). split; [exact Hn|].
  exists (post url obj timeout :: new). split.
  - rewrite Hr. simpl. rewrite <- app_assoc. reflexivity.
  - constructor; [repeat split | exact Hall].
Qed.

Lemma post_loop_delivered env fuel :
  forall obj timeout retries attempt delay url redirects w,
    delivered obj timeout w
      (final (post_loop env fuel obj timeout retries attempt delay url redirects w))
    /\ (fuel <> O ->
        delivered obj timeout (sent (post url obj timeout) w)
          (final (post_loop env fuel obj timeout retries attempt delay url redirects w))).
Proof.
  induction fuel as [|fuel IH]; intros.
  - split; [apply delivered_refl | congruence].
  - assert (H : delivered obj timeout (sent (post url obj timeout) w)
      (final (post_loop env (S fuel) obj timeout retries attempt delay url redirects w))).
    { simpl. unfold bind at 1. unfold urlopen, sent, post.
      destruct (server env (length (requests w)) _) as [code | code loc | | ].
      + apply delivered_refl.
      + destruct (is_redirect code).
        * destruct loc as [[|c l]|]; try apply delivered_refl.
          destruct (redirects + 1 >? max_redirects); [apply delivered_refl | apply IH].
        * destruct ((code =? 405) && negb (String.eqb (toggle_slash url) url)); [apply IH|].
          destruct (negb (is_transient code) || (attempt + 1 >? retries)); [apply delivered_refl|].
          unfold bind, sleep, modify. eapply delivered_sleep. apply IH.
      + destruct (attempt + 1 >? retries); [apply delivered_refl|].
        unfold bind, sleep, modify. eapply delivered_sleep. apply IH.
      + destruct (attempt + 1 >? retries); [apply delivered_refl|].
        unfold bind, sleep, modify. eapply delivered_sleep. apply IH. }
    split; [|intros _; exact H].
    eapply delivered_sent. exact H.
Qed.

Lemma length_drop_last s c :
  Py.endswith_char s c = true -> S (String.length (Py.drop_last s)) = String.length s.
Proof.
  induction s as [|x s IH]; simpl; [discriminate|].
  destruct s as [|y s']; [reflexivity|].
  intros H. simpl in *. f_equal. apply IH. exact H.
Qed.

Lemma length_append s t :
  String.length (String.append s t) = (String.length s + String.length t)%nat.
Proof. induction s as [|c s IH]; simpl; [reflexivity|]. rewrite IH. reflexivity. Qed.

Lemma toggle_slash_ne url : String.eqb (toggle_slash url) url = false.
Proof.
  apply String.eqb_neq. intros E. apply (f_equal String.length) in E.
  unfold toggle_slash in E. destruct (Py.endswith_char url "/") eqn:H.
  - apply length_drop_last in H. lia.
  - rewrite length_append in E. simpl in E. lia.
Qed.

(** The requests a client sends when every answer is 405. *)
Fixpoint toggling (n : nat) (url : string) (obj : Payload) (timeout : float) : list Request :=
  match n with
  | O => []
  | S n' => mkRequest "POST" url obj timeout :: toggling n' (toggle_slash url) obj timeout
  end.

Lemma post_loop_405 env fuel :
  (forall n rq, server env n rq = HTTPError 405 None) ->
  forall obj timeout retries attempt delay url redirects w,
    post_loop env fuel obj timeout retries attempt delay url redirects w
    = Diverge (set_requests (requests w ++ toggling fuel url obj timeout) w).
Proof.
  intros Hsrv. induction fuel as [|fuel IH]; intros.
  - simpl. unfold diverge. rewrite app_nil_r. destruct w; reflexivity.
  - simpl. unfold bind, urlopen. rewrite Hsrv. simpl.
    rewrite toggle_slash_ne. simpl. rewrite IH. simpl.
    rewrite <- app_assoc. reflexivity.
Qed.


(** *** Concrete servers *)

Definition snap0 : Snapshot := {| timestamp := 0; source := "OAI"; ues := [] |}.

(** The first request is answered 301 with a Location, every later one 200. *)
Definition env_moved : Env :=
  {| clock := fun _ => 0;
     server := fun n _ => match n with
                          | O => HTTPError 301 (Some "http://new/ingest")
                          | _ => Response 200
                          end;
     urljoin := fun _ loc => loc |}.


(** Every request is answered 302 with a Location. *)
Definition env_302 : Env :=
  {| clock := fun _ => 0;
     server := fun _ _ => HTTPError 302 (Some "http://new/ingest");
     urljoin := fun _ loc => loc |}.

(** Every request is answered 405, whatever its URL. *)
Definition env_405 : Env :=
  {| clock := fun _ => 0;
     server := fun _ _ => HTTPError 405 None;
     urljoin := fun _ loc => loc |}.


(** The scenario of the specification: a 301 with a Location, then a 2xx at
    the new location. The delivery succeeds after two requests, both POST. *)
Example moved_then_ok :
  _http_post_json env_moved 2 "http://old/ingest" (One snap0) (Py.of_Z 5) 3 initial
  = Ok true
      (sent (post "http://new/ingest" (One snap0) (Py.of_Z 5))
         (sent (post "http://old/ingest" (One snap0) (Py.of_Z 5)) initial)).
Proof. reflexivity. Qed.


(** The cap: five redirects are followed, the sixth ends the attempt. *)
Example sixth_redirect_fails :
  match _http_post_json env_302 10 "http://old/ingest" (One snap0) (Py.of_Z 5) 3 initial with
  | Ok ok w => ok = false /\ length (requests w) = 6%nat
  | _ => False
  end.
Proof. vm_compute. split; reflexivity. Qed.

(** C7. Against a server that answers 405 to both variants of the URL, the
    attempt never ends: with any fuel the loop is still running when the fuel
    is gone, and it has sent one request per unit of fuel, the trailing slash
    toggled from each one to the next. *)
Theorem post_405_toggles_without_end :
  forall fuel url obj timeout retries w,
    _http_post_json env_405 fuel url obj timeout retries w
    = Diverge (set_requests (requests w ++ toggling fuel url obj timeout) w).
Proof.
  intros. unfold _http_post_json. apply post_loop_405. reflexivity.
Qed.

Example four_requests_after_405 :
  List.map req_url
    (requests (final (_http_post_json env_405 4 "http://h/api" (One snap0)
                        (Py.of_Z 5) 3 initial)))
  = ["http://h/api"; "http://h/api/"; "http://h/api"; "http://h/api/"].
Proof. reflexivity. Qed.

(** ** What each operation leaves untouched *)

(** [c] leaves the part [f] of the world as it found it, whatever its
    outcome. *)
Definition keeps {A B} (f : World -> B) (c : M World A) : Prop :=
  forall w, f (final (c w)) = f w.

Section Keeps.
Context {B : Type} (f : World -> B).

Lemma keeps_ret {A} (a : A) : keeps f (ret a).
Proof. intros w. reflexivity. Qed.

Lemma keeps_raise {A} e : keeps f (@raise World A e).
Proof. intros w. reflexivity. Qed.

Lemma keeps_diverge {A} : keeps f (@diverge World A).
Proof. intros w. reflexivity. Qed.

Lemma keeps_gets {A} (g : World -> A) : keeps f (gets g).
Proof. intros w. reflexivity. Qed.

Lemma keeps_orraise {A} e (o : option A) : keeps f (orraise e o).
Proof. destruct o; intros w; reflexivity. Qed.

Lemma keeps_lift {A} (r : Py.exn + A) : keeps f (lift r).
Proof. destruct r; intros w; reflexivity. Qed.

Lemma keeps_bind {A C} (c : M World A) (k : A -> M World C) :
  keeps f c -> (forall a, keeps f (k a)) -> keeps f (bind c k).
Proof.
  intros Hc Hk w. unfold bind. specialize (Hc w).
  destruct (c w) as [a w'| |]; simpl in *; try exact Hc.
  rewrite Hk. exact Hc.
Qed.

Lemma keeps_modify (g : World -> World) :
  (forall w, f (g w) = f w) -> keeps f (modify g).
Proof. intros H w. apply H. Qed.

Lemma keeps_zoom {S A} (rd : World -> S) (wr : S -> World -> World) (c : M S A) :
  (forall s w, f (wr s w) = f w) -> keeps f (zoom rd wr c).
Proof. intros H w. unfold zoom. destruct (c (rd w)); apply H. Qed.

End Keeps.

(** A part of the world that the updates of the device table do not reach:
    it does not depend on [state], [_counts] or the clock. *)
Definition beyond_updates {B} (f : World -> B) : Prop :=
  (forall v w, f (set_state v w) = f w)
  /\ (forall v w, f (set_counts v w) = f w)
  /\ (forall v w, f (set_ticks v w) = f w).

(** A part of the world that a delivery does not reach. *)
Definition beyond_delivery {B} (f : World -> B) : Prop :=
  (forall v w, f (set_counts v w) = f w)
  /\ (forall v w, f (set_buffer v w) = f w)
  /\ (forall v w, f (set_last_post_ms v w) = f w)
  /\ (forall v w, f (set_ticks v w) = f w)
  /\ (forall v w, f (set_requests v w) = f w)
  /\ (forall v w, f (set_sleeps v w) = f w).

(** A part of the world that an emission does not reach. *)
Definition beyond_emission {B} (f : World -> B) : Prop :=
  (forall v w, f (set_counts v w) = f w)
  /\ (forall v w, f (set_buffer v w) = f w)
  /\ (forall v w, f (set_ticks v w) = f w)
  /\ (forall v w, f (set_out_lines v w) = f w)
  /\ (forall v w, f (set_csv_rows v w) = f w).

Ltac frame :=
  repeat first
    [ progress intros
    | apply keeps_ret | apply keeps_raise | apply keeps_diverge
    | apply keeps_gets | apply keeps_orraise | apply keeps_lift
    | apply keeps_bind
    | apply keeps_modify; intros; solve [auto]
    | apply keeps_zoom; intros; solve [auto]
    | match goal with
      | |- keeps _ (match ?x with _ => _ end) => destruct x
      | |- keeps _ (if ?x then _ else _) => destruct x
      end ].

Lemma keeps_incr {B} (f : World -> B) key n :
  (forall v w, f (set_counts v w) = f w) -> keeps f (incr key n).
Proof. intros H. unfold incr. frame. Qed.

Lemma keeps_get_ue {B} (f : World -> B) r :
  (forall v w, f (set_state v w) = f w) -> keeps f (_get_ue r).
Proof.
  intros H w. unfold _get_ue. destruct (state w !! r); simpl; auto.
Qed.

Lemma keeps_now_ms {B} (f : World -> B) env :
  (forall v w, f (set_ticks v w) = f w) -> keeps f (_now_ms env).
Proof. intros H w. apply H. Qed.

Lemma keeps_at_ue {B A} (f : World -> B) ref (c : M UEState A) :
  (forall v w, f (set_state v w) = f w) -> keeps f (at_ue ref c).
Proof. intros H. unfold at_ue. frame. Qed.

Lemma keeps_post_loop {B} (f : World -> B) env fuel :
  (forall v w, f (set_requests v w) = f w) ->
  (forall v w, f (set_sleeps v w) = f w) ->
  forall obj timeout retries attempt delay url redirects,
    keeps f (post_loop env fuel obj timeout retries attempt delay url redirects).
Proof.
  intros Hr Hs. induction fuel as [|fuel IH]; intros; simpl.
  - apply keeps_diverge.
  - apply keeps_bind; [intros w; apply Hr|]. intros reply.
    unfold sleep. frame; apply IH.
Qed.

Lemma keeps_flush {B} (f : World -> B) env cfg fuel force :
  beyond_delivery f -> keeps f (_maybe_post_flush env cfg fuel force).
Proof.
  intros (Hc & Hb & Hl & Ht & Hr & Hs).
  unfold _maybe_post_flush, due, _http_post_json.
  destruct (post_url cfg); [|apply keeps_ret].
  apply keeps_bind; [apply keeps_gets|]. intros [|first rest]; [apply keeps_ret|].
  apply keeps_bind; [apply keeps_now_ms; exact Ht|]. intros now_ms.
  frame; first [apply keeps_incr; exact Hc | apply keeps_post_loop; assumption].
Qed.

Lemma keeps_emit {B} (f : World -> B) env cfg u reason :
  beyond_emission f -> keeps f (_emit_snapshot env cfg u reason).
Proof.
  intros (Hc & Hb & Ht & Ho & Hv).
  unfold _emit_snapshot, _write_json_line, _write_csv_rows.
  apply keeps_bind; [apply keeps_now_ms; exact Ht|]. intros ts.
  frame; apply keeps_incr; exact Hc.
Qed.

Lemma keeps_lines {B} (f : World -> B) m :
  beyond_updates f ->
  keeps f (header_line m) /\ keeps f (cqi_line m) /\ keeps f (dlsch_line m)
  /\ keeps f (ulsch_line m).
Proof.
  intros (Hs & Hc & Ht).
  unfold header_line, cqi_line, dlsch_line, ulsch_line, ue_assign, dl_assign,
    ul_assign, int10, float_.
  repeat split;
    frame; first [apply keeps_incr; exact Hc | apply keeps_get_ue; exact Hs
                 | apply keeps_at_ue; exact Hs].
Qed.

Lemma keeps_dl_bytes_line {B} (f : World -> B) env m :
  beyond_updates f -> keeps f (dl_bytes_line env m).
Proof.
  intros (Hs & Hc & Ht).
  unfold dl_bytes_line, bps, ue_assign, dl_assign, ul_assign, int10.
  frame; first [apply keeps_incr; exact Hc | apply keeps_get_ue; exact Hs
               | apply keeps_at_ue; exact Hs | apply keeps_now_ms; exact Ht].
Qed.

(** ** Emission *)

(** The snapshot [_emit_snapshot] builds from the record [r] in the world
    [w]. *)
Definition snapshot_of (env : Env) (cfg : Config) (r : UeRecord) (w : World)
    : Snapshot :=
  {| timestamp := clock env (ticks w); source := _SOURCE cfg; ues := [r] |}.

(** The delivery buffer after the snapshot [s] was emitted. *)
Definition enqueue (cfg : Config) (s : Snapshot) (buf : list Snapshot)
    : list Snapshot :=
  match post_url cfg with
  | None => buf
  | Some _ =>
      if _ONE_AT_A_TIME cfg && String.eqb (_SEND_ORDER cfg) "latest"
      then [s] else buf ++ [s]
  end.

(** The world after an emission that did not raise. *)
Definition emitted (env : Env) (cfg : Config) (r : UeRecord) (w : World) : World :=
  let s := snapshot_of env cfg r w in
  {| state := state w;
     _counts := <["snapshots" := (_counts w !!! "snapshots") + 1]> (_counts w);
     _buffer := enqueue cfg s (_buffer w);
     _last_post_ms := _last_post_ms w;
     out_lines := out_lines w ++ [s];
     csv_rows := csv_rows w ++ (if _CSV_WRITER cfg
                                then [csv_row (timestamp s) (source s) r]
                                else []);
     ticks := S (ticks w);
     requests := requests w;
     sleeps := sleeps w |}.

Lemma emit_snapshot_result env cfg u reason w :
  _emit_snapshot env cfg u reason w
  = match ue_record u with
    | inl e => Raise e (set_ticks (S (ticks w)) w)
    | inr r => Ok tt (emitted env cfg r w)
    end.
Proof.
  unfold _emit_snapshot, emitted, enqueue, snapshot_of, _write_json_line,
    _write_csv_rows, incr, bind, _now_ms, modify, lift, ret, raise.
  destruct (ue_record u) as [e|r]; [reflexivity|].
  destruct (_CSV_WRITER cfg); simpl;
    destruct (post_url cfg); simpl;
    try destruct (_ONE_AT_A_TIME cfg && String.eqb (_SEND_ORDER cfg) "latest");
    simpl; rewrite ?app_nil_r; reflexivity.
Qed.

(** ** The delivery buffer *)

Lemma flush_without_url env cfg fuel force w :
  post_url cfg = None -> _maybe_post_flush env cfg fuel force w = Ok tt w.
Proof. intros H. unfold _maybe_post_flush. rewrite H. reflexivity. Qed.

Lemma flush_empty_buffer env cfg fuel force w :
  _buffer w = [] -> _maybe_post_flush env cfg fuel force w = Ok tt w.
Proof.
  intros H. unfold _maybe_post_flush. destruct (post_url cfg); [|reflexivity].
  unfold bind, gets. rewrite H. reflexivity.
Qed.

Lemma due_world cfg force now_ms w :
  final (due cfg force now_ms w) = w.
Proof.
  unfold due. destruct force; [reflexivity|].
  unfold bind, gets. destruct (_last_post_ms w =? 0); [reflexivity|].
  destruct (Py.int_of_float _); reflexivity.
Qed.

Lemma keeps_http {B} (f : World -> B) env fuel url obj timeout retries :
  (forall v w, f (set_requests v w) = f w) ->
  (forall v w, f (set_sleeps v w) = f w) ->
  keeps f (_http_post_json env fuel url obj timeout retries).
Proof. intros. apply keeps_post_loop; assumption. Qed.

(** What a flush does once it is due, in one-at-a-time mode: [item] is what
    it took from the buffer and [left] what it left there. *)
Lemma flush_one_at_a_time env cfg fuel force w url first rest :
  post_url cfg = Some url -> _ONE_AT_A_TIME cfg = true ->
  _buffer w = first :: rest ->
  let now_ms := clock env (ticks w) in
  let w0 := set_ticks (S (ticks w)) w in
  due cfg force now_ms w0 = Ok true w0 ->
  let fifo := String.eqb (_SEND_ORDER cfg) "fifo" in
  let item := if fifo then first else List.last rest first in
  let left := if fifo then rest else [] in
  _maybe_post_flush env cfg fuel force w
  = match _http_post_json env fuel url (One item) (_POST_TIMEOUT cfg)
            (_MAX_RETRIES cfg) (set_buffer left w0) with
    | Ok true w2 =>
        Ok tt (set_last_post_ms now_ms
                 (final (incr "posted_snapshots" 1
                           (final (incr "posted_batches" 1 w2)))))
    | Ok false w2 =>
        Ok tt (if fifo
               then set_buffer (item :: _buffer w2)
                      (final (incr "post_errors" 1 w2))
               else final (incr "post_errors" 1 w2))
    | Raise e w2 => Raise e w2
    | Diverge w2 => Diverge w2
    end.
Proof.
  intros Hurl Hone Hbuf now_ms w0 Hdue fifo item left.
  unfold _maybe_post_flush. rewrite Hurl, Hone.
  unfold bind, gets, _now_ms. rewrite Hbuf. fold now_ms. fold w0.
  rewrite Hdue. cbn [negb]. fold fifo. subst item left.
  unfold modify, ret, incr.
  destruct fifo; cbn [final];
    match goal with
    | |- context [_http_post_json ?e ?f ?u ?o ?t ?r ?x] =>
        destruct (_http_post_json e f u o t r x) as [[|] w2|e' w2|w2]
    end; reflexivity.
Qed.


(** ** Invariants *)

(** [c] keeps the invariant [I], whatever its outcome. *)
Definition preserves {A} (I : World -> Prop) (c : M World A) : Prop :=
  forall w, I w -> I (final (c w)).

Lemma preserves_bind {A C} (I : World -> Prop) (c : M World A)
    (k : A -> M World C) :
  preserves I c -> (forall a, preserves I (k a)) -> preserves I (bind c k).
Proof.
  intros Hc Hk w Hw. unfold bind. specialize (Hc w Hw).
  destruct (c w) as [a w'| |]; simpl in *; try exact Hc.
  apply Hk. exact Hc.
Qed.

Lemma keeps_preserves {A B} (f : World -> B) (P : B -> Prop) (c : M World A) :
  keeps f c -> preserves (fun w => P (f w)) c.
Proof. intros H w Hw. rewrite H. exact Hw. Qed.

Lemma preserves_ret {A} (I : World -> Prop) (a : A) : preserves I (ret a).
Proof. intros w Hw. exact Hw. Qed.

(** The dispatch of [process_line]: an invariant that its branches, an
    emission and a flush keep is kept by the processing of a line. *)
Lemma preserves_process_line (I : World -> Prop) env cfg fuel :
  preserves I (incr "lines" 1) ->
  (forall m, preserves I (header_line m)) ->
  (forall m, preserves I (cqi_line m)) ->
  (forall m, preserves I (dlsch_line m)) ->
  (forall m, preserves I (ulsch_line m)) ->
  (forall m, preserves I (dl_bytes_line env m)) ->
  (forall m, preserves I (ul_bytes_line env cfg m)) ->
  (forall m, preserves I (lcid_line env cfg m)) ->
  preserves I (_maybe_post_flush env cfg fuel false) ->
  forall line, preserves I (process_line env cfg fuel line).
Proof.
  intros Hi H1 H2 H3 H4 H5 H6 H7 Hf line. unfold process_line.
  apply preserves_bind; [exact Hi|]. intros _.
  destruct (negb _); [apply preserves_ret|].
  destruct (Py.startswith _ _); [exact Hf|].
  repeat match goal with
         | |- preserves _ (match ?x with _ => _ end) => destruct x
         | |- preserves _ (bind _ _) => apply preserves_bind; [auto | intros; auto]
         end.
  apply preserves_ret.
Qed.


Definition at_most_one (w : World) : Prop := (length (_buffer w) <= 1)%nat.

Lemma latest_is_not_fifo cfg :
  _SEND_ORDER cfg = "latest" -> String.eqb (_SEND_ORDER cfg) "fifo" = false.
Proof. intros ->. reflexivity. Qed.

Lemma enqueue_latest cfg s buf :
  _ONE_AT_A_TIME cfg = true -> _SEND_ORDER cfg = "latest" ->
  enqueue cfg s buf = match post_url cfg with Some _ => [s] | None => buf end.
Proof. intros H1 H2. unfold enqueue. rewrite H1, H2. reflexivity. Qed.

Lemma emit_at_most_one env cfg u reason :
  _ONE_AT_A_TIME cfg = true -> _SEND_ORDER cfg = "latest" ->
  preserves at_most_one (_emit_snapshot env cfg u reason).
Proof.
  intros H1 H2 w Hw. rewrite emit_snapshot_result.
  destruct (ue_record u); [exact Hw|].
  unfold at_most_one. simpl. rewrite enqueue_latest by assumption.
  destruct (post_url cfg); [simpl; lia | exact Hw].
Qed.

(** In latest mode a flush either leaves the buffer alone or empties it. *)
Lemma flush_latest_buffer env cfg fuel force w :
  _ONE_AT_A_TIME cfg = true -> _SEND_ORDER cfg = "latest" ->
  _buffer (final (_maybe_post_flush env cfg fuel force w)) = _buffer w
  \/ _buffer (final (_maybe_post_flush env cfg fuel force w)) = [].
Proof.
  intros Hone Hlatest.
  destruct (post_url cfg) as [url|] eqn:Hurl;
    [|left; rewrite flush_without_url by assumption; reflexivity].
  destruct (_buffer w) as [|first rest] eqn:Hbuf;
    [left; rewrite flush_empty_buffer by assumption; simpl; congruence|].
  pose proof (due_world cfg force (clock env (ticks w))
                (set_ticks (S (ticks w)) w)) as Hw.
  destruct (due cfg force (clock env (ticks w)) (set_ticks (S (ticks w)) w))
    as [[|] w0|e w0|w0] eqn:Hdue; simpl in Hw; subst w0.
  - right.
    rewrite (flush_one_at_a_time env cfg fuel force w url first rest Hurl Hone
               Hbuf Hdue).
    rewrite (latest_is_not_fifo cfg Hlatest).
    pose proof (keeps_http _buffer env fuel url (One (List.last rest first))
                  (_POST_TIMEOUT cfg) (_MAX_RETRIES cfg) (fun _ _ => eq_refl)
                  (fun _ _ => eq_refl)
                  (set_buffer [] (set_ticks (S (ticks w)) w))) as K.
    destruct (_http_post_json _ _ _ _ _ _ _) as [[|] w2|e w2|w2];
      simpl in *; exact K.
  - left. unfold _maybe_post_flush. rewrite Hurl. unfold bind, gets, _now_ms.
    rewrite Hbuf, Hdue. simpl. congruence.
  - left. unfold _maybe_post_flush. rewrite Hurl. unfold bind, gets, _now_ms.
    rewrite Hbuf, Hdue. simpl. congruence.
  - left. unfold _maybe_post_flush. rewrite Hurl. unfold bind, gets, _now_ms.
    rewrite Hbuf, Hdue. simpl. congruence.
Qed.

Lemma flush_at_most_one env cfg fuel force :
  _ONE_AT_A_TIME cfg = true -> _SEND_ORDER cfg = "latest" ->
  preserves at_most_one (_maybe_post_flush env cfg fuel force).
Proof.
  intros H1 H2 w Hw. unfold at_most_one.
  destruct (flush_latest_buffer env cfg fuel force w H1 H2) as [-> | ->];
    [exact Hw | simpl; lia].
Qed.

Lemma buffer_beyond_updates : beyond_updates _buffer.
Proof. repeat split. Qed.

Lemma process_line_at_most_one env cfg fuel line :
  _ONE_AT_A_TIME cfg = true -> _SEND_ORDER cfg = "latest" ->
  preserves at_most_one (process_line env cfg fuel line).
Proof.
  intros H1 H2.
  assert (K : forall A (c : M World A), keeps _buffer c -> preserves at_most_one c).
  { intros A c Hc. exact (keeps_preserves _buffer (fun b => (length b <= 1)%nat) c Hc). }
  apply preserves_process_line.
  - apply K, keeps_incr. reflexivity.
  - intros m. apply K, (keeps_lines _buffer m buffer_beyond_updates).
  - intros m. apply K, (keeps_lines _buffer m buffer_beyond_updates).
  - intros m. apply K, (keeps_lines _buffer m buffer_beyond_updates).
  - intros m. apply K, (keeps_lines _buffer m buffer_beyond_updates).
  - intros m. apply K, keeps_dl_bytes_line, buffer_beyond_updates.
  - intros m. unfold ul_bytes_line, bps, ul_assign, int10.
    repeat match goal with
           | |- preserves _ (bind _ _) => apply preserves_bind; [|intros]
           end;
      try (apply emit_at_most_one; assumption);
      apply K; frame;
      first [apply keeps_incr; reflexivity | apply keeps_get_ue; reflexivity
            | apply keeps_at_ue; reflexivity | apply keeps_now_ms; reflexivity].
  - intros m. unfold lcid_line.
    repeat match goal with
           | |- preserves _ (bind _ _) => apply preserves_bind; [|intros]
           end;
      try (apply emit_at_most_one; assumption);
      apply K; frame;
      first [apply keeps_incr; reflexivity | apply keeps_get_ue; reflexivity].
  - apply flush_at_most_one; assumption.
Qed.


(** ** What a match captures *)

(** The texts a pattern can consume (word boundaries put no constraint on
    the text itself). *)
Fixpoint lang (r : Re.re) (t : string) : Prop :=
  match r with
  | Re.Eps => t = EmptyString
  | Re.Chr c => exists x, t = String x EmptyString /\ Re.eq_nocase x c = true
  | Re.Cls p => exists x, t = String x EmptyString /\ p x = true
  | Re.Seq r1 r2 => exists t1 t2, t = String.append t1 t2 /\ lang r1 t1 /\ lang r2 t2
  | Re.Alt r1 r2 => lang r1 t \/ lang r2 t
  | Re.Opt r1 => t = EmptyString \/ lang r1 t
  | Re.Star p | Re.Lazy p => Py.all_chars p t = true
  | Re.Plus p => Py.nonempty t = true /\ Py.all_chars p t = true
  | Re.Group _ r1 => lang r1 t
  | Re.Bound => t = EmptyString
  end.

(** The groups after a pattern matched, given those before it: every group
    of the pattern that took part is on top, with a text of its body. *)
Fixpoint groups_after (r : Re.re) (before : Re.caps -> Prop) (cs' : Re.caps)
    : Prop :=
  match r with
  | Re.Seq r1 r2 => groups_after r2 (groups_after r1 before) cs'
  | Re.Alt r1 r2 => groups_after r1 before cs' \/ groups_after r2 before cs'
  | Re.Opt r1 => groups_after r1 before cs' \/ before cs'
  | Re.Group n r1 =>
      exists cs t, groups_after r1 before cs /\ lang r1 t /\ cs' = (n, t) :: cs
  | _ => before cs'
  end.

Lemma append_assoc (a b c : string) :
  String.append (String.append a b) c = String.append a (String.append b c).
Proof.
  induction a as [|x a IH]; [reflexivity|].
  change (String x (String.append (String.append a b) c)
          = String x (String.append a (String.append b c))).
  rewrite IH. reflexivity.
Qed.

Lemma taken_append t s' : Re.taken (String.append t s') s' = t.
Proof.
  unfold Re.taken. rewrite length_append.
  replace (String.length t + String.length s' - String.length s')%nat
    with (String.length t) by lia.
  induction t as [|x t IH]; simpl.
  - destruct s'; reflexivity.
  - rewrite IH. reflexivity.
Qed.

Lemma star_sound p :
  forall s prev cs k m,
    Re.star p prev s cs k = Some m ->
    exists t s' prev', s = String.append t s' /\ Py.all_chars p t = true
                       /\ k prev' s' cs = Some m.
Proof.
  induction s as [|x s IH]; intros prev cs k m H; simpl in H.
  - exists EmptyString, EmptyString, prev. auto.
  - destruct (p x) eqn:Hx.
    + destruct (Re.star p (Some x) s cs k) as [m'|] eqn:E.
      * injection H as ->. destruct (IH _ _ _ _ E) as (t & s' & prev' & -> & Ht & Hk).
        exists (String x t), s', prev'. simpl. rewrite Hx, Ht. auto.
      * exists EmptyString, (String x s), prev. auto.
    + exists EmptyString, (String x s), prev. auto.
Qed.

Lemma lazy_sound p :
  forall s prev cs k m,
    Re.lazy p prev s cs k = Some m ->
    exists t s' prev', s = String.append t s' /\ Py.all_chars p t = true
                       /\ k prev' s' cs = Some m.
Proof.
  induction s as [|x s IH]; intros prev cs k m H; simpl in H.
  - destruct (k prev EmptyString cs) eqn:E; [|discriminate].
    injection H as ->. exists EmptyString, EmptyString, prev. auto.
  - destruct (k prev (String x s) cs) eqn:E.
    + injection H as ->. exists EmptyString, (String x s), prev. auto.
    + destruct (p x) eqn:Hx; [|discriminate].
      destruct (IH _ _ _ _ H) as (t & s' & prev' & -> & Ht & Hk).
      exists (String x t), s', prev'. simpl. rewrite Hx, Ht. auto.
Qed.

Lemma exec_sound r :
  forall before prev s cs k m,
    before cs ->
    Re.exec r prev s cs k = Some m ->
    exists t s' prev' cs',
      s = String.append t s' /\ lang r t /\ groups_after r before cs'
      /\ k prev' s' cs' = Some m.
Proof.
  induction r as [|c|p|r1 IH1 r2 IH2|r1 IH1 r2 IH2|r1 IH1|p|p|p|n r1 IH1|];
    intros before prev s cs k m Hcs H; simpl in H.
  - exists EmptyString, s, prev, cs. simpl. auto.
  - destruct s as [|x s]; [discriminate|].
    destruct (Re.eq_nocase x c) eqn:E; [|discriminate].
    exists (String x EmptyString), s, (Some x), cs. simpl. eauto 6.
  - destruct s as [|x s]; [discriminate|].
    destruct (p x) eqn:E; [|discriminate].
    exists (String x EmptyString), s, (Some x), cs. simpl. eauto 6.
  - destruct (IH1 _ _ _ _ _ _ Hcs H) as (t1 & s1 & prev1 & cs1 & -> & L1 & G1 & K1).
    destruct (IH2 _ _ _ _ _ _ G1 K1) as (t2 & s2 & prev2 & cs2 & -> & L2 & G2 & K2).
    exists (String.append t1 t2), s2, prev2, cs2. rewrite append_assoc.
    simpl. eauto 10.
  - destruct (Re.exec r1 prev s cs k) as [m'|] eqn:E.
    + injection H as ->.
      destruct (IH1 _ _ _ _ _ _ Hcs E) as (t & s' & prev' & cs' & -> & L & G & K).
      exists t, s', prev', cs'. simpl. auto.
    + destruct (IH2 _ _ _ _ _ _ Hcs H) as (t & s' & prev' & cs' & -> & L & G & K).
      exists t, s', prev', cs'. simpl. auto.
  - destruct (Re.exec r1 prev s cs k) as [m'|] eqn:E.
    + injection H as ->.
      destruct (IH1 _ _ _ _ _ _ Hcs E) as (t & s' & prev' & cs' & -> & L & G & K).
      exists t, s', prev', cs'. simpl. auto.
    + exists EmptyString, s, prev, cs. simpl. auto.
  - destruct (star_sound _ _ _ _ _ _ H) as (t & s' & prev' & -> & Ht & Hk).
    exists t, s', prev', cs. simpl. auto.
  - destruct s as [|x s]; [discriminate|].
    destruct (p x) eqn:E; [|discriminate].
    destruct (star_sound _ _ _ _ _ _ H) as (t & s' & prev' & -> & Ht & Hk).
    exists (String x t), s', prev', cs. simpl. rewrite E, Ht. auto.
  - destruct (lazy_sound _ _ _ _ _ _ H) as (t & s' & prev' & -> & Ht & Hk).
    exists t, s', prev', cs. simpl. auto.
  - destruct (IH1 _ _ _ _ _ _ Hcs H) as (t & s' & prev' & cs' & -> & L & G & K).
    rewrite taken_append in K.
    exists t, s', prev', ((n, t) :: cs'). simpl. eauto 10.
  - destruct (Re.at_boundary prev s); [|discriminate].
    exists EmptyString, s, prev, cs. simpl. auto.
Qed.

(** The groups of a successful search. *)
Lemma search_groups r s m :
  Re.search r s = Some m -> groups_after r (fun cs => cs = []) m.
Proof.
  unfold Re.search. generalize (@None ascii) as prev.
  induction s as [|x s IH]; intros prev H; simpl in H.
  - destruct (Re.exec r prev EmptyString [] Re.accept) as [m'|] eqn:E; [|discriminate].
    injection H as ->.
    destruct (exec_sound r (fun cs => cs = []) _ _ _ _ _ eq_refl E)
      as (t & s' & prev' & cs' & _ & _ & G & K).
    injection K as ->. exact G.
  - destruct (Re.exec r prev (String x s) [] Re.accept) as [m'|] eqn:E.
    + injection H as ->.
      destruct (exec_sound r (fun cs => cs = []) _ _ _ _ _ eq_refl E)
        as (t & s' & prev' & cs' & _ & _ & G & K).
      injection K as ->. exact G.
    + exact (IH _ H).
Qed.

(** One or more hexadecimal digits, and one or more decimal digits. *)
Definition hexes (t : string) : Prop :=
  Py.nonempty t = true /\ Py.all_chars Py.ishex t = true.
Definition decimals (t : string) : Prop :=
  Py.nonempty t = true /\ Py.all_chars Py.isdecimal t = true.

(** The group [n] took part in the match [m], with a text that has [P]. *)
Definition has_group (m : Re.caps) (n : string) (P : string -> Prop) : Prop :=
  exists t, Re.get m n = Some t /\ P t.

Ltac open_groups H :=
  repeat (cbn [groups_after Re.seq Re.lit Re.number rsrp_tail rounds] in H;
          match type of H with
          | _ \/ _ => destruct H as [H|H]
          | exists _, _ =>
              let cs := fresh "cs" in
              let t := fresh "t" in
              let L := fresh "L" in
              destruct H as (cs & t & H & L & ->)
          | _ = [] => rewrite H
          end).

Ltac captured :=
  let H := fresh "H" in
  intros H; apply search_groups in H;
  unfold P_HEADER_SIMPLE, P_HEADER_OLD, P_CQI, P_DLSCH_OLD, P_DLSCH_SIMPLE,
    P_ULSCH_OLD, P_ULSCH_SIMPLE, P_DLSCH_BYTES, P_ULSCH_BYTES_RX, P_LCID in H;
  open_groups H;
  repeat split; (eexists; split; [reflexivity | assumption]).

Lemma groups_of_header_simple s m :
  Re.search P_HEADER_SIMPLE s = Some m -> has_group m "rnti" hexes.
Proof. captured. Qed.

Lemma groups_of_header_old s m :
  Re.search P_HEADER_OLD s = Some m -> has_group m "rnti" hexes.
Proof. captured. Qed.

Lemma groups_of_cqi s m :
  Re.search P_CQI s = Some m ->
  has_group m "rnti" hexes /\ has_group m "cqi" decimals
  /\ has_group m "ri" decimals.
Proof. captured. Qed.

Lemma groups_of_dlsch_simple s m :
  Re.search P_DLSCH_SIMPLE s = Some m ->
  has_group m "rnti" hexes /\ has_group m "a" decimals
  /\ has_group m "errors" decimals /\ has_group m "mcs" decimals.
Proof. captured. Qed.

Lemma groups_of_dlsch_old s m :
  Re.search P_DLSCH_OLD s = Some m ->
  has_group m "rnti" hexes /\ has_group m "a" decimals
  /\ has_group m "errors" decimals /\ has_group m "mcs" decimals.
Proof. captured. Qed.

Lemma groups_of_ulsch_simple s m :
  Re.search P_ULSCH_SIMPLE s = Some m ->
  has_group m "rnti" hexes /\ has_group m "a" decimals
  /\ has_group m "errors" decimals /\ has_group m "mcs" decimals.
Proof. captured. Qed.

Lemma groups_of_ulsch_old s m :
  Re.search P_ULSCH_OLD s = Some m ->
  has_group m "rnti" hexes /\ has_group m "a" decimals
  /\ has_group m "errors" decimals /\ has_group m "mcs" decimals.
Proof. captured. Qed.

Lemma groups_of_dlsch_bytes s m :
  Re.search P_DLSCH_BYTES s = Some m ->
  has_group m "rnti" hexes /\ has_group m "bytes" decimals.
Proof. captured. Qed.

Lemma groups_of_ulsch_bytes_rx s m :
  Re.search P_ULSCH_BYTES_RX s = Some m ->
  has_group m "rnti" hexes /\ has_group m "bytes" decimals.
Proof. captured. Qed.

Lemma groups_of_lcid s m :
  Re.search P_LCID s = Some m -> has_group m "rnti" hexes.
Proof. captured. Qed.

(** ** Reading numbers *)

(** The value of a hexadecimal digit. *)
Definition digit_value (c : ascii) : Z :=
  if Py.isdecimal c then Py.ord c - 48
  else if Py.between 97 102 c then Py.ord c - 97 + 10
  else Py.ord c - 65 + 10.

(** The number a string of digits writes in [base], most significant digit
    first. *)
Fixpoint number_from (base acc : Z) (t : string) : Z :=
  match t with
  | EmptyString => acc
  | String c t' => number_from base (acc * base + digit_value c) t'
  end.

Definition number (base : Z) (t : string) : Z := number_from base 0 t.

Ltac each_char c :=
  destruct c as [[] [] [] [] [] [] [] []].

Lemma hex_char c :
  Py.ishex c = true ->
  Py.isspace c = false
  /\ Ascii.eqb c "_" = false
  /\ Ascii.eqb "x" (Py.lower_char c) = false
  /\ Py.ishex (Py.lower_char c) = true
  /\ Py.digit 16 c = Some (digit_value c)
  /\ digit_value (Py.lower_char c) = digit_value c
  /\ Py.isdigit_char (Py.lower_char c) = Py.isdecimal c
  /\ Py.isdecimal (Py.lower_char c) = Py.isdecimal c
  /\ match c with "-"%char | "+"%char => False | _ => True end.
Proof.
  each_char c; intros H; try (vm_compute in H; discriminate H);
    vm_compute; repeat split.
Qed.

Lemma decimal_char c :
  Py.isdecimal c = true ->
  Py.ishex c = true /\ Py.lower_char c = c
  /\ Py.digit 10 c = Some (digit_value c).
Proof.
  each_char c; intros H; try (vm_compute in H; discriminate H);
    vm_compute; repeat split.
Qed.

Lemma all_chars_impl (P Q : ascii -> bool) t :
  (forall c, P c = true -> Q c = true) ->
  Py.all_chars P t = true -> Py.all_chars Q t = true.
Proof.
  intros H. induction t as [|c t IH]; simpl; [reflexivity|].
  intros E. apply andb_true_iff in E as [E1 E2].
  rewrite (H c E1), (IH E2). reflexivity.
Qed.

Lemma rstrip_id t :
  Py.all_chars (fun c => negb (Py.isspace c)) t = true -> Py.rstrip t = t.
Proof.
  induction t as [|c t IH]; simpl; [reflexivity|].
  intros E. apply andb_true_iff in E as [E1 E2]. rewrite (IH E2).
  apply negb_true_iff in E1. rewrite E1. destruct t; reflexivity.
Qed.

Lemma strip_id t :
  Py.all_chars (fun c => negb (Py.isspace c)) t = true -> Py.strip t = t.
Proof.
  intros E. unfold Py.strip.
  assert (L : Py.lstrip t = t).
  { destruct t as [|c t]; [reflexivity|]. simpl in *.
    apply andb_true_iff in E as [E1 _]. apply negb_true_iff in E1.
    rewrite E1. reflexivity. }
  rewrite L. apply rstrip_id. exact E.
Qed.

Lemma hexes_no_space t :
  Py.all_chars Py.ishex t = true ->
  Py.all_chars (fun c => negb (Py.isspace c)) t = true.
Proof.
  apply all_chars_impl. intros c H. destruct (hex_char c H) as (-> & _).
  reflexivity.
Qed.

Lemma lower_hexes t :
  Py.all_chars Py.ishex t = true -> Py.all_chars Py.ishex (Py.lower t) = true.
Proof.
  induction t as [|c t IH]; simpl; [reflexivity|].
  intros E. apply andb_true_iff in E as [E1 E2].
  destruct (hex_char c E1) as (_ & _ & _ & -> & _). rewrite (IH E2). reflexivity.
Qed.

Lemma lower_nonempty t : Py.nonempty (Py.lower t) = Py.nonempty t.
Proof. destruct t; reflexivity. Qed.

Lemma lower_decimals t :
  Py.all_chars Py.isdecimal t = true -> Py.lower t = t.
Proof.
  induction t as [|c t IH]; simpl; [reflexivity|].
  intros E. apply andb_true_iff in E as [E1 E2].
  destruct (decimal_char c E1) as (_ & -> & _). rewrite (IH E2). reflexivity.
Qed.

Lemma isdigit_lower_hexes t :
  Py.all_chars Py.ishex t = true ->
  Py.all_chars Py.isdigit_char (Py.lower t) = Py.all_chars Py.isdecimal t.
Proof.
  induction t as [|c t IH]; simpl; [reflexivity|].
  intros E. apply andb_true_iff in E as [E1 E2].
  destruct (hex_char c E1) as (_ & _ & _ & _ & _ & _ & -> & _).
  rewrite (IH E2). reflexivity.
Qed.

Lemma number_lower base t :
  Py.all_chars Py.ishex t = true ->
  forall acc, number_from base acc (Py.lower t) = number_from base acc t.
Proof.
  induction t as [|c t IH]; simpl; [reflexivity|].
  intros E acc. apply andb_true_iff in E as [E1 E2].
  destruct (hex_char c E1) as (_ & _ & _ & _ & _ & -> & _). apply IH, E2.
Qed.

(** No hexadecimal string starts with the prefix [0x]. *)
Lemma hexes_no_prefix t :
  Py.all_chars Py.ishex t = true -> Py.startswith (Py.lower t) "0x" = false.
Proof.
  destruct t as [|a [|b t]]; cbn [Py.lower Py.startswith Py.all_chars];
    try reflexivity.
  - intros _. apply andb_false_r.
  - intros E. apply andb_true_iff in E as [_ E].
    apply andb_true_iff in E as [E _].
    destruct (hex_char b E) as (_ & _ & -> & _).
    apply andb_false_r.
Qed.

Lemma int_tail_hex t :
  Py.all_chars Py.ishex t = true ->
  forall acc, Py.int_tail 16 acc t = Some (number_from 16 acc t).
Proof.
  induction t as [|c t IH]; simpl; [reflexivity|].
  intros E acc. apply andb_true_iff in E as [E1 E2].
  destruct (hex_char c E1) as (_ & -> & _ & _ & -> & _). apply IH, E2.
Qed.

Lemma int_tail_decimal t :
  Py.all_chars Py.isdecimal t = true ->
  forall acc, Py.int_tail 10 acc t = Some (number_from 10 acc t).
Proof.
  induction t as [|c t IH]; simpl; [reflexivity|].
  intros E acc. apply andb_true_iff in E as [E1 E2].
  destruct (decimal_char c E1) as (Hh & _ & ->).
  destruct (hex_char c Hh) as (_ & -> & _). apply IH, E2.
Qed.

Lemma decimals_hexes t :
  Py.all_chars Py.isdecimal t = true -> Py.all_chars Py.ishex t = true.
Proof. apply all_chars_impl. intros c H. apply decimal_char, H. Qed.

(** [int(t, 16)] on hexadecimal digits, and [int(t)] on decimal digits. *)
Lemma int_hexes t : hexes t -> Py.int 16 t = Some (number 16 t).
Proof.
  intros [Hne Hall]. unfold Py.int.
  rewrite (strip_id t (hexes_no_space t Hall)).
  destruct t as [|c t]; [discriminate|].
  pose proof (hexes_no_prefix _ Hall) as Hp.
  simpl in Hall. apply andb_true_iff in Hall as [Hc Ht].
  destruct (hex_char c Hc) as (_ & _ & _ & _ & Hd & _ & _ & _ & Hs).
  assert (E' : match String c t with
               | String "-" s' => (true, s')
               | String "+" s' => (false, s')
               | _ => (false, String c t)
               end = (false, String c t)).
  { each_char c; try reflexivity; contradiction. }
  rewrite E'. rewrite Hp. rewrite andb_false_r.
  unfold Py.int_body. rewrite Hd. unfold number. simpl number_from.
  rewrite (int_tail_hex t Ht). reflexivity.
Qed.

Lemma int_decimals t : decimals t -> Py.int 10 t = Some (number 10 t).
Proof.
  intros [Hne Hall]. unfold Py.int.
  rewrite (strip_id t (hexes_no_space t (decimals_hexes t Hall))).
  destruct t as [|c t]; [discriminate|].
  simpl in Hall. apply andb_true_iff in Hall as [Hc Ht].
  destruct (decimal_char c Hc) as (Hh & _ & Hd).
  destruct (hex_char c Hh) as (_ & _ & _ & _ & _ & _ & _ & _ & Hs).
  assert (E' : match String c t with
               | String "-" s' => (true, s')
               | String "+" s' => (false, s')
               | _ => (false, String c t)
               end = (false, String c t)).
  { each_char c; try reflexivity; contradiction. }
  rewrite E'. simpl andb. cbv iota.
  unfold Py.int_body. rewrite Hd. unfold number. simpl number_from.
  rewrite (int_tail_decimal t Ht). reflexivity.
Qed.


(** What [_parse_rnti] does once blanks and prefix are gone. *)
Lemma parse_hexes body :
  hexes body ->
  (if Py.isdigit (Py.lower body)
   then Py.int 10 (Py.lower body) else Py.int 16 (Py.lower body))
  = Some (if Py.all_chars Py.isdecimal body
          then number 10 body else number 16 body).
Proof.
  intros [Hne Hall]. unfold Py.isdigit.
  rewrite lower_nonempty, Hne, (isdigit_lower_hexes body Hall). simpl andb.
  destruct (Py.all_chars Py.isdecimal body) eqn:Hdec.
  - rewrite (lower_decimals body Hdec). apply int_decimals. split; assumption.
  - rewrite int_hexes.
    + unfold number. rewrite (number_lower 16 body Hall). reflexivity.
    + split; [rewrite lower_nonempty; exact Hne | apply lower_hexes, Hall].
Qed.

Lemma parse_rnti_value prefix body :
  hexes body ->
  prefix = EmptyString \/ prefix = "0x" \/ prefix = "0X" ->
  _parse_rnti (String.append prefix body)
  = Some (if Py.all_chars Py.isdecimal body
          then number 10 body else number 16 body).
Proof.
  intros Hb Hp. unfold _parse_rnti.
  pose proof Hb as [Hne Hall].
  pose proof (hexes_no_space body Hall) as Hsp.
  destruct Hp as [-> | [-> | ->]].
  - change (String.append EmptyString body) with body.
    rewrite (strip_id body Hsp), (hexes_no_prefix body Hall).
    apply parse_hexes, Hb.
  - change (String.append "0x" body) with (String "0" (String "x" body)).
    rewrite strip_id by (cbn [Py.all_chars]; rewrite Hsp; reflexivity).
    change (Py.lower (String "0" (String "x" body)))
      with (String "0" (String "x" (Py.lower body))).
    change (Py.startswith (String "0" (String "x" (Py.lower body))) "0x")
      with true.
    cbv iota. change (Py.drop 2 (String "0" (String "x" (Py.lower body))))
      with (Py.lower body).
    apply parse_hexes, Hb.
  - change (String.append "0X" body) with (String "0" (String "X" body)).
    rewrite strip_id by (cbn [Py.all_chars]; rewrite Hsp; reflexivity).
    change (Py.lower (String "0" (String "X" body)))
      with (String "0" (String "x" (Py.lower body))).
    change (Py.startswith (String "0" (String "x" (Py.lower body))) "0x")
      with true.
    cbv iota. change (Py.drop 2 (String "0" (String "x" (Py.lower body))))
      with (Py.lower body).
    apply parse_hexes, Hb.
Qed.



(** After the prefix, decimal digits are read in base 10: [0x64] is 64. *)
Example prefixed_decimal_digits : _parse_rnti "0x64" = Some 64.
Proof. reflexivity. Qed.

Lemma parse_rnti_total t : hexes t -> exists z, _parse_rnti t = Some z.
Proof.
  intros H. eexists.
  exact (parse_rnti_value EmptyString t H (or_introl eq_refl)).
Qed.

(** ** The classification of a line *)

(** What a line is, by the first pattern that matches it, in the order
    [process_line] tries the patterns; a matched line comes with its
    groups. *)
Inductive Event : Type :=
| Blank
| Bracketed
| Header (m : Re.caps)
| Cqi (m : Re.caps)
| Dlsch (m : Re.caps)
| Ulsch (m : Re.caps)
| DlBytes (m : Re.caps)
| UlBytes (m : Re.caps)
| Lcid (m : Re.caps)
| Unmatched.

Definition classify (line : string) : Event :=
  let s := Py.strip line in
  if negb (Py.nonempty s) then Blank
  else if Py.startswith s "[" then Bracketed
  else
    match or_match (Re.search P_HEADER_SIMPLE s) (Re.search P_HEADER_OLD s) with
    | Some m => Header m
    | None =>
    match Re.search P_CQI s with
    | Some m => Cqi m
    | None =>
    match or_match (Re.search P_DLSCH_SIMPLE s) (Re.search P_DLSCH_OLD s) with
    | Some m => Dlsch m
    | None =>
    match or_match (Re.search P_ULSCH_SIMPLE s) (Re.search P_ULSCH_OLD s) with
    | Some m => Ulsch m
    | None =>
    match Re.search P_DLSCH_BYTES s with
    | Some m => DlBytes m
    | None =>
    match Re.search P_ULSCH_BYTES_RX s with
    | Some m => UlBytes m
    | None =>
    match Re.search P_LCID s with
    | Some m => Lcid m
    | None => Unmatched
    end end end end end end end.

(** What [process_line] does with a classified line, after it has counted
    the line. *)
Definition handle (env : Env) (cfg : Config) (fuel : nat) (e : Event)
    : M World unit :=
  match e with
  | Blank | Unmatched => ret tt
  | Bracketed => _maybe_post_flush env cfg fuel false
  | Header m => header_line m ;; _maybe_post_flush env cfg fuel false
  | Cqi m => cqi_line m ;; _maybe_post_flush env cfg fuel false
  | Dlsch m => dlsch_line m ;; _maybe_post_flush env cfg fuel false
  | Ulsch m => ulsch_line m ;; _maybe_post_flush env cfg fuel false
  | DlBytes m => dl_bytes_line env m ;; _maybe_post_flush env cfg fuel false
  | UlBytes m => ul_bytes_line env cfg m ;; _maybe_post_flush env cfg fuel false
  | Lcid m => lcid_line env cfg m ;; _maybe_post_flush env cfg fuel false
  end.

(** [process_line] is the dispatch on the classification. *)
Lemma process_line_classify env cfg fuel line :
  process_line env cfg fuel line
  = (incr "lines" 1 ;; handle env cfg fuel (classify line)).
Proof.
  unfold process_line, classify. f_equal.
  destruct (negb _); [reflexivity|].
  destruct (Py.startswith _ _); [reflexivity|].
  repeat match goal with
         | |- context [match ?x with Some _ => _ | None => _ end] =>
             destruct x; [reflexivity|]
         end.
  reflexivity.
Qed.

(** The text of the RNTI in a classified line. *)
Definition event_groups (e : Event) : option Re.caps :=
  match e with
  | Header m | Cqi m | Dlsch m | Ulsch m | DlBytes m | UlBytes m | Lcid m =>
      Some m
  | Blank | Bracketed | Unmatched => None
  end.

Lemma or_match_some a b m :
  or_match a b = Some m -> a = Some m \/ b = Some m.
Proof. destruct a; simpl; auto. Qed.

(** Every matched line carries an RNTI that parses. *)
Lemma classified_rnti line m :
  event_groups (classify line) = Some m -> has_group m "rnti" hexes.
Proof.
  intros H. unfold classify in H.
  destruct (negb _); [discriminate H|].
  destruct (Py.startswith _ _); [discriminate H|].
  destruct (or_match (Re.search P_HEADER_SIMPLE _) _) eqn:E1.
  { injection H as ->. apply or_match_some in E1 as [E|E];
      [eapply groups_of_header_simple | eapply groups_of_header_old]; exact E. }
  destruct (Re.search P_CQI _) eqn:E2.
  { injection H as ->. eapply groups_of_cqi; exact E2. }
  destruct (or_match (Re.search P_DLSCH_SIMPLE _) _) eqn:E3.
  { injection H as ->. apply or_match_some in E3 as [E|E];
      [eapply groups_of_dlsch_simple | eapply groups_of_dlsch_old]; exact E. }
  destruct (or_match (Re.search P_ULSCH_SIMPLE _) _) eqn:E4.
  { injection H as ->. apply or_match_some in E4 as [E|E];
      [eapply groups_of_ulsch_simple | eapply groups_of_ulsch_old]; exact E. }
  destruct (Re.search P_DLSCH_BYTES _) eqn:E5.
  { injection H as ->. eapply groups_of_dlsch_bytes; exact E5. }
  destruct (Re.search P_ULSCH_BYTES_RX _) eqn:E6.
  { injection H as ->. eapply groups_of_ulsch_bytes_rx; exact E6. }
  destruct (Re.search P_LCID _) eqn:E7.
  { injection H as ->. eapply groups_of_lcid; exact E7. }
  discriminate H.
Qed.


Lemma classified_bytes line m :
  classify line = UlBytes m -> has_group m "bytes" decimals.
Proof.
  intros H. unfold classify in H.
  destruct (negb _); [discriminate|].
  destruct (Py.startswith _ _); [discriminate|].
  destruct (or_match (Re.search P_HEADER_SIMPLE _) _); [discriminate|].
  destruct (Re.search P_CQI _); [discriminate|].
  destruct (or_match (Re.search P_DLSCH_SIMPLE _) _); [discriminate|].
  destruct (or_match (Re.search P_ULSCH_SIMPLE _) _); [discriminate|].
  destruct (Re.search P_DLSCH_BYTES _); [discriminate|].
  destruct (Re.search P_ULSCH_BYTES_RX _) eqn:E6.
  { injection H as ->. eapply groups_of_ulsch_bytes_rx; exact E6. }
  destruct (Re.search P_LCID _); discriminate.
Qed.

(** [m.group(n)] of a group that took part. *)
Lemma group_of m n P : has_group m n P -> P (Re.group m n).
Proof. intros (t & E & Ht). unfold Re.group. rewrite E. exact Ht. Qed.

(** ** The device table *)

(** [int()] can read the number. *)
Definition convertible (n : num) : Prop :=
  exists z, Py.int_of_num (or0n n) = inr z.

(** The aggregate stored under [key] is the one of the device [key], and
    its two bitrates can go into a snapshot. *)
Definition wf_ue (key : Z) (u : UEState) : Prop :=
  ue_rnti u = key
  /\ convertible (dl_bitrate (ue_dl u))
  /\ convertible (ul_bitrate (ue_ul u)).

Definition wf_world (w : World) : Prop :=
  forall key u, state w !! key = Some u -> wf_ue key u.

(** The device [id] has an aggregate. *)
Definition tracked (id : Z) (w : World) : Prop := is_Some (state w !! id).

Lemma wf_init id : wf_ue id (_init_ue id).
Proof. repeat split; eexists; reflexivity. Qed.

Lemma wf_initial : wf_world initial.
Proof. intros key u H. simpl in H. rewrite lookup_empty in H. discriminate. Qed.

Lemma wf_lookup w id : wf_world w -> wf_ue id (ue id w).
Proof.
  intros H. unfold ue. destruct (state w !! id) eqn:E; [apply H, E | apply wf_init].
Qed.

Lemma wf_record id u :
  wf_ue id u -> exists r, ue_record u = inr r /\ rnti r = id.
Proof.
  intros (Hid & (a & Ha) & (b & Hb)). unfold ue_record. rewrite Ha, Hb.
  eexists. split; [reflexivity | exact Hid].
Qed.

Lemma wf_insert w id u :
  wf_world w -> wf_ue id u ->
  wf_world (set_state (<[id := u]> (state w)) w).
Proof.
  intros Hw Hu key v. simpl. rewrite lookup_insert.
  destruct (decide (id = key)) as [->|]; [|apply Hw].
  intros E. injection E as <-. exact Hu.
Qed.

Lemma tracked_insert w id key u :
  tracked key w -> tracked key (set_state (<[id := u]> (state w)) w).
Proof.
  unfold tracked. simpl. rewrite lookup_insert.
  destruct (decide (id = key)); [eauto | auto].
Qed.

Lemma preserves_state {A} (I : World -> Prop) (c : M World A) :
  (forall w w', state w' = state w -> I w -> I w') ->
  keeps state c -> preserves I c.
Proof. intros HI Hc w Hw. apply (HI w); [apply Hc | exact Hw]. Qed.

Lemma wf_by_state w w' : state w' = state w -> wf_world w -> wf_world w'.
Proof. unfold wf_world. intros ->. auto. Qed.

Lemma tracked_by_state id w w' : state w' = state w -> tracked id w -> tracked id w'.
Proof. unfold tracked. intros ->. auto. Qed.

Lemma get_ue_result id w :
  exists w', _get_ue id w = Ok id w'
             /\ tracked id w'
             /\ (wf_world w -> wf_world w')
             /\ (forall key, tracked key w -> tracked key w')
             /\ _counts w' = _counts w /\ _buffer w' = _buffer w
             /\ _last_post_ms w' = _last_post_ms w
             /\ out_lines w' = out_lines w /\ csv_rows w' = csv_rows w
             /\ ticks w' = ticks w.
Proof.
  unfold _get_ue. destruct (state w !! id) eqn:E.
  - exists w. unfold tracked. rewrite E.
    split; [reflexivity|]. split; [eexists; reflexivity|].
    split; [auto|]. split; [auto|]. repeat split.
  - eexists. split; [reflexivity|]. split; [|split; [|split]].
    + unfold tracked. simpl. rewrite lookup_insert_eq. eauto.
    + intros Hw. apply wf_insert; [exact Hw | apply wf_init].
    + intros key. apply tracked_insert.
    + repeat split.
Qed.

Lemma preserves_wf_at_ue {A} ref (c : M UEState A) :
  (forall u, wf_ue ref u -> wf_ue ref (final (c u))) ->
  preserves wf_world (at_ue ref c).
Proof.
  intros Hc w Hw. unfold at_ue, zoom.
  pose proof (Hc _ (wf_lookup w ref Hw)) as Hu.
  destruct (c (ue ref w)); simpl in *; apply wf_insert; assumption.
Qed.

Lemma preserves_tracked_at_ue {A} key ref (c : M UEState A) :
  preserves (tracked key) (at_ue ref c).
Proof.
  intros w Hw. unfold at_ue, zoom.
  destruct (c (ue ref w)); simpl; apply tracked_insert; exact Hw.
Qed.

Lemma update_pkt_stats_dl (d : Dl) :
  let d' := final (_update_pkt_stats d) in
  dl_bitrate d' = dl_bitrate d
  /\ dl_a d' = dl_a d /\ dl_errors d' = dl_errors d
  /\ dl_packets_ok d' = Z.max 0 (dl_a d - dl_errors d)
  /\ dl_packets_nok d' = dl_errors d
  /\ (dl_a d <= 0 -> dl_drop_rate d' = zero)
  /\ (0 < dl_a d -> forall q, Py.truediv (dl_errors d) (dl_a d) = Some q ->
        dl_drop_rate d' = Py.fmul q (Py.of_Z 100)).
Proof.
  unfold _update_pkt_stats, bind, gets, modify, ret, orraise, raise. simpl.
  destruct (Z.ltb_spec 0 (dl_a d)).
  - destruct (Py.truediv (dl_errors d) (dl_a d)) as [q|]; simpl;
      repeat split; try lia; try congruence.
  - simpl. repeat split; try lia.
Qed.

Lemma update_pkt_stats_ul (d : Ul) :
  let d' := final (_update_pkt_stats d) in
  ul_bitrate d' = ul_bitrate d
  /\ ul_a d' = ul_a d /\ ul_errors d' = ul_errors d
  /\ ul_packets_ok d' = Z.max 0 (ul_a d - ul_errors d)
  /\ ul_packets_nok d' = ul_errors d
  /\ (ul_a d <= 0 -> ul_drop_rate d' = zero)
  /\ (0 < ul_a d -> forall q, Py.truediv (ul_errors d) (ul_a d) = Some q ->
        ul_drop_rate d' = Py.fmul q (Py.of_Z 100)).
Proof.
  unfold _update_pkt_stats, bind, gets, modify, ret, orraise, raise. simpl.
  destruct (Z.ltb_spec 0 (ul_a d)).
  - destruct (Py.truediv (ul_errors d) (ul_a d)) as [q|]; simpl;
      repeat split; try lia; try congruence.
  - simpl. repeat split; try lia.
Qed.

Lemma convertible_bps : convertible (Py.Flt (Py.of_Z 4000000)).
Proof. eexists. reflexivity. Qed.

Lemma preserves_wf_ue_assign ref f :
  (forall u, ue_rnti (f u) = ue_rnti u /\ ue_dl (f u) = ue_dl u
             /\ ue_ul (f u) = ue_ul u) ->
  preserves wf_world (ue_assign ref f).
Proof.
  intros Hf. apply preserves_wf_at_ue. intros u (H1 & H2 & H3).
  destruct (Hf u) as (E1 & E2 & E3). unfold wf_ue, modify. simpl.
  rewrite E1, E2, E3. auto.
Qed.

Lemma preserves_wf_dl_assign ref f :
  (forall d, convertible (dl_bitrate d) -> convertible (dl_bitrate (f d))) ->
  preserves wf_world (dl_assign ref f).
Proof.
  intros Hf. apply preserves_wf_at_ue. intros u (H1 & H2 & H3).
  unfold wf_ue, at_dl, zoom, modify. simpl. auto.
Qed.

Lemma preserves_wf_ul_assign ref f :
  (forall d, convertible (ul_bitrate d) -> convertible (ul_bitrate (f d))) ->
  preserves wf_world (ul_assign ref f).
Proof.
  intros Hf. apply preserves_wf_at_ue. intros u (H1 & H2 & H3).
  unfold wf_ue, at_ul, zoom, modify. simpl. auto.
Qed.

Lemma preserves_wf_update_dl ref :
  preserves wf_world (at_ue ref (at_dl _update_pkt_stats)).
Proof.
  apply preserves_wf_at_ue. intros u (H1 & H2 & H3).
  destruct (update_pkt_stats_dl (ue_dl u)) as (E & _).
  unfold wf_ue, at_dl, zoom.
  destruct (_update_pkt_stats (ue_dl u)); simpl in *; rewrite E; auto.
Qed.

Lemma preserves_wf_update_ul ref :
  preserves wf_world (at_ue ref (at_ul _update_pkt_stats)).
Proof.
  apply preserves_wf_at_ue. intros u (H1 & H2 & H3).
  destruct (update_pkt_stats_ul (ue_ul u)) as (E & _).
  unfold wf_ue, at_ul, zoom.
  destruct (_update_pkt_stats (ue_ul u)); simpl in *; rewrite E; auto.
Qed.

Lemma preserves_get_ue (I : World -> Prop) id :
  (forall w, I w -> forall w', _get_ue id w = Ok id w' -> I w') ->
  preserves I (_get_ue id).
Proof.
  intros H w Hw. destruct (get_ue_result id w) as (w' & E & _).
  rewrite E. simpl. eapply H; eauto.
Qed.

Lemma preserves_wf_get_ue id : preserves wf_world (_get_ue id).
Proof.
  intros w Hw. destruct (get_ue_result id w) as (w' & E & _ & H & _).
  rewrite E. simpl. auto.
Qed.

Lemma preserves_tracked_get_ue key id : preserves (tracked key) (_get_ue id).
Proof.
  intros w Hw. destruct (get_ue_result id w) as (w' & E & _ & _ & H & _).
  rewrite E. simpl. auto.
Qed.

(** Steps that keep the device table keep both invariants. *)
Lemma keeps_state_wf {A} (c : M World A) :
  keeps state c -> preserves wf_world c.
Proof. apply preserves_state. exact wf_by_state. Qed.

Lemma keeps_state_tracked {A} key (c : M World A) :
  keeps state c -> preserves (tracked key) c.
Proof. apply preserves_state. apply tracked_by_state. Qed.

Ltac invariant :=
  repeat first
    [ progress intros
    | match goal with
      | |- preserves _ (bind _ _) => apply preserves_bind
      | |- preserves _ (match ?x with _ => _ end) => destruct x
      | |- preserves _ (if ?x then _ else _) => destruct x
      | |- preserves wf_world (_get_ue _) => apply preserves_wf_get_ue
      | |- preserves (tracked _) (_get_ue _) => apply preserves_tracked_get_ue
      | |- preserves (tracked _) (at_ue _ _) => apply preserves_tracked_at_ue
      | |- preserves wf_world (at_ue _ (at_dl _update_pkt_stats)) =>
          apply preserves_wf_update_dl
      | |- preserves wf_world (at_ue _ (at_ul _update_pkt_stats)) =>
          apply preserves_wf_update_ul
      | |- preserves wf_world (ue_assign _ _) =>
          apply preserves_wf_ue_assign; intros; repeat split
      | |- preserves wf_world (dl_assign _ _) =>
          apply preserves_wf_dl_assign; intros;
          solve [assumption | apply convertible_bps]
      | |- preserves wf_world (ul_assign _ _) =>
          apply preserves_wf_ul_assign; intros;
          solve [assumption | apply convertible_bps]
      | |- preserves wf_world (_emit_snapshot _ _ _ _) =>
          apply keeps_state_wf, keeps_emit; repeat split
      | |- preserves (tracked _) (_emit_snapshot _ _ _ _) =>
          apply keeps_state_tracked, keeps_emit; repeat split
      | |- preserves wf_world _ =>
          apply keeps_state_wf;
          solve [frame; first [apply keeps_incr | apply keeps_now_ms
                              | apply keeps_emit; repeat split
                              | apply keeps_flush; repeat split]; reflexivity]
      | |- preserves (tracked _) _ =>
          apply keeps_state_tracked;
          solve [frame; first [apply keeps_incr | apply keeps_now_ms
                              | apply keeps_emit; repeat split
                              | apply keeps_flush; repeat split]; reflexivity]
      end ].

Lemma lines_preserve_wf env cfg m :
  preserves wf_world (header_line m) /\ preserves wf_world (cqi_line m)
  /\ preserves wf_world (dlsch_line m) /\ preserves wf_world (ulsch_line m)
  /\ preserves wf_world (dl_bytes_line env m)
  /\ preserves wf_world (ul_bytes_line env cfg m)
  /\ preserves wf_world (lcid_line env cfg m).
Proof.
  unfold header_line, cqi_line, dlsch_line, ulsch_line, dl_bytes_line,
    ul_bytes_line, lcid_line, bps, int10, float_.
  repeat match goal with |- _ /\ _ => split end; invariant.
Qed.

Lemma lines_preserve_tracked env cfg key m :
  preserves (tracked key) (header_line m)
  /\ preserves (tracked key) (cqi_line m)
  /\ preserves (tracked key) (dlsch_line m)
  /\ preserves (tracked key) (ulsch_line m)
  /\ preserves (tracked key) (dl_bytes_line env m)
  /\ preserves (tracked key) (ul_bytes_line env cfg m)
  /\ preserves (tracked key) (lcid_line env cfg m).
Proof.
  unfold header_line, cqi_line, dlsch_line, ulsch_line, dl_bytes_line,
    ul_bytes_line, lcid_line, bps, int10, float_, ue_assign, dl_assign,
    ul_assign.
  repeat match goal with |- _ /\ _ => split end; invariant.
Qed.

(** Processing a line keeps the device table well formed, and never drops a
    device. *)
Lemma process_line_wf env cfg fuel line :
  preserves wf_world (process_line env cfg fuel line).
Proof.
  apply preserves_process_line;
    try (intros m; apply (lines_preserve_wf env cfg m));
    apply keeps_state_wf;
    [apply keeps_incr; reflexivity | apply keeps_flush; repeat split].
Qed.

Lemma process_line_tracked env cfg fuel line key :
  preserves (tracked key) (process_line env cfg fuel line).
Proof.
  apply preserves_process_line;
    try (intros m; apply (lines_preserve_tracked env cfg key m));
    apply keeps_state_tracked;
    [apply keeps_incr; reflexivity | apply keeps_flush; repeat split].
Qed.

(** ** The branches of [process_line] *)

Lemma bind_ok {S A B} (c : M S A) (k : A -> M S B) w a w1 :
  c w = Ok a w1 -> bind c k w = k a w1.
Proof. intros H. unfold bind. rewrite H. reflexivity. Qed.

Lemma final_bind_keeps {A B C} (f : World -> C) (c : M World A)
    (k : A -> M World B) w :
  (forall a, keeps f (k a)) -> f (final (bind c k w)) = f (final (c w)).
Proof.
  intros Hk. unfold bind. destruct (c w) as [a w1| |]; try reflexivity.
  apply Hk.
Qed.

(** The world with [u] stored under [id]. *)
Definition put (id : Z) (u : UEState) (w : World) : World :=
  set_state (<[id := u]> (state w)) w.

Lemma ue_put id u w : ue id (put id u w) = u.
Proof. unfold ue, put. simpl. rewrite lookup_insert_eq. reflexivity. Qed.

Lemma ue_by_state id w w' : state w' = state w -> ue id w' = ue id w.
Proof. unfold ue. intros ->. reflexivity. Qed.




(** *** The two branches that emit *)

(** [lcid_line] and [ul_bytes_line] up to the emission; the result is the
    reference to the device. *)
Definition lcid_update (m : Re.caps) : M World Z :=
  rnti <- orraise Py.ValueError (_parse_rnti (Re.group m "rnti")) ;;
  ref <- _get_ue rnti ;;
  incr "lcid" 1 ;;
  ret ref.

Definition ul_bytes_update (env : Env) (m : Re.caps) : M World Z :=
  rnti <- orraise Py.ValueError (_parse_rnti (Re.group m "rnti")) ;;
  ref <- _get_ue rnti ;;
  cur_t_ms <- _now_ms env ;;
  total_bytes_rx <- int10 (Re.group m "bytes") ;;
  ul_assign ref (set_ul_bitrate (Py.Flt (Py.of_Z 4000000))) ;;
  ul_assign ref (set_ul_total_bytes_rx total_bytes_rx) ;;
  ul_assign ref (set_ul_last_total_bytes_rx (Some total_bytes_rx)) ;;
  ul_assign ref (set_ul_last_t_ms (Some cur_t_ms)) ;;
  incr "ul_bytes" 1 ;;
  ret ref.

Definition emit_for (env : Env) (cfg : Config) (reason : string) (ref : Z)
    : M World unit :=
  u <- gets (ue ref) ;; _emit_snapshot env cfg u reason.

Lemma lcid_line_split env cfg m w :
  lcid_line env cfg m w
  = (ref <- lcid_update m ;; emit_for env cfg "lcid_fallback" ref) w.
Proof.
  unfold lcid_line, lcid_update, emit_for, bind, orraise.
  destruct (_parse_rnti _); [|reflexivity]. simpl.
  unfold _get_ue. destruct (state w !! _); reflexivity.
Qed.

Lemma ul_bytes_line_split env cfg m w :
  ul_bytes_line env cfg m w
  = (ref <- ul_bytes_update env m ;; emit_for env cfg "ul_bytes_rx" ref) w.
Proof.
  unfold ul_bytes_line, ul_bytes_update, emit_for, bind, orraise, int10, bps.
  destruct (_parse_rnti _); [|reflexivity]. simpl.
  unfold _get_ue, orraise.
  destruct (state w !! _); simpl; destruct (Py.int 10 _); reflexivity.
Qed.

Lemma lcid_update_ok m id w :
  _parse_rnti (Re.group m "rnti") = Some id ->
  exists w1, lcid_update m w = Ok id w1.
Proof.
  intros Hp. unfold lcid_update. rewrite Hp.
  rewrite (bind_ok _ _ w id w eq_refl).
  destruct (get_ue_result id w) as (w1 & E & _).
  rewrite (bind_ok _ _ w id w1 E). eexists. reflexivity.
Qed.

Lemma ul_bytes_update_ok env m id n w :
  _parse_rnti (Re.group m "rnti") = Some id ->
  Py.int 10 (Re.group m "bytes") = Some n ->
  exists w1, ul_bytes_update env m w = Ok id w1.
Proof.
  intros Hp Hn. unfold ul_bytes_update, int10. rewrite Hp, Hn.
  rewrite (bind_ok _ _ w id w eq_refl).
  destruct (get_ue_result id w) as (w1 & E & _).
  rewrite (bind_ok _ _ w id w1 E). eexists. reflexivity.
Qed.

(** The part of the world an emission shows in: the two sinks and the
    delivery buffer. *)
Definition outputs (w : World) : list Snapshot * list Row * list Snapshot :=
  (out_lines w, csv_rows w, _buffer w).

Lemma outputs_beyond_updates : beyond_updates outputs.
Proof. repeat split. Qed.

Lemma updates_quiet env m :
  keeps outputs (lcid_update m) /\ keeps outputs (ul_bytes_update env m)
  /\ preserves wf_world (lcid_update m)
  /\ preserves wf_world (ul_bytes_update env m).
Proof.
  unfold lcid_update, ul_bytes_update, int10.
  repeat match goal with |- _ /\ _ => split end.
  - frame; first [apply keeps_incr | apply keeps_get_ue]; reflexivity.
  - unfold ul_assign.
    frame; first [apply keeps_incr | apply keeps_get_ue | apply keeps_now_ms
                 | apply keeps_at_ue]; reflexivity.
  - invariant.
  - invariant.
Qed.

(** An emitting branch that gets as far as the emission returns, and its
    effect is the emission of the record of the device it looked up. *)
Lemma emitting_line env cfg reason (update : M World Z)
    (line : M World unit) id w :
  (forall w, line w = (ref <- update ;; emit_for env cfg reason ref) w) ->
  (exists w1, update w = Ok id w1) ->
  keeps outputs update -> preserves wf_world update ->
  wf_world w ->
  exists w1 r,
    line w = Ok tt (emitted env cfg r w1)
    /\ ue_record (ue id w1) = inr r /\ rnti r = id
    /\ outputs w1 = outputs w /\ wf_world w1.
Proof.
  intros Hsplit (w1 & E) Hk Hp Hw.
  pose proof (Hk w) as Hout. pose proof (Hp w Hw) as Hwf.
  rewrite E in Hout, Hwf. simpl in Hout, Hwf.
  destruct (wf_record id _ (wf_lookup w1 id Hwf)) as (r & Hr & Hid).
  exists w1, r. rewrite Hsplit, (bind_ok _ _ w id w1 E).
  unfold emit_for. rewrite (bind_ok (gets (ue id)) _ w1 (ue id w1) w1 eq_refl).
  rewrite emit_snapshot_result, Hr. auto.
Qed.

(** *** The two schedule reports *)

Lemma dl_assign_result id f w :
  dl_assign id f w = Ok tt (put id (set_ue_dl (f (ue_dl (ue id w))) (ue id w)) w).
Proof. reflexivity. Qed.


Lemma ue_after_get_ue id w w1 : _get_ue id w = Ok id w1 -> ue id w1 = ue id w.
Proof.
  unfold _get_ue, ue. destruct (state w !! id) eqn:E; intros H; injection H as <-.
  - rewrite E. reflexivity.
  - simpl. rewrite lookup_insert_eq. reflexivity.
Qed.

Lemma keeps_ue_incr id key n : keeps (ue id) (incr key n).
Proof. intros w. reflexivity. Qed.



(** ** Processing a line *)

(** The world once the line is counted. *)
Definition counted (w : World) : World :=
  set_counts (<["lines" := (_counts w !!! "lines") + 1]> (_counts w)) w.

Lemma process_line_handle env cfg fuel line w :
  process_line env cfg fuel line w
  = handle env cfg fuel (classify line) (counted w).
Proof. rewrite process_line_classify. reflexivity. Qed.


(** The events on which a snapshot is emitted. *)
Definition emits (e : Event) : bool :=
  match e with UlBytes _ | Lcid _ => true | _ => false end.

Lemma out_lines_beyond_delivery : beyond_delivery out_lines.
Proof. repeat split. Qed.
Lemma state_beyond_delivery : beyond_delivery state.
Proof. repeat split. Qed.

Lemma keeps_handle_sinks {B} (f : World -> B) env cfg fuel e :
  beyond_updates f -> beyond_delivery f ->
  emits e = false -> keeps f (handle env cfg fuel e).
Proof.
  intros Hu Hd. pose proof (keeps_flush f env cfg fuel false Hd) as Hf.
  destruct e; try discriminate; intros _; simpl;
    try apply keeps_ret; try exact Hf;
    (apply keeps_bind; [|intros; exact Hf]).
  - apply (keeps_lines f m Hu).
  - apply (keeps_lines f m Hu).
  - apply (keeps_lines f m Hu).
  - apply (keeps_lines f m Hu).
  - apply keeps_dl_bytes_line, Hu.
Qed.

(** What an emitting line leaves behind. *)
Lemma handle_emits env cfg fuel line w m :
  wf_world w ->
  classify line = UlBytes m \/ classify line = Lcid m ->
  exists id r w1,
    _parse_rnti (Re.group m "rnti") = Some id
    /\ rnti r = id
    /\ ue_record (ue id w1) = inr r
    /\ outputs w1 = outputs w
    /\ final (process_line env cfg fuel line w)
       = final (_maybe_post_flush env cfg fuel false (emitted env cfg r w1)).
Proof.
  intros Hw Hc.
  assert (Hg : event_groups (classify line) = Some m)
    by (destruct Hc as [-> | ->]; reflexivity).
  destruct (parse_rnti_total _ (group_of _ _ _ (classified_rnti line m Hg)))
    as (id & Hp).
  assert (Hw0 : wf_world (counted w)) by exact Hw.
  destruct (updates_quiet env m) as (K1 & K2 & P1 & P2).
  rewrite process_line_handle.
  destruct Hc as [Hc | Hc]; rewrite Hc; simpl handle.
  - pose proof (int_decimals _ (group_of _ _ _ (classified_bytes line m Hc)))
      as Hn.
    destruct (emitting_line env cfg "ul_bytes_rx" (ul_bytes_update env m)
                (ul_bytes_line env cfg m) id (counted w)
                (ul_bytes_line_split env cfg m)
                (ul_bytes_update_ok env m id _ (counted w) Hp Hn) K2 P2 Hw0)
      as (w1 & r & E & Hr & Hid & Ho & _).
    exists id, r, w1. rewrite (bind_ok _ _ _ _ _ E). auto.
  - destruct (emitting_line env cfg "lcid_fallback" (lcid_update m)
                (lcid_line env cfg m) id (counted w)
                (lcid_line_split env cfg m)
                (lcid_update_ok m id (counted w) Hp) K1 P1 Hw0)
      as (w1 & r & E & Hr & Hid & Ho & _).
    exists id, r, w1. rewrite (bind_ok _ _ _ _ _ E). auto.
Qed.






(** ** The scenario of the specification *)

Definition line_header : string :=
  "UE RNTI 64 ... PH 10 dB PCMAX 23 dBm, average RSRP -80".
Definition line_cqi : string := "UE 64: CQI 10, RI 2, PMI ...".
Definition line_dlsch : string :=
  "UE 64: dlsch_rounds 100/0/0/0, dlsch_errors 5, pucch0_DTX 0, BLER 0.05 MCS 10".
Definition line_ul_bytes : string := "UE 64: ulsch_total_bytes_received 2048".
Definition line_lcid : string := "UE 64: LCID 4: 1024 bytes TX".

Definition scenario : list string :=
  [line_header; line_cqi; line_dlsch; line_ul_bytes].

(** The world after the lines [lines] were processed one after the other. *)
Definition after (env : Env) (cfg : Config) (fuel : nat) (lines : list string)
    (w : World) : World :=
  fold_left (fun w line => final (process_line env cfg fuel line w)) lines w.

Lemma after_nil env cfg fuel w : after env cfg fuel [] w = w.
Proof. reflexivity. Qed.

Lemma after_cons env cfg fuel line lines w :
  after env cfg fuel (line :: lines) w
  = after env cfg fuel lines (final (process_line env cfg fuel line w)).
Proof. reflexivity. Qed.

(** A clock that counts its readings, and a server that accepts. *)
Definition env0 : Env :=
  {| clock := fun n => Z.of_nat n;
     server := fun _ _ => Response 200;
     urljoin := fun _ loc => loc |}.

(** The record of [u], when it can be built. *)
Definition emitted_record (u : UEState) : UeRecord :=
  match ue_record u with
  | inr r => r
  | inl _ => mkUeRecord 0 0 (mkDownlink 0 0 0 0 0 0 zero 0)
               (mkUplink zero zero 0 0 0 0 0 zero 0 0 zero)
  end.

(** The groups of the lines of the scenario. *)
Definition groups_of (line : string) : Re.caps :=
  match event_groups (classify line) with Some m => m | None => [] end.

Definition m_ul_bytes : Re.caps := Eval vm_compute in groups_of line_ul_bytes.

(** The worlds after the first, second and third line. *)
Definition world1 : World :=
  Eval vm_compute in after env0 default_config 0 [line_header] initial.
Definition world2 : World :=
  Eval vm_compute in after env0 default_config 0 [line_cqi] world1.
Definition world3 : World :=
  Eval vm_compute in after env0 default_config 0 [line_dlsch] world2.

(** The third world once the fourth line has updated the device. *)
Definition world4 (env : Env) : World :=
  Eval vm_compute in final (ul_bytes_update env m_ul_bytes (counted world3)).

(** The record of the device in that world. *)
Definition record4 : UeRecord :=
  Eval vm_compute in emitted_record (ue 64 (world4 env0)).

(** A line that updates the device table and finds the buffer empty. *)
Lemma quiet_line env cfg fuel line w w1 :
  match classify line with
  | Header m => header_line m (counted w) = Ok tt w1
  | Cqi m => cqi_line m (counted w) = Ok tt w1
  | Dlsch m => dlsch_line m (counted w) = Ok tt w1
  | Ulsch m => ulsch_line m (counted w) = Ok tt w1
  | DlBytes m => dl_bytes_line env m (counted w) = Ok tt w1
  | _ => False
  end ->
  _buffer w1 = [] ->
  process_line env cfg fuel line w = Ok tt w1.
Proof.
  rewrite process_line_handle.
  destruct (classify line); try contradiction; simpl handle; intros E Hb;
    rewrite (bind_ok _ _ _ _ _ E); apply flush_empty_buffer, Hb.
Qed.

Lemma first_three_lines env cfg fuel :
  process_line env cfg fuel line_header initial = Ok tt world1
  /\ process_line env cfg fuel line_cqi world1 = Ok tt world2
  /\ process_line env cfg fuel line_dlsch world2 = Ok tt world3.
Proof.
  repeat split; apply quiet_line; vm_compute; reflexivity.
Qed.

Lemma fourth_line env cfg fuel :
  final (process_line env cfg fuel line_ul_bytes world3)
  = final (_maybe_post_flush env cfg fuel false
             (emitted env cfg record4 (world4 env))).
Proof.
  rewrite process_line_handle.
  assert (C : classify line_ul_bytes = UlBytes m_ul_bytes)
    by (vm_compute; reflexivity).
  rewrite C. simpl handle.
  assert (E : ul_bytes_line env cfg m_ul_bytes (counted world3)
              = Ok tt (emitted env cfg record4 (world4 env))).
  { rewrite ul_bytes_line_split.
    assert (U : ul_bytes_update env m_ul_bytes (counted world3)
                = Ok 64 (world4 env)) by (vm_compute; reflexivity).
    rewrite (bind_ok _ _ _ _ _ U). unfold emit_for.
    rewrite (bind_ok (gets (ue 64)) _ _ (ue 64 (world4 env)) _ eq_refl).
    rewrite emit_snapshot_result.
    assert (R : ue_record (ue 64 (world4 env)) = inr record4)
      by (vm_compute; reflexivity).
    rewrite R. reflexivity. }
  rewrite (bind_ok _ _ _ _ _ E). reflexivity.
Qed.

(** C3, amended. Processing the four lines in order from the initial state,
    under any configuration, clock and server: nothing is written by the
    first three lines, and the fourth line, the uplink byte counter, writes
    one snapshot with one record whose device id is 64 ("64" is all digits,
    so it is read in base 10), with downlink cqi 10, ri 2, mcs 10,
    packets_ok 95, packets_nok 5 and drop_rate 5.0. *)
Theorem scenario_snapshot :
  forall env cfg fuel,
    out_lines (after env cfg fuel [line_header] initial) = []
    /\ out_lines (after env cfg fuel [line_header; line_cqi] initial) = []
    /\ out_lines (after env cfg fuel [line_header; line_cqi; line_dlsch] initial)
       = []
    /\ exists snap r,
         out_lines (after env cfg fuel scenario initial) = [snap]
         /\ ues snap = [r]
         /\ rnti r = 64
         /\ down_cqi (downlink r) = 10
         /\ down_ri (downlink r) = 2
         /\ down_mcs (downlink r) = 10
         /\ down_packets_ok (downlink r) = 95
         /\ down_packets_nok (downlink r) = 5
         /\ down_drop_rate (downlink r) = Py.of_Z 5.
Proof.
  intros env cfg fuel.
  destruct (first_three_lines env cfg fuel) as (H1 & H2 & H3).
  unfold scenario. rewrite !after_cons, !after_nil, H1.
  change (final (Ok tt world1)) with world1. rewrite H2.
  change (final (Ok tt world2)) with world2. rewrite H3.
  change (final (Ok tt world3)) with world3.
  split; [reflexivity|]. split; [reflexivity|]. split; [reflexivity|].
  exists (snapshot_of env cfg record4 (world4 env)), record4.
  rewrite fourth_line.
  rewrite (keeps_flush out_lines env cfg fuel false out_lines_beyond_delivery).
  repeat split.
Qed.

(** C3, as stated, fails: the device id of the emitted snapshot is not
    100. *)
Lemma scenario_device_id_is_not_100 :
  ~ exists snap r,
      out_lines (after env0 default_config 0 scenario initial) = [snap]
      /\ ues snap = [r]
      /\ rnti r = 100.
Proof.
  intros (snap & r & H1 & H2 & H3).
  vm_compute in H1. injection H1 as <-.
  vm_compute in H2. injection H2 as <-. discriminate H3.
Qed.

(** ** Snapshots of a device *)

(** C8. The record built from a freshly created device state: every metric
    is 0 or 0.0 except the downlink bitrate, which is 4000000, the value
    [_init_ue] stores under ["bitrate"] of ["dl"]. *)
Theorem fresh_device_record :
  forall id,
    ue_record (_init_ue id)
    = inr {| pci := 0;
             rnti := id;
             downlink := {| down_cqi := 0; down_ri := 0; down_mcs := 0;
                            down_bitrate := 4000000;
                            down_packets_ok := 0; down_packets_nok := 0;
                            down_drop_rate := zero;
                            down_buffer_status := 0 |};
             uplink := {| up_pusch_sinr := zero; up_rsrp := zero;
                          up_ri := 0; up_mcs := 0; up_bitrate := 0;
                          up_packets_ok := 0; up_packets_nok := 0;
                          up_drop_rate := zero; up_bsr := 0;
                          up_timing_advance := 0; up_phr := zero |} |}
    /\ down_bitrate (downlink (emitted_record (_init_ue id))) <> 0.
Proof. intros id. split; [reflexivity | discriminate]. Qed.

(** The first line a device is seen on can be an LCID line: the snapshot it
    emits carries the downlink bitrate 4000000. *)
Example fresh_device_snapshot :
  List.map (fun s => List.map (fun r => down_bitrate (downlink r)) (ues s))
    (out_lines (after env0 default_config 0 [line_lcid] initial))
  = [[4000000]].
Proof. vm_compute. reflexivity. Qed.

(** A field that no event has set yet ([None] in the aggregate) reads as
    0, or 0.0 for a float field, in the record that is emitted. *)
Lemma unset_fields_read_zero u r :
  ue_record u = inr r ->
  (dl_cqi (ue_dl u) = None -> down_cqi (downlink r) = 0)
  /\ (dl_ri (ue_dl u) = None -> down_ri (downlink r) = 0)
  /\ (dl_mcs (ue_dl u) = None -> down_mcs (downlink r) = 0)
  /\ (ul_ri (ue_ul u) = None -> up_ri (uplink r) = 0)
  /\ (ul_mcs (ue_ul u) = None -> up_mcs (uplink r) = 0)
  /\ (ul_snr (ue_ul u) = None -> up_pusch_sinr (uplink r) = zero)
  /\ (ue_rsrp u = None -> up_rsrp (uplink r) = zero)
  /\ (ue_phr u = None -> up_phr (uplink r) = zero).
Proof.
  unfold ue_record.
  destruct (Py.int_of_num _); [discriminate|].
  destruct (Py.int_of_num _); [discriminate|].
  intros E. injection E as <-. simpl.
  repeat split; intros ->; reflexivity.
Qed.

(** ** The theorems at concrete inputs *)

Definition cfg_latest : Config :=
  {| _SOURCE := "OAI";
     _POST_URL := Some "http://h/ingest";
     _POST_TIMEOUT := Py.of_Z 5;
     _MAX_RETRIES := 3;
     _SEND_INTERVAL := Py.of_Z 1;
     _ONE_AT_A_TIME := true;
     _SEND_ORDER := "latest";
     _CSV_WRITER := false |}.

Definition cfg_fifo : Config :=
  {| _SOURCE := "OAI";
     _POST_URL := Some "http://h/ingest";
     _POST_TIMEOUT := Py.of_Z 5;
     _MAX_RETRIES := 0;
     _SEND_INTERVAL := Py.of_Z 1;
     _ONE_AT_A_TIME := true;
     _SEND_ORDER := "fifo";
     _CSV_WRITER := false |}.


(** No connection can be made. *)
Definition env_down : Env :=
  {| clock := fun n => Z.of_nat n;
     server := fun _ _ => URLError;
     urljoin := fun _ loc => loc |}.

Definition snap1 : Snapshot := {| timestamp := 1; source := "OAI"; ues := [] |}.







(** ** The worlds the program reaches *)

Lemma after_preserves env cfg fuel (I : World -> Prop) :
  (forall line, preserves I (process_line env cfg fuel line)) ->
  forall lines w, I w -> I (after env cfg fuel lines w).
Proof.
  intros H lines. induction lines as [|line lines IH]; intros w Hw.
  - exact Hw.
  - rewrite after_cons. apply IH, H, Hw.
Qed.

(** X1. Whatever lines were processed since start-up, the device table is
    well formed: every aggregate is stored under its own RNTI and its two
    bitrates can be converted by [int()], so that an emission never
    raises. *)
Theorem reachable_well_formed :
  forall env cfg fuel lines, wf_world (after env cfg fuel lines initial).
Proof.
  intros env cfg fuel lines.
  apply (after_preserves env cfg fuel wf_world).
  - intros line. apply process_line_wf.
  - exact wf_initial.
Qed.

(** X2. In single-slot-latest mode the buffer holds at most one snapshot
    after any sequence of lines processed since start-up. *)
Theorem reachable_at_most_one :
  forall env cfg fuel lines,
    _ONE_AT_A_TIME cfg = true ->
    _SEND_ORDER cfg = "latest" ->
    at_most_one (after env cfg fuel lines initial).
Proof.
  intros env cfg fuel lines H1 H2.
  apply (after_preserves env cfg fuel at_most_one).
  - intros line. apply process_line_at_most_one; assumption.
  - unfold at_most_one. simpl. lia.
Qed.

Lemma reachable_at_most_one_witness :
  at_most_one (after env_down cfg_latest 3 scenario initial).
Proof.
  exact (reachable_at_most_one env_down cfg_latest 3 scenario eq_refl eq_refl).
Defined.

(** A device is never dropped from the table. *)
Lemma after_tracked env cfg fuel id lines w :
  tracked id w -> tracked id (after env cfg fuel lines w).
Proof.
  apply (after_preserves env cfg fuel (tracked id)).
  intros line. apply process_line_tracked.
Qed.

(** ** Termination of a delivery *)




Lemma unset_fields_read_zero_witness :
  down_cqi (downlink (emitted_record (_init_ue 64))) = 0
  /\ up_pusch_sinr (uplink (emitted_record (_init_ue 64))) = zero.
Proof.
  destruct (unset_fields_read_zero (_init_ue 64) (emitted_record (_init_ue 64))
              eq_refl) as (H1 & _ & _ & _ & _ & H6 & _).
  exact (conj (H1 eq_refl) (H6 eq_refl)).
Defined.

(** ** The verdict of a delivery *)

(** The reply is a response with a 2xx status. *)
Definition accepted (r : Reply) : bool :=
  match r with
  | Response code => (200 <=? code) && (code <? 300)
  | _ => false
  end.

Lemma post_loop_verdict env fuel :
  forall obj timeout retries attempt delay url redirects w ok w',
    post_loop env fuel obj timeout retries attempt delay url redirects w
    = Ok ok w' ->
    exists earlier rq,
      requests w' = requests w ++ earlier ++ [rq]
      /\ ok = accepted (server env (length (requests w ++ earlier)) rq).
Proof.
  induction fuel as [|fuel IH]; intros * H; [discriminate H|].
  simpl in H. unfold bind at 1 in H. unfold urlopen in H.
  set (rq := mkRequest "POST" url obj timeout) in *.
  set (w1 := set_requests (requests w ++ [rq]) w) in *.
  assert (Hend : forall b, Ok b w1 = Ok ok w' ->
            b = accepted (server env (length (requests w)) rq) ->
            exists earlier rq0,
              requests w' = requests w ++ earlier ++ [rq0]
              /\ ok = accepted
                        (server env (length (requests w ++ earlier)) rq0)).
  { intros b E Hb. injection E as <- <-. exists [], rq.
    rewrite app_nil_r. split; [reflexivity | exact Hb]. }
  assert (Hrec : forall attempt' delay' url' redirects' w2,
            requests w2 = requests w1 ->
            post_loop env fuel obj timeout retries attempt' delay' url'
              redirects' w2 = Ok ok w' ->
            exists earlier rq0,
              requests w' = requests w ++ earlier ++ [rq0]
              /\ ok = accepted
                        (server env (length (requests w ++ earlier)) rq0)).
  { intros * Hw2 E. destruct (IH _ _ _ _ _ _ _ _ _ _ E) as (l & rq0 & Hr & Ho).
    exists (rq :: l), rq0. rewrite Hr, Ho, Hw2. unfold w1. simpl.
    rewrite <- !app_assoc. split; reflexivity. }
  destruct (server env (length (requests w)) rq) as [code|code loc| |] eqn:Hs.
  - apply (Hend _ H). reflexivity.
  - destruct (is_redirect code).
    + destruct loc as [[|c l]|];
        try (apply (Hend _ H); reflexivity).
      destruct (redirects + 1 >? max_redirects);
        [apply (Hend _ H); reflexivity | (refine (Hrec _ _ _ _ _ _ H); reflexivity)].
    + destruct ((code =? 405) && negb (String.eqb (toggle_slash url) url));
        [(refine (Hrec _ _ _ _ _ _ H); reflexivity)|].
      destruct (negb (is_transient code) || (attempt + 1 >? retries));
        [apply (Hend _ H); reflexivity|].
      unfold bind, sleep, modify in H. (refine (Hrec _ _ _ _ _ _ H); reflexivity).
  - destruct (attempt + 1 >? retries); [apply (Hend _ H); reflexivity|].
    unfold bind, sleep, modify in H. (refine (Hrec _ _ _ _ _ _ H); reflexivity).
  - destruct (attempt + 1 >? retries); [apply (Hend _ H); reflexivity|].
    unfold bind, sleep, modify in H. (refine (Hrec _ _ _ _ _ _ H); reflexivity).
Qed.

(** X4. When a delivery attempt returns, its verdict is the one of the last
    request it sent: [True] exactly when the reply to that request was a
    response with a status from 200 to 299. *)
Theorem verdict_is_last_reply :
  forall env fuel url obj timeout retries w ok w',
    _http_post_json env fuel url obj timeout retries w = Ok ok w' ->
    exists earlier rq,
      requests w' = requests w ++ earlier ++ [rq]
      /\ ok = accepted (server env (length (requests w ++ earlier)) rq).
Proof.
  intros * H. unfold _http_post_json in H.
  exact (post_loop_verdict _ _ _ _ _ _ _ _ _ _ _ _ H).
Qed.

Lemma verdict_is_last_reply_witness :
  exists earlier rq,
    requests
      (sent (post "http://new/ingest" (One snap0) (Py.of_Z 5))
         (sent (post "http://old/ingest" (One snap0) (Py.of_Z 5)) initial))
    = requests initial ++ earlier ++ [rq]
    /\ true = accepted (server env_moved (length (requests initial ++ earlier)) rq).
Proof.
  exact (verdict_is_last_reply env_moved 2 "http://old/ingest" (One snap0)
           (Py.of_Z 5) 3 initial true _ eq_refl).
Defined.

(** ** Retries *)

(** The replies after which the client tries again: a transient status, or
    no HTTP reply at all. *)
Definition retried (r : Reply) : bool :=
  match r with
  | HTTPError code _ => is_transient code
  | URLError | OtherException => true
  | Response _ => false
  end.

(** The delays of [n] retries, the first one [delay]. *)
Fixpoint backoff (n : nat) (delay : float) : list float :=
  match n with
  | O => []
  | S n' => delay :: backoff n' (Py.fmul delay (Py.of_Z 2))
  end.

Lemma transient_is_not_followed code :
  is_transient code = true -> is_redirect code = false /\ (code =? 405) = false.
Proof.
  unfold is_transient, is_redirect. intros H.
  repeat match type of H with
         | (_ || _) = true => apply orb_true_iff in H as [H|H]
         end;
    apply Z.eqb_eq in H; subst code; split; reflexivity.
Qed.

Lemma post_loop_backs_off env :
  (forall n rq, retried (server env n rq) = true) ->
  forall n obj timeout retries attempt delay url redirects w,
    n = Z.to_nat (retries - attempt) -> attempt <= retries ->
    post_loop env (S n) obj timeout retries attempt delay url redirects w
    = Ok false
        (set_sleeps (sleeps w ++ backoff n delay)
           (set_requests
              (requests w ++ repeat (post url obj timeout) (S n)) w)).
Proof.
  intros Hsrv. induction n as [|n IH]; intros * Hn Hle.
  - assert (attempt = retries) by lia. subst attempt.
    simpl. unfold bind, urlopen. fold (post url obj timeout).
    specialize (Hsrv (length (requests w)) (post url obj timeout)).
    assert (Hgt : (retries + 1 >? retries) = true) by (apply Z.gtb_lt; lia).
    destruct (server env _ _) as [code|code loc| |]; simpl in Hsrv;
      try discriminate Hsrv.
    + destruct (transient_is_not_followed code Hsrv) as (-> & ->).
      rewrite Hsrv, Hgt. simpl. rewrite app_nil_r. destruct w; reflexivity.
    + rewrite Hgt. rewrite app_nil_r. destruct w; reflexivity.
    + rewrite Hgt. rewrite app_nil_r. destruct w; reflexivity.
  - assert (Hgt : (attempt + 1 >? retries) = false).
    { destruct (Z.gtb_spec (attempt + 1) retries); [lia | reflexivity]. }
    assert (Hn' : n = Z.to_nat (retries - (attempt + 1))) by lia.
    assert (Hstep : forall w2,
              post_loop env (S n) obj timeout retries (attempt + 1)
                (Py.fmul delay (Py.of_Z 2)) url redirects
                (set_sleeps (sleeps w2 ++ [delay])
                   (set_requests (requests w2 ++ [post url obj timeout]) w2))
              = Ok false
                  (set_sleeps (sleeps w2 ++ backoff (S n) delay)
                     (set_requests
                        (requests w2 ++ repeat (post url obj timeout) (S (S n)))
                        w2))).
    { intros w2. rewrite (IH _ _ _ _ _ _ _ _ Hn') by lia.
      destruct w2. unfold set_sleeps, set_requests. simpl.
      rewrite <- !app_assoc. reflexivity. }
    remember (S n) as k eqn:Hk. simpl post_loop.
    unfold bind at 1. unfold urlopen. fold (post url obj timeout).
    specialize (Hsrv (length (requests w)) (post url obj timeout)).
    destruct (server env _ _) as [code|code loc| |]; simpl in Hsrv;
      try discriminate Hsrv.
    + destruct (transient_is_not_followed code Hsrv) as (-> & ->).
      cbv zeta. rewrite Hsrv, Hgt. cbn [andb negb orb].
      unfold bind at 1, sleep, modify. exact (Hstep w).
    + cbv zeta. rewrite Hgt. unfold bind at 1, sleep, modify. exact (Hstep w).
    + cbv zeta. rewrite Hgt. unfold bind at 1, sleep, modify. exact (Hstep w).
Qed.

(** X5. Against a server that keeps failing with a transient status (429,
    500, 502, 503, 504) or with no HTTP reply, a delivery sends
    [retries + 1] requests, all to the URL it was given, sleeps between two
    requests, each delay twice the one before and the first one 0.5 s, and
    returns [False]. *)
Theorem transient_failures_back_off :
  forall env url obj timeout retries w,
    (forall n rq, retried (server env n rq) = true) ->
    0 <= retries ->
    _http_post_json env (S (Z.to_nat retries)) url obj timeout retries w
    = Ok false
        (set_sleeps (sleeps w ++ backoff (Z.to_nat retries) _BACKOFF_BASE)
           (set_requests
              (requests w
               ++ repeat (post url obj timeout) (S (Z.to_nat retries))) w)).
Proof.
  intros env url obj timeout retries w Hsrv Hr. unfold _http_post_json.
  apply post_loop_backs_off; [exact Hsrv | f_equal; lia | exact Hr].
Qed.

Lemma transient_failures_back_off_witness :
  _http_post_json env_down 4 "http://h/ingest" (One snap0) (Py.of_Z 5) 3 initial
  = Ok false
      (set_sleeps (sleeps initial ++ backoff 3 _BACKOFF_BASE)
         (set_requests
            (requests initial
             ++ repeat (post "http://h/ingest" (One snap0) (Py.of_Z 5)) 4)
            initial)).
Proof.
  apply (transient_failures_back_off env_down "http://h/ingest" (One snap0)
           (Py.of_Z 5) 3 initial).
  - intros n rq. reflexivity.
  - lia.
Defined.

(** With the default of three retries the delays are 0.5 s, 1 s and 2 s. *)
Example default_backoff :
  backoff 3 _BACKOFF_BASE
  = [binary_normalize Py.prec Py.emax 1 (-1) false; Py.of_Z 1; Py.of_Z 2].
Proof. vm_compute. reflexivity. Qed.

(** The replies that end an attempt at once: a response, whatever its
    status, and an HTTP error that is neither a redirect the client follows,
    nor a 405, nor transient. *)
Definition conclusive (r : Reply) : bool :=
  match r with
  | Response _ => true
  | HTTPError code _ =>
      negb (is_redirect code) && negb (code =? 405) && negb (is_transient code)
  | URLError | OtherException => false
  end.

(** A conclusive reply to the first request ends the delivery there,
    whatever the number of retries allowed: one request, no sleep, and the
    verdict [True] only for a 2xx response. *)
Theorem conclusive_reply_is_final :
  forall env fuel url obj timeout retries w,
    conclusive (server env (length (requests w)) (post url obj timeout)) = true ->
    _http_post_json env (S fuel) url obj timeout retries w
    = Ok (accepted (server env (length (requests w)) (post url obj timeout)))
        (sent (post url obj timeout) w).
Proof.
  intros env fuel url obj timeout retries w H. unfold _http_post_json.
  simpl. unfold bind at 1. unfold urlopen. fold (post url obj timeout).
  destruct (server env _ _) as [code|code loc| |]; simpl in H;
    try discriminate H; [reflexivity|].
  apply andb_true_iff in H as [H H3]. apply andb_true_iff in H as [H1 H2].
  apply negb_true_iff in H1, H2, H3. rewrite H1, H2, H3. reflexivity.
Qed.

(** Every request is answered 404. *)
Definition env_404 : Env :=
  {| clock := fun _ => 0;
     server := fun _ _ => HTTPError 404 None;
     urljoin := fun _ loc => loc |}.

Lemma conclusive_reply_is_final_witness :
  _http_post_json env_404 1 "http://h/ingest" (One snap0) (Py.of_Z 5) 3 initial
  = Ok false (sent (post "http://h/ingest" (One snap0) (Py.of_Z 5)) initial).
Proof.
  exact (conclusive_reply_is_final env_404 0 "http://h/ingest" (One snap0)
           (Py.of_Z 5) 3 initial eq_refl).
Defined.

(** ** When a flush is due *)

(** [_counts[key]] *)
Definition count (key : string) (w : World) : Z := _counts w !!! key.

Lemma count_incr key n w :
  count key (final (incr key n w)) = count key w + n.
Proof. unfold count, incr, modify. simpl. apply lookup_total_insert_eq. Qed.

Lemma count_incr_other key key' n w :
  key' <> key -> count key (final (incr key' n w)) = count key w.
Proof.
  intros H. unfold count, incr, modify. simpl.
  apply lookup_total_insert_ne. exact H.
Qed.

Lemma due_now cfg force now_ms w interval :
  force = true \/ _last_post_ms w = 0
  \/ (Py.int_of_float (Py.fmul (_SEND_INTERVAL cfg) (Py.of_Z 1000)) = inr interval
      /\ interval <= now_ms - _last_post_ms w) ->
  due cfg force now_ms w = Ok true w.
Proof.
  unfold due. intros [-> | H]; [reflexivity|].
  destruct force; [reflexivity|]. unfold bind, gets.
  destruct H as [-> | [Hi Hle]]; [reflexivity|].
  destruct (_last_post_ms w =? 0); [reflexivity|].
  rewrite Hi. unfold lift, ret. f_equal.
  destruct (Z.geb_spec (now_ms - _last_post_ms w) interval); [reflexivity | lia].
Qed.

Lemma due_later cfg now_ms w interval :
  Py.int_of_float (Py.fmul (_SEND_INTERVAL cfg) (Py.of_Z 1000)) = inr interval ->
  _last_post_ms w <> 0 ->
  now_ms - _last_post_ms w < interval ->
  due cfg false now_ms w = Ok false w.
Proof.
  intros Hi Hl Hlt. unfold due, bind, gets.
  destruct (Z.eqb_spec (_last_post_ms w) 0); [contradiction|].
  rewrite Hi. unfold lift, ret. f_equal.
  destruct (Z.geb_spec (now_ms - _last_post_ms w) interval); [lia | reflexivity].
Qed.

(** What a flush posts once it is due: one snapshot in one-at-a-time mode,
    the oldest or the newest by the send order, and the whole buffer as an
    array in batch mode. *)
Definition payload_of (cfg : Config) (first : Snapshot) (rest : list Snapshot)
    : Payload :=
  if _ONE_AT_A_TIME cfg
  then One (if String.eqb (_SEND_ORDER cfg) "fifo"
            then first else List.last rest first)
  else Batch (first :: rest).

Lemma requests_beyond_counts key n : keeps requests (incr key n).
Proof. intros w. reflexivity. Qed.

Lemma flush_requests env cfg fuel force w url first rest :
  post_url cfg = Some url ->
  _buffer w = first :: rest ->
  let w0 := set_ticks (S (ticks w)) w in
  due cfg force (clock env (ticks w)) w0 = Ok true w0 ->
  exists w1,
    requests w1 = requests w
    /\ requests (final (_maybe_post_flush env cfg fuel force w))
       = requests (final (_http_post_json env fuel url (payload_of cfg first rest)
                            (_POST_TIMEOUT cfg) (_MAX_RETRIES cfg) w1)).
Proof.
  intros Hurl Hbuf w0 Hdue. unfold _maybe_post_flush. rewrite Hurl.
  unfold bind at 1, gets. rewrite Hbuf.
  unfold bind at 1, _now_ms. fold w0.
  unfold bind at 1. rewrite Hdue. cbn [negb]. unfold payload_of.
  destruct (_ONE_AT_A_TIME cfg).
  - destruct (String.eqb (_SEND_ORDER cfg) "fifo").
    + exists (set_buffer rest w0). split; [reflexivity|].
      unfold bind at 1, modify, ret. cbn [bind].
      apply (final_bind_keeps requests). intros [|]; frame.
    + exists (set_buffer [] w0). split; [reflexivity|].
      unfold bind at 1, modify, ret. cbn [bind].
      apply (final_bind_keeps requests). intros [|]; frame.
  - exists w0. split; [reflexivity|].
    apply (final_bind_keeps requests). intros [|]; frame.
Qed.

(** X6. A flush check that is not forced waits for the send interval: with
    a snapshot buffered and an earlier delivery on record, it sends nothing
    and leaves the buffer alone while fewer than [int(_SEND_INTERVAL * 1000)]
    milliseconds have passed since that delivery, and it does post, to the
    configured URL, once they have. *)
Theorem flush_waits_for_interval :
  forall env cfg fuel w url first rest interval,
    post_url cfg = Some url ->
    _buffer w = first :: rest ->
    Py.int_of_float (Py.fmul (_SEND_INTERVAL cfg) (Py.of_Z 1000)) = inr interval ->
    _last_post_ms w <> 0 ->
    let now_ms := clock env (ticks w) in
    (now_ms - _last_post_ms w < interval ->
       _maybe_post_flush env cfg fuel false w = Ok tt (set_ticks (S (ticks w)) w))
    /\ (interval <= now_ms - _last_post_ms w -> fuel <> O ->
        exists more,
          requests (final (_maybe_post_flush env cfg fuel false w))
          = requests w
            ++ post url (payload_of cfg first rest) (_POST_TIMEOUT cfg) :: more).
Proof.
  intros env cfg fuel w url first rest interval Hurl Hbuf Hi Hlast now_ms.
  split.
  - intros Hlt. unfold _maybe_post_flush. rewrite Hurl.
    unfold bind at 1, gets. rewrite Hbuf. unfold bind at 1, _now_ms.
    unfold bind at 1. fold now_ms.
    rewrite (due_later cfg now_ms (set_ticks (S (ticks w)) w) interval Hi Hlast Hlt).
    reflexivity.
  - intros Hle Hfuel.
    destruct (flush_requests env cfg fuel false w url first rest Hurl Hbuf)
      as (w1 & Hw1 & ->).
    { apply (due_now cfg false _ _ interval). right. right. split; assumption. }
    destruct (post_loop_delivered env fuel (payload_of cfg first rest)
                (_POST_TIMEOUT cfg) (_MAX_RETRIES cfg) 0 _BACKOFF_BASE url 0 w1)
      as (_ & Hd).
    destruct (Hd Hfuel) as (_ & more & Hr & _). exists more.
    unfold _http_post_json. rewrite Hr. unfold sent. simpl.
    rewrite Hw1, <- app_assoc. reflexivity.
Qed.

(** One second between deliveries, and a clock that advances by 400 ms at
    each reading. *)
Definition env_slow_clock : Env :=
  {| clock := fun n => 1000 + 400 * Z.of_nat n;
     server := fun _ _ => Response 200;
     urljoin := fun _ loc => loc |}.

Lemma flush_waits_for_interval_witness :
  _maybe_post_flush env_slow_clock cfg_latest 3 false
    (set_last_post_ms 1000 (set_buffer [snap0] initial))
  = Ok tt (set_ticks 1 (set_last_post_ms 1000 (set_buffer [snap0] initial))).
Proof.
  destruct (flush_waits_for_interval env_slow_clock cfg_latest 3
              (set_last_post_ms 1000 (set_buffer [snap0] initial))
              "http://h/ingest" snap0 [] 1000 eq_refl eq_refl eq_refl)
    as (H & _).
  - discriminate.
  - apply H. vm_compute. reflexivity.
Defined.

(** ** Batch mode *)

Lemma flush_batch env cfg fuel force w url first rest :
  post_url cfg = Some url -> _ONE_AT_A_TIME cfg = false ->
  _buffer w = first :: rest ->
  let now_ms := clock env (ticks w) in
  let w0 := set_ticks (S (ticks w)) w in
  due cfg force now_ms w0 = Ok true w0 ->
  _maybe_post_flush env cfg fuel force w
  = match _http_post_json env fuel url (Batch (first :: rest)) (_POST_TIMEOUT cfg)
            (_MAX_RETRIES cfg) w0 with
    | Ok true w2 =>
        Ok tt (set_last_post_ms now_ms
                 (set_buffer []
                    (final (incr "posted_snapshots"
                              (Z.of_nat (length (first :: rest)))
                              (final (incr "posted_batches" 1 w2))))))
    | Ok false w2 => Ok tt (final (incr "post_errors" 1 w2))
    | Raise e w2 => Raise e w2
    | Diverge w2 => Diverge w2
    end.
Proof.
  intros Hurl Hone Hbuf now_ms w0 Hdue.
  unfold _maybe_post_flush. rewrite Hurl, Hone.
  unfold bind, gets, _now_ms. rewrite Hbuf. fold now_ms. fold w0.
  rewrite Hdue. cbn [negb].
  destruct (_http_post_json _ _ _ _ _ _ _) as [[|] w2|e w2|w2]; reflexivity.
Qed.

(** X7. In batch mode a due flush posts the whole buffer as one array, in
    one delivery. If the delivery succeeds the buffer is emptied, the send
    time is the clock reading of this flush, one batch and as many
    snapshots as the buffer held are counted as posted. If it fails the
    buffer is what it was, for the next flush to send again together with
    what arrives until then, and one error is counted. *)
Theorem batch_flush_all_or_nothing :
  forall env cfg fuel force w url first rest,
    post_url cfg = Some url ->
    _ONE_AT_A_TIME cfg = false ->
    _buffer w = first :: rest ->
    let now_ms := clock env (ticks w) in
    let w0 := set_ticks (S (ticks w)) w in
    due cfg force now_ms w0 = Ok true w0 ->
    let attempt :=
      _http_post_json env fuel url (Batch (first :: rest)) (_POST_TIMEOUT cfg)
        (_MAX_RETRIES cfg) w0 in
    (forall w2, attempt = Ok true w2 ->
       exists w3, _maybe_post_flush env cfg fuel force w = Ok tt w3
                  /\ _buffer w3 = []
                  /\ _last_post_ms w3 = now_ms
                  /\ count "posted_batches" w3 = count "posted_batches" w + 1
                  /\ count "posted_snapshots" w3
                     = count "posted_snapshots" w + Z.of_nat (S (length rest))
                  /\ count "post_errors" w3 = count "post_errors" w)
    /\ (forall w2, attempt = Ok false w2 ->
          exists w3, _maybe_post_flush env cfg fuel force w = Ok tt w3
                     /\ _buffer w3 = first :: rest
                     /\ _last_post_ms w3 = _last_post_ms w
                     /\ count "posted_snapshots" w3 = count "posted_snapshots" w
                     /\ count "post_errors" w3 = count "post_errors" w + 1).
Proof.
  intros env cfg fuel force w url first rest Hurl Hone Hbuf now_ms w0 Hdue
    attempt.
  pose proof (flush_batch env cfg fuel force w url first rest Hurl Hone Hbuf
                Hdue) as Hflush.
  cbv zeta in Hflush. fold now_ms w0 in Hflush. fold attempt in Hflush.
  assert (Hkeep : forall w2 b, attempt = Ok b w2 ->
            _buffer w2 = first :: rest /\ _last_post_ms w2 = _last_post_ms w
            /\ _counts w2 = _counts w).
  { intros w2 b E.
    pose proof (keeps_http (fun w => (_buffer w, _last_post_ms w, _counts w))
                  env fuel url (Batch (first :: rest)) (_POST_TIMEOUT cfg)
                  (_MAX_RETRIES cfg) (fun _ _ => eq_refl) (fun _ _ => eq_refl)
                  w0) as K.
    fold attempt in K. rewrite E in K. simpl in K.
    injection K as K1 K2 K3. rewrite K1, K2, K3, Hbuf. auto. }
  split; intros w2 E; rewrite E in Hflush; eexists;
    (split; [exact Hflush|]);
    destruct (Hkeep w2 _ E) as (Hb & Hl & Hc); unfold count; simpl;
    rewrite Hc.
  - repeat split.
    + rewrite lookup_total_insert_ne by discriminate.
      apply lookup_total_insert_eq.
    + rewrite lookup_total_insert_eq.
      rewrite lookup_total_insert_ne by discriminate. reflexivity.
    + rewrite !lookup_total_insert_ne by discriminate. reflexivity.
  - repeat split; try assumption.
    + rewrite lookup_total_insert_ne by discriminate. reflexivity.
    + apply lookup_total_insert_eq.
Qed.

Definition cfg_batch : Config :=
  {| _SOURCE := "OAI";
     _POST_URL := Some "http://h/ingest";
     _POST_TIMEOUT := Py.of_Z 5;
     _MAX_RETRIES := 0;
     _SEND_INTERVAL := Py.of_Z 1;
     _ONE_AT_A_TIME := false;
     _SEND_ORDER := "latest";
     _CSV_WRITER := false |}.

Lemma batch_flush_all_or_nothing_witness :
  exists w3,
    _maybe_post_flush env0 cfg_batch 3 false (set_buffer [snap0; snap1] initial)
    = Ok tt w3
    /\ _buffer w3 = []
    /\ count "posted_snapshots" w3 = 2.
Proof.
  destruct (batch_flush_all_or_nothing env0 cfg_batch 3 false
              (set_buffer [snap0; snap1] initial) "http://h/ingest" snap0
              [snap1] eq_refl eq_refl eq_refl eq_refl) as (H & _).
  destruct (H _ eq_refl) as (w3 & E & Hb & _ & _ & Hs & _).
  exists w3. rewrite Hs. repeat split; assumption.
Defined.

(** ** The diagnostics counters *)

(** [f] does not see the counter [key]. *)
Definition ignores_counter {B} (f : World -> B) (key : string) : Prop :=
  forall n w, f (set_counts (<[key := n]> (_counts w)) w) = f w.

Lemma keeps_incr_ignored {B} (f : World -> B) key n :
  ignores_counter f key -> keeps f (incr key n).
Proof. intros H w. apply H. Qed.


(** A part of the world that only the counters and the sinks reach. *)
Definition beyond_tables {B} (f : World -> B) : Prop :=
  (forall v w, f (set_state v w) = f w)
  /\ (forall v w, f (set_ticks v w) = f w).


Ltac counters :=
  first [ apply keeps_incr_ignored; assumption
        | apply keeps_get_ue; assumption
        | apply keeps_at_ue; assumption
        | apply keeps_now_ms; assumption ].

Lemma keeps_updates {B} (f : World -> B) env m :
  beyond_tables f ->
  (ignores_counter f "header" -> keeps f (header_line m))
  /\ (ignores_counter f "cqi" -> keeps f (cqi_line m))
  /\ (ignores_counter f "dlsch" -> keeps f (dlsch_line m))
  /\ (ignores_counter f "ulsch" -> keeps f (ulsch_line m))
  /\ (ignores_counter f "dl_bytes" -> keeps f (dl_bytes_line env m))
  /\ (ignores_counter f "ul_bytes" -> keeps f (ul_bytes_update env m))
  /\ (ignores_counter f "lcid" -> keeps f (lcid_update m)).
Proof.
  intros (Hs & Ht).
  unfold header_line, cqi_line, dlsch_line, ulsch_line, dl_bytes_line,
    ul_bytes_update, lcid_update, bps, ue_assign, dl_assign, ul_assign, int10,
    float_.
  repeat match goal with |- _ /\ _ => split end; intros Hc; frame; counters.
Qed.



(** *** The lines counter *)






(** *** Snapshots written, emitted and posted *)

















(** ** One device per line *)

(** [state.get(key)] *)
Definition device (key : Z) (w : World) : option UEState := state w !! key.

(** The device a line names: the RNTI of its match, parsed. *)
Definition named_device (line : string) : option Z :=
  match event_groups (classify line) with
  | Some m => _parse_rnti (Re.group m "rnti")
  | None => None
  end.

Lemma keeps_device_by_state {A} key (c : M World A) :
  keeps state c -> keeps (device key) c.
Proof. intros H w. unfold device. rewrite H. reflexivity. Qed.

Lemma keeps_at_ue_other {A} key ref (c : M UEState A) :
  ref <> key -> keeps (device key) (at_ue ref c).
Proof.
  intros H. unfold at_ue. apply keeps_zoom. intros u w. unfold device. simpl.
  apply lookup_insert_ne. exact H.
Qed.

Lemma get_ue_other key id w w1 :
  id <> key -> _get_ue id w = Ok id w1 -> device key w1 = device key w.
Proof.
  intros H. unfold _get_ue, device. destruct (state w !! id); intros E;
    injection E as <-; [reflexivity|]. simpl. apply lookup_insert_ne. exact H.
Qed.

(** A branch of [process_line] whose RNTI is not the one of [key] and whose
    body writes through its reference only. *)
Lemma branch_keeps_others {A} (body : Z -> M World A) m key :
  _parse_rnti (Re.group m "rnti") <> Some key ->
  (forall ref, ref <> key -> keeps (device key) (body ref)) ->
  keeps (device key)
    (rnti <- orraise Py.ValueError (_parse_rnti (Re.group m "rnti")) ;;
     ref <- _get_ue rnti ;; body ref).
Proof.
  intros Hp Hbody w. destruct (_parse_rnti (Re.group m "rnti")) as [id|];
    [|reflexivity].
  assert (Hid : id <> key) by congruence.
  rewrite (bind_ok _ _ w id w eq_refl).
  destruct (get_ue_result id w) as (w1 & E & _).
  rewrite (bind_ok _ _ w id w1 E), (Hbody id Hid).
  exact (get_ue_other key id w w1 Hid E).
Qed.

Ltac others :=
  repeat first
    [ progress intros
    | match goal with
      | |- keeps _ (_emit_snapshot _ _ _ _) =>
          apply keeps_device_by_state, keeps_emit; repeat split; reflexivity
      | |- keeps _ (incr _ _) =>
          apply keeps_device_by_state, keeps_incr; reflexivity
      | |- keeps _ (_now_ms _) =>
          apply keeps_device_by_state, keeps_now_ms; reflexivity
      | |- keeps _ (at_ue _ _) => apply keeps_at_ue_other; assumption
      | |- keeps _ (bind _ _) => apply keeps_bind
      | |- keeps _ (match ?x with _ => _ end) => destruct x
      | |- keeps _ (if ?x then _ else _) => destruct x
      end
    | apply keeps_ret | apply keeps_raise | apply keeps_gets
    | apply keeps_orraise | apply keeps_lift ].

Lemma lines_keep_others env cfg m key :
  _parse_rnti (Re.group m "rnti") <> Some key ->
  keeps (device key) (header_line m)
  /\ keeps (device key) (cqi_line m)
  /\ keeps (device key) (dlsch_line m)
  /\ keeps (device key) (ulsch_line m)
  /\ keeps (device key) (dl_bytes_line env m)
  /\ keeps (device key) (ul_bytes_line env cfg m)
  /\ keeps (device key) (lcid_line env cfg m).
Proof.
  intros Hp.
  unfold header_line, cqi_line, dlsch_line, ulsch_line, dl_bytes_line,
    ul_bytes_line, lcid_line.
  repeat match goal with |- _ /\ _ => split end;
    apply (branch_keeps_others _ m key Hp); intros ref Href;
    unfold bps, int10, float_, ue_assign, dl_assign, ul_assign; others.
Qed.

(** X9. A line changes the aggregate of the device it names and of no
    other: every other entry of the device table, present or not, is after
    the line what it was before. *)
Theorem line_updates_its_device_only :
  forall env cfg fuel line w key,
    named_device line <> Some key ->
    device key (final (process_line env cfg fuel line w)) = device key w.
Proof.
  intros env cfg fuel line w key Hn. rewrite process_line_handle.
  assert (Hf : keeps (device key) (_maybe_post_flush env cfg fuel false)).
  { apply keeps_device_by_state, keeps_flush. repeat split. }
  assert (H : keeps (device key) (handle env cfg fuel (classify line))).
  { unfold named_device in Hn.
    destruct (classify line); simpl in Hn |- *;
      try apply keeps_ret; try exact Hf;
      (apply keeps_bind; [|intros; exact Hf]);
      apply (lines_keep_others env cfg m key Hn). }
  exact (H (counted w)).
Qed.

Lemma line_updates_its_device_only_witness :
  device 100 (final (process_line env0 default_config 0 line_cqi world1))
  = device 100 world1.
Proof.
  apply line_updates_its_device_only. vm_compute. discriminate.
Defined.

(** X10. A device that has an aggregate keeps one: no line removes an entry
    of the device table. *)
Theorem devices_are_never_dropped :
  forall env cfg fuel lines w id,
    tracked id w -> tracked id (after env cfg fuel lines w).
Proof. intros. apply after_tracked. assumption. Qed.

Lemma devices_are_never_dropped_witness :
  tracked 64 (after env0 default_config 0 [line_lcid; line_cqi] world1).
Proof.
  apply devices_are_never_dropped. vm_compute. eexists. reflexivity.
Defined.

(** ** What a report stores *)

(** The most digits [int()] converts from a decimal text: the default of
    [sys.set_int_max_str_digits], which the programs leave as it is. The
    model of [int()] has no such limit, so what is stated of the numbers of
    a line is stated of lines within it. *)
Definition max_str_digits : nat := 4300.

Lemma classified_cqi line m :
  classify line = Cqi m ->
  has_group m "cqi" decimals /\ has_group m "ri" decimals.
Proof.
  intros H. unfold classify in H.
  destruct (negb _); [discriminate|].
  destruct (Py.startswith _ _); [discriminate|].
  destruct (or_match (Re.search P_HEADER_SIMPLE _) _); [discriminate|].
  destruct (Re.search P_CQI _) eqn:E2.
  { injection H as ->. eapply groups_of_cqi; exact E2. }
  repeat match type of H with
         | context [match ?x with Some _ => _ | None => _ end] => destruct x
         end; discriminate.
Qed.

Lemma classified_dl_bytes line m :
  classify line = DlBytes m -> has_group m "bytes" decimals.
Proof.
  intros H. unfold classify in H.
  destruct (negb _); [discriminate|].
  destruct (Py.startswith _ _); [discriminate|].
  destruct (or_match (Re.search P_HEADER_SIMPLE _) _); [discriminate|].
  destruct (Re.search P_CQI _); [discriminate|].
  destruct (or_match (Re.search P_DLSCH_SIMPLE _) _); [discriminate|].
  destruct (or_match (Re.search P_ULSCH_SIMPLE _) _); [discriminate|].
  destruct (Re.search P_DLSCH_BYTES _) eqn:E5.
  { injection H as ->. eapply groups_of_dlsch_bytes; exact E5. }
  repeat match type of H with
         | context [match ?x with Some _ => _ | None => _ end] => destruct x
         end; discriminate.
Qed.

Lemma ue_assign_result id f w :
  ue_assign id f w = Ok tt (put id (f (ue id w)) w).
Proof. reflexivity. Qed.

Lemma cqi_line_final m id cqi ri w :
  _parse_rnti (Re.group m "rnti") = Some id ->
  Py.int 10 (Re.group m "cqi") = Some cqi ->
  Py.int 10 (Re.group m "ri") = Some ri ->
  ue id (final (cqi_line m w))
  = set_ue_dl (set_dl_ri (Some ri) (set_dl_cqi (Some cqi) (ue_dl (ue id w))))
      (ue id w).
Proof.
  intros Hp Hc Hr. unfold cqi_line, int10. rewrite Hp, Hc, Hr.
  rewrite (bind_ok _ _ w id w eq_refl).
  destruct (get_ue_result id w) as (w1 & E & _).
  rewrite (bind_ok _ _ w id w1 E).
  rewrite (bind_ok _ _ w1 cqi w1 eq_refl).
  rewrite (bind_ok _ _ _ _ _ (dl_assign_result id _ w1)).
  rewrite (bind_ok (orraise _ (Some ri)) _ _ ri _ eq_refl).
  rewrite (bind_ok _ _ _ _ _ (dl_assign_result id _ _)).
  rewrite (keeps_ue_incr id "cqi" 1 _), !ue_put.
  rewrite (ue_after_get_ue id w w1 E). destruct (ue id w) as [? ? ? ? ? ? ? [] ?].
  reflexivity.
Qed.

Lemma dl_bytes_line_final env m id n w :
  _parse_rnti (Re.group m "rnti") = Some id ->
  Py.int 10 (Re.group m "bytes") = Some n ->
  ue id (final (dl_bytes_line env m w))
  = set_ue_dl
      (set_dl_last_t_ms (Some (clock env (ticks w)))
         (set_dl_last_total_bytes (Some n)
            (set_dl_total_bytes n
               (set_dl_bitrate (Py.Flt (Py.of_Z 4000000)) (ue_dl (ue id w))))))
      (ue id w).
Proof.
  intros Hp Hn. unfold dl_bytes_line, int10, bps. rewrite Hp, Hn.
  rewrite (bind_ok _ _ w id w eq_refl).
  destruct (get_ue_result id w) as (w1 & E & _ & _ & _ & _ & _ & _ & _ & _ & Ht).
  rewrite (bind_ok _ _ w id w1 E).
  rewrite (bind_ok (_now_ms env) _ w1 (clock env (ticks w1))
             (set_ticks (S (ticks w1)) w1) eq_refl).
  rewrite (bind_ok (orraise _ (Some n)) _ _ n _ eq_refl).
  rewrite (bind_ok _ _ _ _ _ (dl_assign_result id _ _)).
  rewrite (bind_ok _ _ _ _ _ (dl_assign_result id _ _)).
  rewrite (bind_ok _ _ _ _ _ (dl_assign_result id _ _)).
  rewrite (bind_ok _ _ _ _ _ (dl_assign_result id _ _)).
  rewrite (keeps_ue_incr id "dl_bytes" 1 _), !ue_put.
  change (ue id (set_ticks (S (ticks w1)) w1)) with (ue id w1).
  rewrite Ht.
  rewrite (ue_after_get_ue id w w1 E). destruct (ue id w) as [? ? ? ? ? ? ? [] ?].
  reflexivity.
Qed.

(** X11. A channel-quality report is a partial update: after a line that
    classifies as a CQI report, the CQI and the rank indicator of the device
    it names are the two numbers of the line, and every other field of its
    aggregate is what it was (what a fresh aggregate has, for a device seen
    for the first time). The line has at most the 4300 characters that
    [int()] surely converts. *)
Theorem cqi_report_is_stored :
  forall env cfg fuel line w m,
    (String.length line <= max_str_digits)%nat ->
    classify line = Cqi m ->
    exists id cqi ri,
      _parse_rnti (Re.group m "rnti") = Some id
      /\ Py.int 10 (Re.group m "cqi") = Some cqi
      /\ Py.int 10 (Re.group m "ri") = Some ri
      /\ ue id (final (process_line env cfg fuel line w))
         = set_ue_dl
             (set_dl_ri (Some ri) (set_dl_cqi (Some cqi) (ue_dl (ue id w))))
             (ue id w).
Proof.
  intros env cfg fuel line w m _ Hc.
  assert (Hg : event_groups (classify line) = Some m) by (rewrite Hc; reflexivity).
  destruct (parse_rnti_total _ (group_of _ _ _ (classified_rnti line m Hg)))
    as (id & Hp).
  destruct (classified_cqi line m Hc) as (Gc & Gr).
  pose proof (int_decimals _ (group_of _ _ _ Gc)) as Hcqi.
  pose proof (int_decimals _ (group_of _ _ _ Gr)) as Hri.
  exists id, (number 10 (Re.group m "cqi")), (number 10 (Re.group m "ri")).
  repeat split; try assumption.
  rewrite process_line_handle, Hc. simpl handle.
  rewrite (ue_by_state id (final (cqi_line m (counted w))) _).
  - exact (cqi_line_final m id _ _ (counted w) Hp Hcqi Hri).
  - apply final_bind_keeps. intros _. apply keeps_flush. repeat split.
Qed.

Lemma cqi_report_is_stored_witness :
  exists id cqi ri,
    _parse_rnti (Re.group (groups_of line_cqi) "rnti") = Some id
    /\ Py.int 10 (Re.group (groups_of line_cqi) "cqi") = Some cqi
    /\ Py.int 10 (Re.group (groups_of line_cqi) "ri") = Some ri
    /\ ue id (final (process_line env0 default_config 0 line_cqi world1))
       = set_ue_dl
           (set_dl_ri (Some ri) (set_dl_cqi (Some cqi) (ue_dl (ue id world1))))
           (ue id world1).
Proof.
  apply cqi_report_is_stored; [vm_compute; lia | vm_compute; reflexivity].
Defined.

(** X12. A downlink byte-counter report stores the byte count, twice, and
    the clock reading, and sets the downlink bitrate to 4e6 whatever the
    byte count and whatever was stored before: the bitrate is not computed
    from the counters. Every other field of the aggregate is what it was.
    The line has at most the 4300 characters that [int()] surely converts. *)
Theorem dl_bytes_report_is_stored :
  forall env cfg fuel line w m,
    (String.length line <= max_str_digits)%nat ->
    classify line = DlBytes m ->
    exists id n,
      _parse_rnti (Re.group m "rnti") = Some id
      /\ Py.int 10 (Re.group m "bytes") = Some n
      /\ ue id (final (process_line env cfg fuel line w))
         = set_ue_dl
             (set_dl_last_t_ms (Some (clock env (ticks w)))
                (set_dl_last_total_bytes (Some n)
                   (set_dl_total_bytes n
                      (set_dl_bitrate (Py.Flt (Py.of_Z 4000000))
                         (ue_dl (ue id w))))))
             (ue id w).
Proof.
  intros env cfg fuel line w m _ Hc.
  assert (Hg : event_groups (classify line) = Some m) by (rewrite Hc; reflexivity).
  destruct (parse_rnti_total _ (group_of _ _ _ (classified_rnti line m Hg)))
    as (id & Hp).
  pose proof (int_decimals _ (group_of _ _ _ (classified_dl_bytes line m Hc)))
    as Hn.
  exists id, (number 10 (Re.group m "bytes")).
  repeat split; try assumption.
  rewrite process_line_handle, Hc. simpl handle.
  rewrite (ue_by_state id (final (dl_bytes_line env m (counted w))) _).
  - exact (dl_bytes_line_final env m id _ (counted w) Hp Hn).
  - apply final_bind_keeps. intros _. apply keeps_flush. repeat split.
Qed.

Definition line_dl_bytes : string := "UE 64: dlsch_total_bytes 123456".

Lemma dl_bytes_report_is_stored_witness :
  exists id n,
    _parse_rnti (Re.group (groups_of line_dl_bytes) "rnti") = Some id
    /\ Py.int 10 (Re.group (groups_of line_dl_bytes) "bytes") = Some n
    /\ ue id (final (process_line env0 default_config 0 line_dl_bytes world1))
       = set_ue_dl
           (set_dl_last_t_ms (Some (clock env0 (ticks world1)))
              (set_dl_last_total_bytes (Some n)
                 (set_dl_total_bytes n
                    (set_dl_bitrate (Py.Flt (Py.of_Z 4000000))
                       (ue_dl (ue id world1))))))
           (ue id world1).
Proof.
  apply dl_bytes_report_is_stored; [vm_compute; lia | vm_compute; reflexivity].
Defined.

(** ** The bitrates that are reported *)

(** Every aggregate of the device table has [P]. *)
Definition every (P : UEState -> Prop) (w : World) : Prop :=
  forall key u, state w !! key = Some u -> P u.

(** The two bitrates of an aggregate hold the constants the program stores:
    4e6 downlink, and 0 or 4e6 uplink. *)
Definition stubbed (u : UEState) : Prop :=
  dl_bitrate (ue_dl u) = Py.Flt (Py.of_Z 4000000)
  /\ (ul_bitrate (ue_ul u) = Py.Int 0
      \/ ul_bitrate (ue_ul u) = Py.Flt (Py.of_Z 4000000)).

(** The two bitrates of a record hold those constants. *)
Definition constant_rates (r : UeRecord) : Prop :=
  down_bitrate (downlink r) = 4000000
  /\ (up_bitrate (uplink r) = 0 \/ up_bitrate (uplink r) = 4000000).

Lemma stubbed_init id : stubbed (_init_ue id).
Proof. split; [reflexivity | left; reflexivity]. Qed.

Lemma every_lookup w id : every stubbed w -> stubbed (ue id w).
Proof.
  intros H. unfold ue. destruct (state w !! id) eqn:E;
    [exact (H id _ E) | apply stubbed_init].
Qed.

Lemma every_insert w id u :
  every stubbed w -> stubbed u ->
  every stubbed (set_state (<[id := u]> (state w)) w).
Proof.
  intros Hw Hu key v. simpl. rewrite lookup_insert.
  destruct (decide (id = key)) as [->|]; [|apply Hw].
  intros E. injection E as <-. exact Hu.
Qed.

Lemma every_by_state w w' :
  state w' = state w -> every stubbed w -> every stubbed w'.
Proof. unfold every. intros ->. auto. Qed.

Lemma keeps_state_every {A} (c : M World A) :
  keeps state c -> preserves (every stubbed) c.
Proof. apply preserves_state. exact every_by_state. Qed.

Lemma preserves_every_get_ue id : preserves (every stubbed) (_get_ue id).
Proof.
  intros w Hw. unfold _get_ue. destruct (state w !! id); simpl; [exact Hw|].
  apply every_insert; [exact Hw | apply stubbed_init].
Qed.

Lemma preserves_every_at_ue {A} ref (c : M UEState A) :
  (forall u, stubbed u -> stubbed (final (c u))) ->
  preserves (every stubbed) (at_ue ref c).
Proof.
  intros Hc w Hw. unfold at_ue, zoom.
  pose proof (Hc _ (every_lookup w ref Hw)) as Hu.
  destruct (c (ue ref w)); simpl in *; apply every_insert; assumption.
Qed.

Lemma stubbed_ue_assign ref f :
  (forall u, ue_dl (f u) = ue_dl u /\ ue_ul (f u) = ue_ul u) ->
  preserves (every stubbed) (ue_assign ref f).
Proof.
  intros Hf. apply preserves_every_at_ue. intros u Hu.
  destruct (Hf u) as (E1 & E2). unfold stubbed, modify. simpl.
  rewrite E1, E2. exact Hu.
Qed.

Lemma stubbed_dl_assign ref f :
  (forall d, dl_bitrate (f d) = dl_bitrate d
             \/ dl_bitrate (f d) = Py.Flt (Py.of_Z 4000000)) ->
  preserves (every stubbed) (dl_assign ref f).
Proof.
  intros Hf. apply preserves_every_at_ue. intros u (H1 & H2).
  unfold stubbed, at_dl, zoom, modify. cbn [final ue_dl ue_ul set_ue_dl].
  split; [|exact H2]. destruct (Hf (ue_dl u)) as [-> | ->]; auto.
Qed.

Lemma stubbed_ul_assign ref f :
  (forall d, ul_bitrate (f d) = ul_bitrate d
             \/ ul_bitrate (f d) = Py.Flt (Py.of_Z 4000000)) ->
  preserves (every stubbed) (ul_assign ref f).
Proof.
  intros Hf. apply preserves_every_at_ue. intros u (H1 & H2).
  unfold stubbed, at_ul, zoom, modify. cbn [final ue_dl ue_ul set_ue_ul].
  split; [exact H1|]. destruct (Hf (ue_ul u)) as [-> | ->]; auto.
Qed.

Lemma stubbed_update_dl ref :
  preserves (every stubbed) (at_ue ref (at_dl _update_pkt_stats)).
Proof.
  apply preserves_every_at_ue. intros u (H1 & H2).
  destruct (update_pkt_stats_dl (ue_dl u)) as (E & _).
  unfold stubbed, at_dl, zoom.
  destruct (_update_pkt_stats (ue_dl u)); simpl in *; rewrite E; auto.
Qed.

Lemma stubbed_update_ul ref :
  preserves (every stubbed) (at_ue ref (at_ul _update_pkt_stats)).
Proof.
  apply preserves_every_at_ue. intros u (H1 & H2).
  destruct (update_pkt_stats_ul (ue_ul u)) as (E & _).
  unfold stubbed, at_ul, zoom.
  destruct (_update_pkt_stats (ue_ul u)); simpl in *; rewrite E; auto.
Qed.

Ltac rates :=
  repeat first
    [ progress intros
    | match goal with
      | |- preserves _ (bind _ _) => apply preserves_bind
      | |- preserves _ (match ?x with _ => _ end) => destruct x
      | |- preserves _ (if ?x then _ else _) => destruct x
      | |- preserves _ (_get_ue _) => apply preserves_every_get_ue
      | |- preserves _ (at_ue _ (at_dl _update_pkt_stats)) =>
          apply stubbed_update_dl
      | |- preserves _ (at_ue _ (at_ul _update_pkt_stats)) =>
          apply stubbed_update_ul
      | |- preserves _ (ue_assign _ _) =>
          apply stubbed_ue_assign; intros; split; reflexivity
      | |- preserves _ (dl_assign _ _) =>
          apply stubbed_dl_assign; intros;
          first [left; reflexivity | right; reflexivity]
      | |- preserves _ (ul_assign _ _) =>
          apply stubbed_ul_assign; intros;
          first [left; reflexivity | right; reflexivity]
      | |- preserves _ _ =>
          apply keeps_state_every;
          solve [frame; first [apply keeps_incr | apply keeps_now_ms];
                 reflexivity]
      end ].

Lemma updates_keep_rates env m :
  preserves (every stubbed) (header_line m)
  /\ preserves (every stubbed) (cqi_line m)
  /\ preserves (every stubbed) (dlsch_line m)
  /\ preserves (every stubbed) (ulsch_line m)
  /\ preserves (every stubbed) (dl_bytes_line env m)
  /\ preserves (every stubbed) (ul_bytes_update env m)
  /\ preserves (every stubbed) (lcid_update m).
Proof.
  unfold header_line, cqi_line, dlsch_line, ulsch_line, dl_bytes_line,
    ul_bytes_update, lcid_update, bps, int10, float_.
  repeat match goal with |- _ /\ _ => split end; rates.
Qed.

Lemma stubbed_record u r :
  stubbed u -> ue_record u = inr r -> constant_rates r.
Proof.
  intros (H1 & H2). unfold ue_record. rewrite H1.
  change (Py.int_of_num (or0n (Py.Flt (Py.of_Z 4000000)))) with (@inr Py.exn Z 4000000).
  destruct H2 as [-> | ->].
  - change (Py.int_of_num (or0n (Py.Int 0))) with (@inr Py.exn Z 0).
    intros E. injection E as <-. split; [reflexivity | left; reflexivity].
  - change (Py.int_of_num (or0n (Py.Flt (Py.of_Z 4000000))))
      with (@inr Py.exn Z 4000000).
    intros E. injection E as <-. split; [reflexivity | right; reflexivity].
Qed.

(** The device table holds the constants, and so does every snapshot
    written so far. *)
Definition rates_are_constant (w : World) : Prop :=
  every stubbed w
  /\ Forall (fun s => Forall constant_rates (ues s)) (out_lines w).

Lemma rates_by_parts {A} (c : M World A) :
  keeps out_lines c -> preserves (every stubbed) c ->
  preserves rates_are_constant c.
Proof.
  intros Hk Hp w (H1 & H2). split; [apply Hp, H1 | rewrite Hk; exact H2].
Qed.

Lemma rates_emission env cfg reason ref :
  preserves rates_are_constant (emit_for env cfg reason ref).
Proof.
  intros w (H1 & H2). unfold emit_for.
  rewrite (bind_ok (gets (ue ref)) _ w (ue ref w) w eq_refl).
  rewrite emit_snapshot_result.
  destruct (ue_record (ue ref w)) as [e|r] eqn:Hr; [split; assumption|].
  split; [exact H1|]. cbn [final emitted out_lines].
  apply Forall_app. split; [exact H2|].
  constructor; [|constructor]. constructor; [|constructor].
  exact (stubbed_record _ _ (every_lookup w ref H1) Hr).
Qed.

Lemma rates_process_line env cfg fuel line :
  preserves rates_are_constant (process_line env cfg fuel line).
Proof.
  assert (Hk : forall m, keeps out_lines (ul_bytes_update env m)
                         /\ keeps out_lines (lcid_update m)).
  { intros m.
    destruct (keeps_updates out_lines env m ltac:(split; reflexivity))
      as (_ & _ & _ & _ & _ & K1 & K2).
    split; [apply K1 | apply K2]; intros n w; reflexivity. }
  apply preserves_process_line.
  - apply rates_by_parts; [|apply keeps_state_every];
      apply keeps_incr; reflexivity.
  - intros m. apply rates_by_parts;
      [apply (keeps_lines out_lines m) | apply (updates_keep_rates env m)];
      repeat split.
  - intros m. apply rates_by_parts;
      [apply (keeps_lines out_lines m) | apply (updates_keep_rates env m)];
      repeat split.
  - intros m. apply rates_by_parts;
      [apply (keeps_lines out_lines m) | apply (updates_keep_rates env m)];
      repeat split.
  - intros m. apply rates_by_parts;
      [apply (keeps_lines out_lines m) | apply (updates_keep_rates env m)];
      repeat split.
  - intros m. apply rates_by_parts;
      [apply keeps_dl_bytes_line | apply (updates_keep_rates env m)];
      repeat split.
  - intros m w Hw. rewrite ul_bytes_line_split. revert w Hw.
    apply preserves_bind; [|intros ref; apply rates_emission].
    apply rates_by_parts; [apply Hk | apply (updates_keep_rates env m)].
  - intros m w Hw. rewrite lcid_line_split. revert w Hw.
    apply preserves_bind; [|intros ref; apply rates_emission].
    apply rates_by_parts; [apply Hk | apply (updates_keep_rates env m)].
  - apply rates_by_parts; [|apply keeps_state_every];
      apply keeps_flush; repeat split.
Qed.

(** X13. The bitrates the monitor reports do not depend on the traffic:
    every snapshot written after any sequence of lines processed since
    start-up has the downlink bitrate 4000000, and the uplink bitrate 0 or
    4000000, whatever byte counters and clock readings the lines carried. *)
Theorem reported_bitrates_are_constant :
  forall env cfg fuel lines,
    Forall (fun s => Forall constant_rates (ues s))
      (out_lines (after env cfg fuel lines initial)).
Proof.
  intros env cfg fuel lines.
  apply (after_preserves env cfg fuel rates_are_constant).
  - intros line. apply rates_process_line.
  - split; [|constructor]. intros key u H. simpl in H.
    rewrite lookup_empty in H. discriminate.
Qed.

(** ** The exceptions a line can raise *)


Section RaisesOnly.
Context {S : Type} (P : Py.exn -> Prop).









End RaisesOnly.








(** *** The numbers of a header *)












(** *** The branches *)







(** A schedule report with one scheduled unit and an error counter of 400
    digits: the drop rate is beyond the float range. *)
Definition line_overflow : string :=
  String.append "UE 64: dlsch_rounds 1/0/0/0, dlsch_errors 1"
    (String.append (Py.lower (string_of_list_ascii (repeat "0"%char 400)))
       ", pucch0_DTX 0, BLER 0.05 MCS 10").


(** That line does raise. *)
Example overflow_is_raised :
  match process_line env0 default_config 0 line_overflow initial with
  | Raise e _ => e = Py.OverflowError
  | _ => False
  end.
Proof. vm_compute. reflexivity. Qed.

(** ** Reading a whole log *)

Lemma bind_returns {S A B} (c : M S A) (k : A -> M S B) s b s' :
  bind c k s = Ok b s' -> exists a s1, c s = Ok a s1 /\ k a s1 = Ok b s'.
Proof.
  unfold bind. destruct (c s) as [a s1|e s1|s1]; intros H; try discriminate H.
  exists a, s1. auto.
Qed.

(** The device of each record of each snapshot of the structured log. *)
Definition logged (w : World) : list (list Z) :=
  List.map (fun s => List.map rnti (ues s)) (out_lines w).

(** The device a line triggers a snapshot of, if it triggers one. *)
Definition trigger (line : string) : option Z :=
  match classify line with
  | UlBytes m | Lcid m => _parse_rnti (Re.group m "rnti")
  | _ => None
  end.

Lemma logged_by_out_lines w w' : out_lines w' = out_lines w -> logged w' = logged w.
Proof. unfold logged. intros ->. reflexivity. Qed.

(** What a line adds to the structured log. *)
Lemma process_line_logs env cfg fuel line w :
  wf_world w ->
  logged (final (process_line env cfg fuel line w))
  = logged w ++ match trigger line with Some id => [[id]] | None => [] end.
Proof.
  intros Hw. destruct (emits (classify line)) eqn:He.
  - assert (Hc : exists m, classify line = UlBytes m \/ classify line = Lcid m).
    { destruct (classify line); try discriminate; eauto. }
    destruct Hc as (m & Hc).
    destruct (handle_emits env cfg fuel line w m Hw Hc)
      as (id & r & w1 & Hp & Hid & _ & Ho & E).
    assert (Ht : trigger line = Some id).
    { unfold trigger. destruct Hc as [-> | ->]; exact Hp. }
    rewrite Ht, E.
    rewrite (logged_by_out_lines (emitted env cfg r w1) _
               (keeps_flush out_lines env cfg fuel false
                  out_lines_beyond_delivery _)).
    injection Ho as Ho _ _. unfold logged. simpl. rewrite Ho, map_app. simpl.
    rewrite Hid. reflexivity.
  - assert (Ht : trigger line = None).
    { unfold trigger. destruct (classify line); try discriminate; reflexivity. }
    rewrite Ht, app_nil_r. apply logged_by_out_lines.
    rewrite process_line_handle.
    exact (keeps_handle_sinks out_lines env cfg fuel _ ltac:(repeat split)
             out_lines_beyond_delivery He (counted w)).
Qed.

Lemma read_lines_logs env cfg fuel lines :
  forall w w',
    wf_world w ->
    read_lines env cfg fuel lines w = Ok tt w' ->
    wf_world w'
    /\ logged w' = logged w ++ List.map (fun id => [id]) (omap trigger lines).
Proof.
  induction lines as [|line lines IH]; intros w w' Hw H.
  - injection H as <-. rewrite app_nil_r. auto.
  - cbn [read_lines] in H.
    apply bind_returns in H as ([] & w1 & E1 & H).
    apply bind_returns in H as ([] & w2 & E2 & H).
    pose proof (process_line_wf env cfg fuel line w Hw) as Hw1.
    pose proof (process_line_logs env cfg fuel line w Hw) as Hl1.
    rewrite E1 in Hw1, Hl1. cbn [final] in Hw1, Hl1.
    assert (Hw2 : wf_world w2).
    { pose proof (keeps_flush state env cfg fuel false state_beyond_delivery w1)
        as K. rewrite E2 in K. exact (wf_by_state _ _ K Hw1). }
    assert (Hl2 : logged w2 = logged w1).
    { apply logged_by_out_lines.
      pose proof (keeps_flush out_lines env cfg fuel false
                    out_lines_beyond_delivery w1) as K.
      rewrite E2 in K. exact K. }
    destruct (IH w2 w' Hw2 H) as (Hw' & Hl'). split; [exact Hw'|].
    rewrite Hl', Hl2, Hl1, <- app_assoc. f_equal. cbn [omap list_omap].
    change (omap trigger (line :: lines))
      with (match trigger line with
            | Some id => id :: omap trigger lines
            | None => omap trigger lines
            end).
    destruct (trigger line); reflexivity.
Qed.

Lemma stream_returns env cfg fuel lines w w'' :
  stream_gnb_log env cfg fuel lines w = Ok tt w'' ->
  exists w', read_lines env cfg fuel lines w = Ok tt w'
             /\ _maybe_post_flush env cfg fuel true w' = Ok tt w''.
Proof.
  unfold stream_gnb_log.
  destruct (read_lines env cfg fuel lines w) as [[] w'|e w'|w'];
    intros H; [eauto | | discriminate H].
  destruct (_maybe_post_flush env cfg fuel true w'); discriminate H.
Qed.

(** X15. When [stream_gnb_log] returns from a log read once from start-up,
    the structured log holds one snapshot for each uplink byte-counter or
    LCID line of the input and nothing else, in the order of the lines;
    each snapshot holds one record, of the device its line names. *)
Theorem stream_logs_the_triggers :
  forall env cfg fuel lines w,
    stream_gnb_log env cfg fuel lines initial = Ok tt w ->
    logged w = List.map (fun id => [id]) (omap trigger lines).
Proof.
  intros env cfg fuel lines w H.
  apply stream_returns in H as (w' & Hread & Hflush).
  destruct (read_lines_logs env cfg fuel lines initial w' wf_initial Hread)
    as (_ & Hl).
  change (logged initial) with (@nil (list Z)) in Hl. cbn [app] in Hl.
  rewrite <- Hl. apply logged_by_out_lines.
  pose proof (keeps_flush out_lines env cfg fuel true out_lines_beyond_delivery
                w') as K.
  rewrite Hflush in K. exact K.
Qed.

Lemma stream_logs_the_triggers_witness :
  logged (final (stream_gnb_log env0 cfg_latest 3
                   (scenario ++ [line_lcid]) initial))
  = [[64]; [64]].
Proof.
  assert (H : exists w, stream_gnb_log env0 cfg_latest 3
                          (scenario ++ [line_lcid]) initial = Ok tt w).
  { eexists. vm_compute. reflexivity. }
  destruct H as (w & H). rewrite H. cbn [final].
  rewrite (stream_logs_the_triggers _ _ _ _ _ H). vm_compute. reflexivity.
Defined.

(** X16. With delivery configured in single-slot-latest mode, nothing is
    left in the buffer when [stream_gnb_log] returns: the flush of its
    [finally] clause is forced, so it does not wait for the send interval,
    and it empties the slot whether its delivery succeeds or fails. A last
    snapshot whose delivery fails is not sent again. *)
Theorem stream_leaves_no_latest :
  forall env cfg fuel lines w w'' url,
    post_url cfg = Some url ->
    _ONE_AT_A_TIME cfg = true ->
    _SEND_ORDER cfg = "latest" ->
    stream_gnb_log env cfg fuel lines w = Ok tt w'' ->
    _buffer w'' = [].
Proof.
  intros env cfg fuel lines w w'' url Hurl Hone Hlatest H.
  apply stream_returns in H as (w' & _ & Hflush).
  destruct (_buffer w') as [|first rest] eqn:Hbuf.
  - rewrite flush_empty_buffer in Hflush by assumption.
    injection Hflush as <-. exact Hbuf.
  - rewrite (flush_one_at_a_time env cfg fuel true w' url first rest Hurl Hone
               Hbuf eq_refl) in Hflush.
    rewrite (latest_is_not_fifo cfg Hlatest) in Hflush.
    match type of Hflush with
    | context [_http_post_json ?e ?f ?u ?o ?t ?r ?x] =>
        pose proof (keeps_http _buffer e f u o t r (fun _ _ => eq_refl)
                      (fun _ _ => eq_refl) x) as K;
        destruct (_http_post_json e f u o t r x) as [[|] w2|e' w2|w2]
    end; try discriminate Hflush; injection Hflush as <-; exact K.
Qed.

Lemma stream_leaves_no_latest_witness :
  _buffer (final (stream_gnb_log env_down cfg_latest 5 scenario initial)) = [].
Proof.
  assert (H : exists w, stream_gnb_log env_down cfg_latest 5 scenario initial
                        = Ok tt w).
  { eexists. vm_compute. reflexivity. }
  destruct H as (w & H). rewrite H. cbn [final].
  exact (stream_leaves_no_latest env_down cfg_latest 5 scenario initial w
           "http://h/ingest" eq_refl eq_refl eq_refl H).
Defined.

(** X17. With delivery configured in FIFO one-at-a-time mode, the forced
    flush that ends [stream_gnb_log] posts the head of the queue and nothing
    more: when the function returns, every snapshot that was queued behind
    the head after the last line is still in the buffer, unsent. *)
Theorem stream_leaves_the_fifo_queue :
  forall env cfg fuel lines w w'' url,
    post_url cfg = Some url ->
    _ONE_AT_A_TIME cfg = true ->
    _SEND_ORDER cfg = "fifo" ->
    stream_gnb_log env cfg fuel lines w = Ok tt w'' ->
    exists w',
      read_lines env cfg fuel lines w = Ok tt w'
      /\ (_buffer w'' = _buffer w' \/ _buffer w'' = List.tl (_buffer w'))
      /\ Forall (fun rq => exists item rest,
                             _buffer w' = item :: rest /\ req_data rq = One item)
           (skipn (length (requests w')) (requests w'')).
Proof.
  intros env cfg fuel lines w w'' url Hurl Hone Hfifo H.
  apply stream_returns in H as (w' & Hread & Hflush).
  exists w'. split; [exact Hread|].
  destruct (_buffer w') as [|first rest] eqn:Hbuf.
  - rewrite flush_empty_buffer in Hflush by assumption.
    injection Hflush as <-. split; [left; exact Hbuf|].
    rewrite skipn_all. constructor.
  - rewrite (flush_one_at_a_time env cfg fuel true w' url first rest Hurl Hone
               Hbuf eq_refl) in Hflush.
    rewrite Hfifo in Hflush.
    change (String.eqb "fifo" "fifo") with true in Hflush. cbv iota in Hflush.
    match type of Hflush with
    | context [_http_post_json ?e ?f ?u ?o ?t ?r ?x] =>
        pose proof (keeps_http _buffer e f u o t r (fun _ _ => eq_refl)
                      (fun _ _ => eq_refl) x) as K;
        pose proof (post_loop_delivered e f o t r 0 _BACKOFF_BASE u 0 x)
          as ((_ & new & Hnew & Hall) & _);
        fold (_http_post_json e f u o t r x) in Hnew;
        destruct (_http_post_json e f u o t r x) as [[|] w2|e' w2|w2]
    end; try discriminate Hflush; injection Hflush as <-;
      cbn [final] in K, Hnew; simpl in K, Hnew |- *.
    + split; [right; exact K|].
      rewrite Hnew, skipn_app, Nat.sub_diag, skipn_all. cbn [skipn app].
      eapply Forall_impl; [exact Hall|]. intros rq (_ & Hd & _). eauto.
    + split; [left; rewrite K; reflexivity|].
      rewrite Hnew, skipn_app, Nat.sub_diag, skipn_all. cbn [skipn app].
      eapply Forall_impl; [exact Hall|]. intros rq (_ & Hd & _). eauto.
Qed.

(** Three LCID lines of three devices. *)
Definition three_devices : list string :=
  ["UE 1: LCID 4: 10 bytes TX"; "UE 2: LCID 4: 10 bytes TX";
   "UE 3: LCID 4: 10 bytes TX"].

(** A clock that does not advance. *)
Definition env_frozen : Env :=
  {| clock := fun _ => 7;
     server := fun _ _ => Response 200;
     urljoin := fun _ loc => loc |}.

Lemma stream_leaves_the_fifo_queue_witness :
  exists w w',
    stream_gnb_log env_frozen cfg_fifo 3 three_devices initial = Ok tt w
    /\ read_lines env_frozen cfg_fifo 3 three_devices initial = Ok tt w'
    /\ (_buffer w = _buffer w' \/ _buffer w = List.tl (_buffer w')).
Proof.
  assert (H : exists w, stream_gnb_log env_frozen cfg_fifo 3 three_devices
                          initial = Ok tt w).
  { eexists. vm_compute. reflexivity. }
  destruct H as (w & H). exists w.
  destruct (stream_leaves_the_fifo_queue env_frozen cfg_fifo 3 three_devices
              initial w "http://h/ingest" eq_refl eq_refl eq_refl H)
    as (w' & Hr & Hb & _).
  exists w'. auto.
Defined.

(** With that clock one snapshot is delivered while the lines are read, one
    by the final flush, and the third is still queued at the end. *)
Example one_snapshot_is_left :
  List.map (fun s => List.map rnti (ues s))
    (_buffer (final (stream_gnb_log env_frozen cfg_fifo 3 three_devices initial)))
  = [[3]].
Proof. vm_compute. reflexivity. Qed.

(** ** The tabular sink *)

(** The [fieldnames] that [_set_csv_output] gives the [csv.DictWriter], the
    header of the CSV file. *)
Definition fieldnames : list string :=
  ["timestamp"; "source"; "pci"; "rnti";
   "dl_cqi"; "dl_ri"; "dl_mcs"; "dl_bitrate"; "dl_packets_ok";
   "dl_packets_nok"; "dl_drop_rate"; "dl_buffer_status";
   "ul_pusch_sinr"; "ul_rsrp"; "ul_ri"; "ul_mcs"; "ul_bitrate";
   "ul_packets_ok"; "ul_packets_nok"; "ul_drop_rate"; "ul_bsr";
   "ul_timing_advance"; "ul_phr"].

(** The values of a record, in the order of the columns. *)
Definition cells (ts : Z) (src : string) (r : UeRecord) : list cell :=
  [CInt ts; CStr src; CInt (pci r); CInt (rnti r);
   CInt (down_cqi (downlink r)); CInt (down_ri (downlink r));
   CInt (down_mcs (downlink r)); CInt (down_bitrate (downlink r));
   CInt (down_packets_ok (downlink r)); CInt (down_packets_nok (downlink r));
   CFloat (down_drop_rate (downlink r));
   CInt (down_buffer_status (downlink r));
   CFloat (up_pusch_sinr (uplink r)); CFloat (up_rsrp (uplink r));
   CInt (up_ri (uplink r)); CInt (up_mcs (uplink r));
   CInt (up_bitrate (uplink r)); CInt (up_packets_ok (uplink r));
   CInt (up_packets_nok (uplink r)); CFloat (up_drop_rate (uplink r));
   CInt (up_bsr (uplink r)); CInt (up_timing_advance (uplink r));
   CFloat (up_phr (uplink r))].

Lemma or0_same x : or0 x = x.
Proof. unfold or0. destruct (Z.eqb_spec x 0); congruence. Qed.

Lemma or0f_again x : or0f (or0f x) = or0f x.
Proof. unfold or0f. destruct (Py.ftruthy x) eqn:E; [rewrite E|]; reflexivity. Qed.

Lemma or0f_of_opt x : or0f (opt_or0f x) = opt_or0f x.
Proof. destruct x as [x|]; [apply or0f_again | reflexivity]. Qed.

(** X18. The two sinks agree. The CSV row of a record that
    [_emit_snapshot] built has exactly the columns of the header, in its
    order, and under each column the value the JSON record has in the
    matching field: the defaults that [_write_csv_rows] applies once more
    change nothing. *)
Theorem csv_row_matches_record :
  forall u r ts src,
    ue_record u = inr r ->
    csv_row ts src r = combine fieldnames (cells ts src r).
Proof.
  intros u r ts src H. unfold ue_record in H.
  destruct (Py.int_of_num _); [discriminate H|].
  destruct (Py.int_of_num _); [discriminate H|].
  injection H as <-. unfold csv_row, cells, fieldnames.
  cbn [combine pci rnti downlink uplink down_cqi down_ri down_mcs down_bitrate
         down_packets_ok down_packets_nok down_drop_rate down_buffer_status
         up_pusch_sinr up_rsrp up_ri up_mcs up_bitrate up_packets_ok
         up_packets_nok up_drop_rate up_bsr up_timing_advance up_phr].
  rewrite !or0_same, !or0f_again, !or0f_of_opt. reflexivity.
Qed.

Lemma csv_row_matches_record_witness :
  csv_row 1 "OAI" record4 = combine fieldnames (cells 1 "OAI" record4).
Proof.
  apply (csv_row_matches_record (ue 64 (world4 env0))). vm_compute. reflexivity.
Defined.

(** * parserSRS: the values of a metrics line *)

(** ** [float()] on any text *)

Module PyFloat.

(** The text without the underscores that stand between two digits; [None]
    when an underscore stands anywhere else. [prev] is the character before
    the text. *)
Fixpoint without_underscores (prev : option ascii) (s : string)
    : option string :=
  match s with
  | EmptyString => Some EmptyString
  | String c s' =>
      if Ascii.eqb c "_"
      then match prev, s' with
           | Some p, String n _ =>
               if Py.isdecimal p && Py.isdecimal n
               then without_underscores (Some c) s'
               else None
           | _, _ => None
           end
      else match without_underscores (Some c) s' with
           | Some r => Some (String c r)
           | None => None
           end
  end.

(** The longest run of decimal digits at the start of a text, and what
    follows it. *)
Fixpoint digits (s : string) : string * string :=
  match s with
  | String c s' =>
      if Py.isdecimal c
      then let '(d, r) := digits s' in (String c d, r)
      else (EmptyString, s)
  | EmptyString => (EmptyString, EmptyString)
  end.

(** An optional sign. *)
Definition sign (s : string) : bool * string :=
  match s with
  | String "-" s' => (true, s')
  | String "+" s' => (false, s')
  | _ => (false, s)
  end.

(** The exponent part, which is the whole rest of the text: nothing, or
    [e] or [E], an optional sign and one digit or more. *)
Definition exponent (s : string) : option Z :=
  match s with
  | EmptyString => Some 0
  | String c s' =>
      if Ascii.eqb (Py.lower_char c) "e"
      then let '(neg, s'') := sign s' in
           match digits s'' with
           | (String d ds, EmptyString) =>
               let v := Py.digits_value 0 (String d ds) in
               Some (if neg then - v else v)
           | _ => None
           end
      else None
  end.

(** The binary64 value nearest to [m * 10 ^ e], with the sign [neg]; an
    infinity when that is beyond the range. *)
Definition nearest (neg : bool) (m e : Z) : Py.float :=
  if m =? 0 then S754_zero neg
  else
    let m := if neg then - m else m in
    if 0 <=? e
    then binary_normalize Py.prec Py.emax (m * 10 ^ e) 0 neg
    else Py.fdiv (Py.exact m) (Py.exact (10 ^ (- e))).

(** A number in decimal notation, or an infinity, or a NaN. *)
Definition literal (s : string) : option Py.float :=
  let '(neg, body) := sign s in
  let l := Py.lower body in
  if String.eqb l "inf" || String.eqb l "infinity" then Some (S754_infinity neg)
  else if String.eqb l "nan" then Some S754_nan
  else
    let '(i, after_i) := digits body in
    let '(f, after_f) :=
      match after_i with
      | String "." s' => digits s'
      | _ => (EmptyString, after_i)
      end in
    if negb (Py.nonempty i) && negb (Py.nonempty f) then None
    else
      match exponent after_f with
      | Some e =>
          Some (nearest neg (Py.digits_value (Py.digits_value 0 i) f)
                  (e - Z.of_nat (String.length f)))
      | None => None
      end.

(** [float(s)]; [None] is a [ValueError]. Blanks around the text are
    dropped, single underscores may stand between digits, and the value is
    the nearest binary64 number; a number beyond the range reads as an
    infinity. *)
Definition float (s : string) : option Py.float :=
  match without_underscores None (Py.strip s) with
  | Some t => literal t
  | None => None
  end.

End PyFloat.

(** ** The program *)

Module Srs.

(** What [convert_value] returns: an [int], a [float], the text itself, or
    [None]. *)
Inductive value : Type :=
| VInt (z : Z)
| VFloat (x : float)
| VStr (s : string)
| VNone.

(** [int(float(text) * factor)] *)
Definition scaled (text : string) (factor : Z) : Py.exn + value :=
  match PyFloat.float text with
  | None => inl Py.ValueError
  | Some x =>
      match Py.int_of_float (Py.fmul x (Py.of_Z factor)) with
      | inl e => inl e
      | inr z => inr (VInt z)
      end
  end.

(** The decimal digits of a text. *)
Fixpoint count_digits (s : string) : nat :=
  match s with
  | EmptyString => O
  | String c s' =>
      if Py.isdecimal c then S (count_digits s') else count_digits s'
  end.

(** [int(s)]; [None] is a [ValueError], also the one raised for a number of
    more than [max_str_digits] digits. *)
Definition int (s : string) : option Z :=
  match Py.int 10 s with
  | Some z => if (max_str_digits <? count_digits s)%nat then None else Some z
  | None => None
  end.

Definition convert_value (val : string) : Py.exn + value :=
  if Py.endswith_char (Py.lower val) "k" then scaled (Py.drop_last val) 1000
  else if Py.endswith_char (Py.lower val) "M"
  then scaled (Py.drop_last val) 1000000
  else if Py.endswith_char val "%" then
    match int (Py.drop_last val) with
    | Some z => inr (VInt z)
    | None => inl Py.ValueError
    end
  else if String.eqb (Py.lower val) "n/a" then inr VNone
  else
    match int val with
    | Some z => inr (VInt z)
    | None =>
        match PyFloat.float val with
        | Some x => inr (VFloat x)
        | None => inr (VStr val)
        end
    end.

(** [\S] *)
Definition nonspace : ascii -> bool := fun c => negb (Py.isspace c).

(** The group number [n]. *)
Definition G (n : string) (p : ascii -> bool) : Re.re := Re.Group n (Re.Plus p).

(** The pattern of a metrics line: ten columns, a bar, seven columns. *)
Definition pattern : Re.re :=
  Re.seq
    [Re.Star Re.sp; G "1" Re.d; Re.Plus Re.sp; G "2" Re.d;
     Re.Plus Re.sp; G "3" nonspace; Re.Plus Re.sp; G "4" Re.d;
     Re.Plus Re.sp; G "5" Re.d; Re.Plus Re.sp; G "6" nonspace;
     Re.Plus Re.sp; G "7" Re.d; Re.Plus Re.sp; G "8" Re.d;
     Re.Plus Re.sp; G "9" nonspace; Re.Plus Re.sp; G "10" Re.d;
     Re.Star Re.sp; Re.Chr "|"; Re.Star Re.sp; G "11" nonspace;
     Re.Plus Re.sp; G "12" Re.d; Re.Plus Re.sp; G "13" nonspace;
     Re.Plus Re.sp; G "14" Re.d; Re.Plus Re.sp; G "15" Re.d;
     Re.Plus Re.sp; G "16" nonspace; Re.Plus Re.sp; G "17" Re.d].

(** [pattern.match(s)]: a match that starts at the first character. *)
Definition match_ (r : Re.re) (s : string) : option Re.caps :=
  Re.exec r None s [] Re.accept.

(** [match.groups()] *)
Definition groups (m : Re.caps) : list string :=
  List.map (Re.group m)
    ["1"; "2"; "3"; "4"; "5"; "6"; "7"; "8"; "9"; "10"; "11"; "12"; "13";
     "14"; "15"; "16"; "17"].

(** A JSON document: the [json=] argument of [requests.post]. *)
#[warnings="-register-all"] Inductive json : Type :=
| JVal (v : value)
| JObj (fields : list (string * json))
| JArr (items : list json).

(** What the program obtains from outside: the clock, in milliseconds, at
    its n-th reading, and the status of the response to the n-th request,
    or [None] when [requests.post] raises. *)
Record Env : Type := mkEnv {
  now_ms : nat -> Z;
  respond : nat -> json -> option Z }.

(** What the program prints: [Sending], [Warning: HTTP] with the status, or
    [Error sending data] (with the text of the exception, which is left
    out). *)
Inductive message : Type :=
| Sending
| Warning_HTTP (status : Z)
| Error_sending_data.

(** The CSV file, the count of measurements, the requests made, the lines
    printed and the number of clock readings. *)
Record World : Type := mkWorld {
  csv : list (list value);
  line_count : Z;
  posted : list json;
  printed : list message;
  readings : nat }.

Definition send_every : Z := 10.

(** The names of the columns of the CSV file. *)
Definition columns : list string :=
  ["timestamp"; "pci"; "rnti";
   "cqi_dl"; "ri_dl"; "mcs_dl"; "brate_dl"; "ok_dl"; "nok_dl"; "perc_dl";
   "dl_bs";
   "pusch_ul"; "mcs_ul"; "brate_ul"; "ok_ul"; "nok_ul"; "perc_ul"; "bsr"].

(** The header of the CSV file. *)
Definition header : list value := List.map VStr columns.

(** The first [with open(csv_file, "a")]: the header goes into a file that
    is new or empty. *)
Definition write_header (file : list (list value)) : list (list value) :=
  match file with [] => [header] | _ => file end.

(** The state when the loop starts, given what the CSV file holds. *)
Definition start (file : list (list value)) : World :=
  {| csv := write_header file; line_count := 0; posted := []; printed := [];
     readings := 0 |}.

(** [values[i]] *)
Definition at_ (values : list value) (i : nat) : value := nth i values VNone.

(** The [srsRANData] dict. *)
Definition srsRANData (timestamp : Z) (values : list value) : json :=
  JObj
    [("timestamp", JVal (VInt timestamp));
     ("source", JVal (VStr "srsRAN"));
     ("ues",
      JArr
        [JObj
           [("pci", JVal (at_ values 0));
            ("rnti", JVal (at_ values 1));
            ("downlink",
             JObj [("cqi", JVal (at_ values 2));
                   ("ri", JVal (at_ values 3));
                   ("mcs", JVal (at_ values 4));
                   ("bitrate", JVal (at_ values 5));
                   ("packets_ok", JVal (at_ values 6));
                   ("packets_nok", JVal (at_ values 7));
                   ("drop_rate", JVal (at_ values 8));
                   ("buffer_status", JVal (at_ values 9))]);
            ("uplink",
             JObj [("pusch_sinr", JVal (at_ values 10));
                   ("mcs", JVal (at_ values 11));
                   ("bitrate", JVal (at_ values 12));
                   ("packets_ok", JVal (at_ values 13));
                   ("packets_nok", JVal (at_ values 14));
                   ("drop_rate", JVal (at_ values 15));
                   ("bsr", JVal (at_ values 16))])]])].

(** [[convert_value(v) for v in groups]] *)
Fixpoint convert_all (texts : list string) : M World (list value) :=
  match texts with
  | [] => ret []
  | t :: rest =>
      v <- lift (convert_value t) ;;
      vs <- convert_all rest ;;
      ret (v :: vs)
  end.

Section Loop.

Variable env : Env.

Definition time_ms : M World Z :=
  fun w =>
    Ok (now_ms env (readings w))
       (mkWorld (csv w) (line_count w) (posted w) (printed w) (S (readings w))).

Definition print (text : message) : M World unit :=
  modify (fun w =>
    mkWorld (csv w) (line_count w) (posted w) (printed w ++ [text]) (readings w)).

Definition writerow (row : list value) : M World unit :=
  modify (fun w =>
    mkWorld (csv w ++ [row]) (line_count w) (posted w) (printed w) (readings w)).

(** The [try] around [requests.post]: the request is made, and what comes
    of it is printed. *)
Definition post (data : json) : M World unit :=
  fun w =>
    let w' := mkWorld (csv w) (line_count w) (posted w ++ [data]) (printed w)
                (readings w) in
    match respond env (length (posted w)) data with
    | Some status =>
        (print Sending ;;
         if negb (status =? 200) then print (Warning_HTTP status) else ret tt)
          w'
    | None => print Error_sending_data w'
    end.

(** The body of the [while True], for a line that was read. *)
Definition on_line (line : string) : M World unit :=
  let line := Py.strip line in
  if negb (Py.nonempty line) || Py.startswith line "pci"
     || Py.startswith line "-"
  then ret tt
  else
    match match_ pattern line with
    | None => ret tt
    | Some m =>
        values <- convert_all (groups m) ;;
        timestamp <- time_ms ;;
        writerow (VInt timestamp :: values) ;;
        modify (fun w =>
          mkWorld (csv w) (line_count w + 1) (posted w) (printed w)
            (readings w)) ;;
        n <- gets line_count ;;
        if n mod send_every =? 0
        then post (srsRANData timestamp values)
        else ret tt
    end.

(** The lines that are read, one after the other; an exception ends the
    program. *)
Fixpoint on_lines (lines : list string) : M World unit :=
  match lines with
  | [] => ret tt
  | line :: rest => on_line line ;; on_lines rest
  end.

End Loop.

End Srs.

(** ** The rows and the reports of parserSRS *)

(** The elements of a list whose position, counted from [k] on, is a
    multiple of [send_every]. *)
Fixpoint every_tenth {A} (k : Z) (rows : list A) : list A :=
  match rows with
  | [] => []
  | r :: rest =>
      if k mod Srs.send_every =? 0
      then r :: every_tenth (k + 1) rest
      else every_tenth (k + 1) rest
  end.

(** The report that is made of a row of the CSV file. *)
Definition report (row : list Srs.value) : Srs.json :=
  match row with
  | Srs.VInt timestamp :: values => Srs.srsRANData timestamp values
  | _ => Srs.JObj []
  end.

(** What holds of the state of the loop, for the CSV file it found. *)
Definition tallied (file : list (list Srs.value)) (w : Srs.World) : Prop :=
  exists rows,
    Srs.csv w = Srs.write_header file ++ rows
    /\ Srs.line_count w = Z.of_nat (length rows)
    /\ Srs.posted w = List.map report (every_tenth 1 rows)
    /\ Z.of_nat (length (Srs.posted w)) = Srs.line_count w / Srs.send_every
    /\ Forall (fun row => length row = length Srs.header) rows.

Lemma every_tenth_app {A} (l : list A) r :
  forall k,
    every_tenth k (l ++ [r])
    = every_tenth k l
      ++ (if (k + Z.of_nat (length l)) mod Srs.send_every =? 0 then [r] else []).
Proof.
  induction l as [|x l IH]; intros k.
  - simpl. rewrite Z.add_0_r. destruct (_ =? 0); reflexivity.
  - cbn [app every_tenth length]. rewrite !IH.
    replace (k + 1 + Z.of_nat (length l)) with (k + Z.of_nat (S (length l)))
      by lia.
    destruct (k mod Srs.send_every =? 0); reflexivity.
Qed.

Lemma convert_all_result texts (w : Srs.World) :
  match Srs.convert_all texts w with
  | Ok vs w' => w' = w /\ length vs = length texts
  | Raise _ w' => w' = w
  | Diverge _ => False
  end.
Proof.
  induction texts as [|t texts IH]; [split; reflexivity|].
  cbn [Srs.convert_all]. unfold bind at 1, lift.
  destruct (Srs.convert_value t) as [e|v]; [reflexivity|].
  unfold ret at 1. unfold bind.
  destruct (Srs.convert_all texts w) as [vs w'|e w'|w']; try exact IH.
  destruct IH as (-> & E). split; [reflexivity | simpl; rewrite E; reflexivity].
Qed.

Lemma tallied_start file : tallied file (Srs.start file).
Proof.
  exists []. cbn [Srs.start Srs.csv Srs.line_count Srs.posted length
                    every_tenth List.map].
  rewrite app_nil_r. repeat split. constructor.
Qed.

Lemma tallied_on_line env file line w :
  tallied file w -> tallied file (final (Srs.on_line env line w)).
Proof.
  intros Hw. unfold Srs.on_line.
  destruct (_ || _); [exact Hw|].
  destruct (Srs.match_ Srs.pattern (Py.strip line)) as [m|]; [|exact Hw].
  unfold bind at 1.
  pose proof (convert_all_result (Srs.groups m) w) as Hc.
  destruct (Srs.convert_all (Srs.groups m) w) as [vs w1|e w1|w1];
    [destruct Hc as (-> & Hlen) | subst w1; exact Hw | contradiction].
  destruct Hw as (rows & H1 & H2 & H3 & H4 & H5).
  set (ts := Srs.now_ms env (Srs.readings w)).
  assert (Hrows : Forall (fun row => length row = length Srs.header)
                    (rows ++ [Srs.VInt ts :: vs])).
  { apply Forall_app. split; [exact H5|]. constructor; [|constructor].
    simpl. rewrite Hlen. reflexivity. }
  assert (Hsent : every_tenth 1 (rows ++ [Srs.VInt ts :: vs])
                  = every_tenth 1 rows
                    ++ (if (Srs.line_count w + 1) mod Srs.send_every =? 0
                        then [Srs.VInt ts :: vs] else [])).
  { rewrite every_tenth_app, H2.
    replace (1 + Z.of_nat (length rows)) with (Z.of_nat (length rows) + 1)
      by lia.
    reflexivity. }
  unfold bind, Srs.time_ms, Srs.writerow, modify, gets.
  cbn [Srs.line_count Srs.csv Srs.posted Srs.printed Srs.readings].
  fold ts.
  destruct ((Srs.line_count w + 1) mod Srs.send_every =? 0) eqn:E.
  - apply Z.eqb_eq in E.
    assert (Hw' : forall p r,
              tallied file
                (Srs.mkWorld (Srs.csv w ++ [Srs.VInt ts :: vs])
                   (Srs.line_count w + 1)
                   (Srs.posted w ++ [Srs.srsRANData ts vs]) p r)).
    { intros p r. exists (rows ++ [Srs.VInt ts :: vs]).
      cbn [Srs.csv Srs.line_count Srs.posted].
      rewrite H1, Hsent, !length_app, <- app_assoc. cbn [length].
      split; [reflexivity|]. split; [lia|].
      split; [rewrite H3, List.map_app; reflexivity|].
      split; [|exact Hrows].
      unfold Srs.send_every in *. Z.div_mod_to_equations. lia. }
    unfold Srs.post.
    cbn [Srs.line_count Srs.csv Srs.posted Srs.printed Srs.readings].
    destruct (Srs.respond env _ _) as [status|];
      unfold bind, Srs.print, modify, ret; [destruct (negb _)|];
      cbn [final Srs.line_count Srs.csv Srs.posted Srs.printed Srs.readings];
      apply Hw'.
  - apply Z.eqb_neq in E. unfold ret. cbn [final].
    exists (rows ++ [Srs.VInt ts :: vs]).
    cbn [Srs.csv Srs.line_count Srs.posted].
    rewrite H1, Hsent, !length_app, <- app_assoc, app_nil_r. cbn [length].
    split; [reflexivity|]. split; [lia|].
    split; [exact H3|]. split; [|exact Hrows].
    unfold Srs.send_every in *. Z.div_mod_to_equations. lia.
Qed.

Lemma tallied_on_lines env file lines :
  forall w, tallied file w -> tallied file (final (Srs.on_lines env lines w)).
Proof.
  induction lines as [|line lines IH]; intros w Hw; [exact Hw|].
  cbn [Srs.on_lines]. unfold bind.
  pose proof (tallied_on_line env file line w Hw) as H1.
  destruct (Srs.on_line env line w) as [[] w1|e w1|w1]; [|exact H1|exact H1].
  apply IH. exact H1.
Qed.

(** X19. Every measurement that parserSRS counts is a row of the CSV file,
    after the rows the file had (or the header): the rows it appended are
    as many as [line_count], and each has the columns of the header. *)
Theorem counted_measurements_are_rows :
  forall env file lines,
    let w := final (Srs.on_lines env lines (Srs.start file)) in
    exists rows,
      Srs.csv w = Srs.write_header file ++ rows
      /\ Srs.line_count w = Z.of_nat (length rows)
      /\ Forall (fun row => length row = length Srs.header) rows.
Proof.
  intros env file lines w.
  destruct (tallied_on_lines env file lines _ (tallied_start file))
    as (rows & H1 & H2 & _ & _ & H5).
  exists rows. auto.
Qed.

(** X20. parserSRS posts one measurement in ten and nothing else: the
    requests made are, in order, the reports of the tenth, twentieth, ...
    row it appended, each made once whatever the server answered, so their
    number is [line_count // 10]. *)
Theorem every_tenth_row_is_posted :
  forall env file lines,
    let w := final (Srs.on_lines env lines (Srs.start file)) in
    exists rows,
      Srs.csv w = Srs.write_header file ++ rows
      /\ Srs.posted w = List.map report (every_tenth 1 rows)
      /\ Z.of_nat (length (Srs.posted w)) = Srs.line_count w / Srs.send_every.
Proof.
  intros env file lines w.
  destruct (tallied_on_lines env file lines _ (tallied_start file))
    as (rows & H1 & _ & H3 & H4 & _).
  exists rows. auto.
Qed.

(** ** The values that [convert_value] reads *)

Lemma append_cons a t s :
  String.append (String a t) s = String a (String.append t s).
Proof. reflexivity. Qed.

Lemma append_empty s : String.append EmptyString s = s.
Proof. reflexivity. Qed.

Ltac unappend := rewrite ?append_cons, ?append_empty.

Lemma endswith_snoc t c p :
  Py.endswith_char (String.append t (String c EmptyString)) p = Ascii.eqb c p.
Proof.
  induction t as [|a t IH]; [reflexivity|].
  destruct t as [|b t]; [reflexivity | exact IH].
Qed.

Lemma lower_snoc t c :
  Py.lower (String.append t (String c EmptyString))
  = String.append (Py.lower t) (String (Py.lower_char c) EmptyString).
Proof.
  induction t as [|a t IH]; [reflexivity|].
  unappend. cbn [Py.lower]. rewrite IH. reflexivity.
Qed.

Lemma drop_last_snoc t c :
  Py.drop_last (String.append t (String c EmptyString)) = t.
Proof.
  induction t as [|a t IH]; [reflexivity|].
  destruct t as [|b t]; [reflexivity|].
  change (String a (Py.drop_last
                      (String.append (String b t) (String c EmptyString)))
          = String a (String b t)).
  rewrite IH. reflexivity.
Qed.

Lemma rstrip_snoc t c :
  Py.isspace c = false ->
  Py.rstrip (String.append t (String c EmptyString))
  = String.append t (String c EmptyString).
Proof.
  intros Hc. induction t as [|a t IH].
  - simpl. rewrite Hc. reflexivity.
  - unappend; cbn [Py.rstrip]. rewrite IH. destruct t; reflexivity.
Qed.

Lemma strip_snoc t c :
  Py.isspace c = false ->
  exists u, Py.strip (String.append t (String c EmptyString))
            = String.append u (String c EmptyString).
Proof.
  intros Hc. unfold Py.strip.
  assert (H : exists u, Py.lstrip (String.append t (String c EmptyString))
                        = String.append u (String c EmptyString)).
  { induction t as [|a t IH].
    - exists EmptyString. simpl. rewrite Hc. reflexivity.
    - unappend; cbn [Py.lstrip]. destruct (Py.isspace a); [exact IH|].
      exists (String a t). reflexivity. }
  destruct H as (u & ->). exists u. apply rstrip_snoc, Hc.
Qed.

Lemma sign_spec s :
  PyFloat.sign s
  = match s with
    | String y t =>
        if Ascii.eqb y "-" then (true, t)
        else if Ascii.eqb y "+" then (false, t) else (false, s)
    | EmptyString => (false, EmptyString)
    end.
Proof. destruct s as [|y t]; [reflexivity|]. each_char y; reflexivity. Qed.

Lemma sign_snoc t c :
  Ascii.eqb c "-" = false -> Ascii.eqb c "+" = false ->
  exists neg u,
    PyFloat.sign (String.append t (String c EmptyString))
    = (neg, String.append u (String c EmptyString)).
Proof.
  intros H1 H2. rewrite sign_spec. destruct t as [|y t]; unappend.
  - rewrite H1, H2. exists false, EmptyString. reflexivity.
  - destruct (Ascii.eqb y "-"); [exists true, t; reflexivity|].
    destruct (Ascii.eqb y "+"); [exists false, t; reflexivity|].
    exists false, (String y t). reflexivity.
Qed.

Lemma int_tail_rejects c :
  Ascii.eqb c "_" = false -> Py.digit 10 c = None ->
  forall n u acc,
    (String.length u <= n)%nat ->
    Py.int_tail 10 acc (String.append u (String c EmptyString)) = None.
Proof.
  intros H1 H2. induction n as [|n IH]; intros u acc Hn.
  - destruct u; [|simpl in Hn; lia]. simpl. rewrite H1, H2. reflexivity.
  - destruct u as [|y u]; [simpl; rewrite H1, H2; reflexivity|].
    unappend; cbn [Py.int_tail]. simpl in Hn.
    destruct (Ascii.eqb y "_").
    + destruct u as [|d u]; unappend.
      * rewrite H2. reflexivity.
      * destruct (Py.digit 10 d); [|reflexivity].
        apply IH. simpl in Hn. lia.
    + destruct (Py.digit 10 y); [|reflexivity]. apply IH. lia.
Qed.

Lemma int_rejects t c :
  Py.isspace c = false -> Ascii.eqb c "_" = false ->
  Ascii.eqb c "-" = false -> Ascii.eqb c "+" = false ->
  Py.digit 10 c = None ->
  Py.int 10 (String.append t (String c EmptyString)) = None.
Proof.
  intros Hs Hu Hm Hp Hd. unfold Py.int.
  destruct (strip_snoc t c Hs) as (u & ->).
  change (match String.append u (String c EmptyString) with
          | String "-" s' => (true, s')
          | String "+" s' => (false, s')
          | _ => (false, String.append u (String c EmptyString))
          end) with (PyFloat.sign (String.append u (String c EmptyString))).
  destruct (sign_snoc u c Hm Hp) as (neg & v & ->).
  cbn [Z.eqb andb Pos.eqb]. cbv iota.
  assert (E : Py.int_body 10 (String.append v (String c EmptyString)) = None).
  { destruct v as [|y v]; unappend; cbn [Py.int_body].
    - rewrite Hd. reflexivity.
    - destruct (Py.digit 10 y); [|reflexivity].
      apply (int_tail_rejects c Hu Hd (String.length v)). lia. }
  rewrite E. reflexivity.
Qed.

Lemma without_underscores_snoc c :
  Ascii.eqb c "_" = false ->
  forall t prev r,
    PyFloat.without_underscores prev (String.append t (String c EmptyString))
    = Some r ->
    exists r', r = String.append r' (String c EmptyString).
Proof.
  intros Hc. induction t as [|x t IH]; intros prev r.
  - simpl. rewrite Hc. intros E. injection E as <-. exists EmptyString.
    reflexivity.
  - unappend; cbn [PyFloat.without_underscores].
    destruct (Ascii.eqb x "_").
    + intros H. apply (IH (Some x)).
      destruct prev as [p|]; [|discriminate H].
      destruct (String.append t (String c EmptyString)); [discriminate H|].
      destruct (_ && _); [exact H | discriminate H].
    + destruct (PyFloat.without_underscores (Some x) _) as [r0|] eqn:E;
        [|discriminate].
      intros E'. injection E' as <-. destruct (IH _ _ E) as (r' & ->).
      exists (String x r'). reflexivity.
Qed.

Lemma digits_snoc c :
  Py.isdecimal c = false ->
  forall u,
    PyFloat.digits (String.append u (String c EmptyString))
    = (fst (PyFloat.digits u),
       String.append (snd (PyFloat.digits u)) (String c EmptyString)).
Proof.
  intros Hc. induction u as [|x u IH].
  - simpl. rewrite Hc. reflexivity.
  - unappend; cbn [PyFloat.digits]. destruct (Py.isdecimal x).
    + rewrite IH. destruct (PyFloat.digits u). reflexivity.
    + reflexivity.
Qed.

Lemma dot_spec {A} (s : string) (k1 : string -> A) (k2 : A) :
  match s with String "." t => k1 t | _ => k2 end
  = match s with
    | String y t => if Ascii.eqb y "." then k1 t else k2
    | EmptyString => k2
    end.
Proof. destruct s as [|y t]; [reflexivity|]. each_char y; reflexivity. Qed.

Lemma snoc_nonempty u c : String.append u (String c EmptyString) <> EmptyString.
Proof. destruct u; discriminate. Qed.

Lemma exponent_rejects c :
  Ascii.eqb (Py.lower_char c) "e" = false ->
  Ascii.eqb c "-" = false -> Ascii.eqb c "+" = false ->
  Py.isdecimal c = false ->
  forall b, PyFloat.exponent (String.append b (String c EmptyString)) = None.
Proof.
  intros He Hm Hp Hd b. destruct b as [|y b]; unappend; cbn [PyFloat.exponent].
  - rewrite He. reflexivity.
  - destruct (Ascii.eqb (Py.lower_char y) "e"); [|reflexivity].
    destruct (sign_snoc b c Hm Hp) as (neg & u & ->).
    rewrite (digits_snoc c Hd).
    destruct (fst (PyFloat.digits u)); [reflexivity|].
    destruct (String.append _ _) eqn:E; [|reflexivity].
    destruct (snoc_nonempty _ _ E).
Qed.

(** The last character of a text that no number ends with. *)
Definition no_number_ends_with (c : ascii) : Prop :=
  Py.isspace c = false /\ Ascii.eqb c "_" = false
  /\ Ascii.eqb c "-" = false /\ Ascii.eqb c "+" = false
  /\ Ascii.eqb c "." = false /\ Py.isdecimal c = false
  /\ Py.digit 10 c = None
  /\ Ascii.eqb (Py.lower_char c) "e" = false
  /\ Ascii.eqb (Py.lower_char c) "f" = false
  /\ Ascii.eqb (Py.lower_char c) "y" = false
  /\ Ascii.eqb (Py.lower_char c) "n" = false.

Lemma literal_rejects t c :
  no_number_ends_with c ->
  PyFloat.literal (String.append t (String c EmptyString)) = None.
Proof.
  intros (Hs & Hu & Hm & Hp & Hdot & Hd & _ & He & Hf & Hy & Hn).
  unfold PyFloat.literal.
  destruct (sign_snoc t c Hm Hp) as (neg & u & ->).
  assert (El : forall w last,
            Py.endswith_char w last = true ->
            Ascii.eqb (Py.lower_char c) last = false ->
            String.eqb (Py.lower (String.append u (String c EmptyString))) w
            = false).
  { intros w last Hw Hl. apply String.eqb_neq. intros E.
    rewrite <- E, lower_snoc, endswith_snoc, Hl in Hw. discriminate. }
  rewrite (El "inf" "f"%char eq_refl Hf), (El "infinity" "y"%char eq_refl Hy),
    (El "nan" "n"%char eq_refl Hn).
  cbn [orb]. cbv iota.
  rewrite (digits_snoc c Hd).
  destruct (PyFloat.digits u) as [i a]. cbn [fst snd].
  rewrite dot_spec.
  assert (Hf' : exists f b,
            match String.append a (String c EmptyString) with
            | String y t0 =>
                if Ascii.eqb y "." then PyFloat.digits t0
                else (EmptyString, String.append a (String c EmptyString))
            | EmptyString =>
                (EmptyString, String.append a (String c EmptyString))
            end = (f, String.append b (String c EmptyString))).
  { destruct a as [|y a]; unappend.
    - rewrite Hdot. exists EmptyString, EmptyString. reflexivity.
    - destruct (Ascii.eqb y ".").
      + rewrite (digits_snoc c Hd). eexists _, _. reflexivity.
      + exists EmptyString, (String y a). reflexivity. }
  destruct Hf' as (f & b & ->).
  rewrite (exponent_rejects c He Hm Hp Hd).
  destruct (_ && _); reflexivity.
Qed.

Lemma float_rejects t c :
  no_number_ends_with c ->
  PyFloat.float (String.append t (String c EmptyString)) = None.
Proof.
  intros Hc. unfold PyFloat.float.
  destruct (strip_snoc t c (proj1 Hc)) as (u & ->).
  destruct (PyFloat.without_underscores None _) as [r|] eqn:E; [|reflexivity].
  destruct (without_underscores_snoc c (proj1 (proj2 Hc)) _ _ _ E) as (r' & ->).
  apply literal_rejects, Hc.
Qed.

Lemma mega_char c :
  Py.lower_char c = "m"%char -> no_number_ends_with c.
Proof.
  each_char c; intros H; try (vm_compute in H; discriminate H);
    vm_compute; repeat split.
Qed.

Lemma convert_value_unscaled t c :
  Py.lower_char c = "m"%char ->
  Srs.convert_value (String.append t (String c EmptyString))
  = inr (Srs.VStr (String.append t (String c EmptyString))).
Proof.
  intros Hc. pose proof (mega_char c Hc) as Hn.
  assert (Hpc : Ascii.eqb c "%" = false).
  { clear -Hc. each_char c; try reflexivity; vm_compute in Hc; discriminate Hc. }
  unfold Srs.convert_value.
  rewrite lower_snoc, !endswith_snoc, Hc, Hpc.
  change (Ascii.eqb "m" "k") with false. change (Ascii.eqb "m" "M") with false.
  cbv iota.
  assert (E : String.eqb (String.append (Py.lower t) "m") "n/a" = false).
  { apply String.eqb_neq. intros E.
    assert (H : Py.endswith_char (String.append (Py.lower t) "m") "m" = true)
      by (rewrite endswith_snoc; reflexivity).
    rewrite E in H. discriminate H. }
  rewrite E.
  destruct Hn as (Hs & Hu & Hm & Hp & Hdot & Hd & Hdig & Hrest).
  unfold Srs.int. rewrite (int_rejects t c Hs Hu Hm Hp Hdig).
  rewrite (float_rejects t c (mega_char c Hc)). reflexivity.
Qed.

(** X21. A value with the suffix [M] is not scaled by a million: whatever
    stands before the [M] (or [m]), [convert_value] gives the text back as it
    is. The branch that multiplies by 1000000 tests the lowered text for a
    capital letter, and is never taken. *)
Theorem mega_suffix_is_not_scaled :
  forall body,
    Srs.convert_value (String.append body "M")
    = inr (Srs.VStr (String.append body "M"))
    /\ Srs.convert_value (String.append body "m")
       = inr (Srs.VStr (String.append body "m")).
Proof.
  intros body. split; apply convert_value_unscaled; reflexivity.
Qed.

Lemma count_digits_decimals t :
  Py.all_chars Py.isdecimal t = true -> Srs.count_digits t = String.length t.
Proof.
  induction t as [|c t IH]; [reflexivity|]. cbn [Py.all_chars].
  intros E. apply andb_true_iff in E as [E1 E2].
  cbn [Srs.count_digits]. rewrite E1, (IH E2). reflexivity.
Qed.

Lemma endswith_decimals t p :
  Py.all_chars Py.isdecimal t = true -> Py.isdecimal p = false ->
  Py.endswith_char t p = false.
Proof.
  intros Ht Hp. induction t as [|c t IH]; [reflexivity|].
  cbn [Py.all_chars] in Ht. apply andb_true_iff in Ht as [E1 E2].
  destruct t as [|b t]; [|exact (IH E2)].
  cbn [Py.endswith_char]. destruct (Ascii.eqb_spec c p) as [->|]; congruence.
Qed.

Lemma int_digits t :
  decimals t -> (String.length t <= max_str_digits)%nat ->
  Srs.int t = Some (number 10 t).
Proof.
  intros Ht Hn. unfold Srs.int.
  rewrite (int_decimals t Ht), (count_digits_decimals t (proj2 Ht)).
  destruct (Nat.ltb_spec max_str_digits (String.length t)); [lia|].
  reflexivity.
Qed.

Lemma convert_value_digits t :
  decimals t -> (String.length t <= max_str_digits)%nat ->
  Srs.convert_value t = inr (Srs.VInt (number 10 t)).
Proof.
  intros Ht Hn. unfold Srs.convert_value.
  rewrite (lower_decimals t (proj2 Ht)).
  rewrite (endswith_decimals t "k" (proj2 Ht) eq_refl),
    (endswith_decimals t "M" (proj2 Ht) eq_refl),
    (endswith_decimals t "%" (proj2 Ht) eq_refl).
  assert (E : String.eqb t "n/a" = false).
  { apply String.eqb_neq. intros ->. destruct Ht as (_ & H). discriminate H. }
  rewrite E, (int_digits t Ht Hn). reflexivity.
Qed.

Lemma convert_value_percent t :
  decimals t -> (String.length t <= max_str_digits)%nat ->
  Srs.convert_value (String.append t "%") = inr (Srs.VInt (number 10 t)).
Proof.
  intros Ht Hn. unfold Srs.convert_value.
  rewrite lower_snoc, !endswith_snoc, drop_last_snoc.
  change (Ascii.eqb (Py.lower_char "%") "k") with false.
  change (Ascii.eqb (Py.lower_char "%") "M") with false.
  change (Ascii.eqb "%" "%") with true. cbv iota.
  rewrite (int_digits t Ht Hn). reflexivity.
Qed.

(** X22. A column of digits reads as the integer it writes, and so does a
    percentage of digits: the [%] is dropped. This holds up to the 4300
    digits that [int()] converts. *)
Theorem digits_read_as_integers :
  forall t,
    decimals t -> (String.length t <= max_str_digits)%nat ->
    Srs.convert_value t = inr (Srs.VInt (number 10 t))
    /\ Srs.convert_value (String.append t "%") = inr (Srs.VInt (number 10 t)).
Proof.
  intros t Ht Hn.
  split; [apply convert_value_digits | apply convert_value_percent]; assumption.
Qed.

Lemma digits_read_as_integers_witness :
  Srs.convert_value "17921" = inr (Srs.VInt 17921)
  /\ Srs.convert_value "17921%" = inr (Srs.VInt 17921).
Proof.
  apply (digits_read_as_integers "17921").
  - split; reflexivity.
  - unfold max_str_digits. simpl. lia.
Defined.

(** What [convert_value] does to the bit rates of a metrics line. *)
Example kilo_is_truncated :
  List.map Srs.convert_value ["1.4k"; "52k"; "1.001k"; "17M"; "n/a"]
  = [inr (Srs.VInt 1400); inr (Srs.VInt 52000); inr (Srs.VInt 1000);
     inr (Srs.VStr "17M"); inr Srs.VNone].
Proof. vm_compute. reflexivity. Qed.

(** ** The columns of a row *)

(** The cell of a row under the column [name]. *)
Fixpoint cell_of (names : list string) (row : list Srs.value) (name : string)
    : option Srs.value :=
  match names, row with
  | n :: names', v :: row' =>
      if String.eqb n name then Some v else cell_of names' row' name
  | _, _ => None
  end.

(** The columns that the pattern reads with [\d+], and the timestamp. *)
Definition counted_columns : list string :=
  ["timestamp"; "pci"; "rnti"; "ri_dl"; "mcs_dl"; "ok_dl"; "nok_dl"; "dl_bs";
   "mcs_ul"; "ok_ul"; "nok_ul"; "bsr"].

(** Every counted column of the row holds an [int]. *)
Definition integral (row : list Srs.value) : Prop :=
  forall name, In name counted_columns ->
    exists z, cell_of Srs.columns row name = Some (Srs.VInt z).

(** No group is longer than [N]. *)
Definition short (N : nat) (cs : Re.caps) : Prop :=
  Forall (fun g => (String.length (snd g) <= N)%nat) cs.

Lemma length_substring_le s : forall n m,
  (String.length (String.substring n m s) <= String.length s)%nat.
Proof.
  induction s as [|c s IH]; intros n m.
  - destruct n, m; simpl; lia.
  - destruct n as [|n]; [destruct m as [|m]|]; simpl.
    + lia.
    + specialize (IH 0%nat m). lia.
    + specialize (IH n m). lia.
Qed.

Lemma exec_short N r :
  forall prev s cs k m,
    (String.length s <= N)%nat -> short N cs ->
    (forall prev' s' cs',
       (String.length s' <= N)%nat -> short N cs' ->
       k prev' s' cs' = Some m -> short N m) ->
    Re.exec r prev s cs k = Some m -> short N m.
Proof.
  induction r as [|c|p|r1 IH1 r2 IH2|r1 IH1 r2 IH2|r1 IH1|p|p|p|n r1 IH1|];
    intros prev s cs k m Hs Hcs Hk H; simpl in H.
  - exact (Hk _ _ _ Hs Hcs H).
  - destruct s as [|x s]; [discriminate|].
    destruct (Re.eq_nocase x c); [|discriminate].
    simpl in Hs. apply (Hk _ _ _ (Nat.lt_le_incl _ _ Hs) Hcs H).
  - destruct s as [|x s]; [discriminate|].
    destruct (p x); [|discriminate].
    simpl in Hs. apply (Hk _ _ _ (Nat.lt_le_incl _ _ Hs) Hcs H).
  - apply (IH1 _ _ _ _ _ Hs Hcs) in H; [exact H|].
    intros prev' s' cs' Hs' Hcs' H'. exact (IH2 _ _ _ _ _ Hs' Hcs' Hk H').
  - destruct (Re.exec r1 prev s cs k) as [m'|] eqn:E.
    + injection H as ->. exact (IH1 _ _ _ _ _ Hs Hcs Hk E).
    + exact (IH2 _ _ _ _ _ Hs Hcs Hk H).
  - destruct (Re.exec r1 prev s cs k) as [m'|] eqn:E.
    + injection H as ->. exact (IH1 _ _ _ _ _ Hs Hcs Hk E).
    + exact (Hk _ _ _ Hs Hcs H).
  - destruct (star_sound _ _ _ _ _ _ H) as (t & s' & prev' & -> & _ & H').
    rewrite length_append in Hs.
    assert (Hs' : (String.length s' <= N)%nat) by lia.
    exact (Hk _ _ _ Hs' Hcs H').
  - destruct s as [|x s]; [discriminate|].
    destruct (p x); [|discriminate].
    destruct (star_sound _ _ _ _ _ _ H) as (t & s' & prev' & -> & _ & H').
    simpl in Hs. rewrite length_append in Hs.
    assert (Hs' : (String.length s' <= N)%nat) by lia.
    exact (Hk _ _ _ Hs' Hcs H').
  - destruct (lazy_sound _ _ _ _ _ _ H) as (t & s' & prev' & -> & _ & H').
    rewrite length_append in Hs.
    assert (Hs' : (String.length s' <= N)%nat) by lia.
    exact (Hk _ _ _ Hs' Hcs H').
  - apply (IH1 _ _ _ _ _ Hs Hcs) in H; [exact H|].
    intros prev' s' cs' Hs' Hcs' H'. apply (Hk _ _ _ Hs') in H'; [exact H'|].
    constructor; [|exact Hcs']. cbn [snd]. unfold Re.taken.
    pose proof (length_substring_le s 0 (String.length s - String.length s')).
    lia.
  - destruct (Re.at_boundary prev s); [|discriminate].
    exact (Hk _ _ _ Hs Hcs H).
Qed.

Lemma match_short r s m :
  Srs.match_ r s = Some m -> short (String.length s) m.
Proof.
  unfold Srs.match_. apply exec_short; [lia | constructor |].
  intros prev' s' cs' _ Hcs' H. injection H as <-. exact Hcs'.
Qed.

Lemma match_groups r s m :
  Srs.match_ r s = Some m -> groups_after r (fun cs => cs = []) m.
Proof.
  unfold Srs.match_. intros E.
  destruct (exec_sound r (fun cs => cs = []) _ _ _ _ _ eq_refl E)
    as (t & s' & prev' & cs' & _ & _ & G & K).
  injection K as ->. exact G.
Qed.

Lemma length_lstrip_le s : (String.length (Py.lstrip s) <= String.length s)%nat.
Proof.
  induction s as [|c s IH]; [simpl; lia|]. cbn [Py.lstrip].
  destruct (Py.isspace c); simpl in *; lia.
Qed.

Lemma length_rstrip_le s : (String.length (Py.rstrip s) <= String.length s)%nat.
Proof.
  induction s as [|c s IH]; [simpl; lia|]. cbn [Py.rstrip].
  destruct (Py.rstrip s); [destruct (Py.isspace c)|]; simpl in *; lia.
Qed.

Lemma length_strip_le s : (String.length (Py.strip s) <= String.length s)%nat.
Proof.
  unfold Py.strip. pose proof (length_rstrip_le (Py.lstrip s)).
  pose proof (length_lstrip_le s). lia.
Qed.

(** The groups of a metrics line: all seventeen took part, and the ones of
    [\d+] hold digits. *)
Lemma groups_of_pattern s m :
  Srs.match_ Srs.pattern s = Some m ->
  exists t1 t2 t3 t4 t5 t6 t7 t8 t9 t10 t11 t12 t13 t14 t15 t16 t17,
    m = [("17", t17); ("16", t16); ("15", t15); ("14", t14); ("13", t13);
         ("12", t12); ("11", t11); ("10", t10); ("9", t9); ("8", t8);
         ("7", t7); ("6", t6); ("5", t5); ("4", t4); ("3", t3); ("2", t2);
         ("1", t1)]
    /\ Forall decimals [t1; t2; t4; t5; t7; t8; t10; t12; t14; t15; t17].
Proof.
  intros H. apply match_groups in H. unfold Srs.pattern, Srs.G in H.
  open_groups H.
  do 17 eexists. split; [reflexivity|].
  repeat (constructor; [assumption|]). constructor.
Qed.

Lemma convert_all_each texts (w : Srs.World) :
  forall vs w',
    Srs.convert_all texts w = Ok vs w' ->
    Forall2 (fun t v => Srs.convert_value t = inr v) texts vs.
Proof.
  induction texts as [|t texts IH]; intros vs w'.
  - intros E. injection E as <- _. constructor.
  - cbn [Srs.convert_all]. unfold bind at 1, lift.
    destruct (Srs.convert_value t) as [e|v] eqn:Ev; [discriminate|].
    unfold ret at 1. unfold bind.
    destruct (Srs.convert_all texts w) as [vs0 w0|e w0|w0] eqn:E;
      try discriminate.
    intros E'. injection E' as <- _. constructor; [exact Ev|].
    exact (IH _ _ eq_refl).
Qed.

Lemma convert_all_raises texts (w : Srs.World) :
  forall e w',
    Srs.convert_all texts w = Raise e w' ->
    exists col, In col texts /\ Srs.convert_value col = inl e.
Proof.
  induction texts as [|t texts IH]; intros e w'; [discriminate|].
  cbn [Srs.convert_all]. unfold bind at 1, lift.
  destruct (Srs.convert_value t) as [e0|v] eqn:Ev.
  - intros E. injection E as <- _. exists t. split; [left; reflexivity|exact Ev].
  - unfold ret at 1. unfold bind.
    destruct (Srs.convert_all texts w) as [vs0 w0|e0 w0|w0] eqn:E;
      try discriminate.
    intros E'. injection E' as <- _.
    destruct (IH _ _ eq_refl) as (col & Hin & Hc).
    exists col. split; [right; exact Hin | exact Hc].
Qed.

(** What [on_line] leaves in the CSV file: what was there, and for a line
    that matched and whose columns all converted, one more row. *)
Lemma on_line_csv env line w :
  Srs.csv (final (Srs.on_line env line w)) = Srs.csv w
  \/ exists m vs,
       Srs.match_ Srs.pattern (Py.strip line) = Some m
       /\ Srs.convert_all (Srs.groups m) w = Ok vs w
       /\ Srs.csv (final (Srs.on_line env line w))
          = Srs.csv w ++ [Srs.VInt (Srs.now_ms env (Srs.readings w)) :: vs].
Proof.
  unfold Srs.on_line.
  destruct (_ || _); [left; reflexivity|].
  destruct (Srs.match_ Srs.pattern (Py.strip line)) as [m|];
    [|left; reflexivity].
  pose proof (convert_all_result (Srs.groups m) w) as Hc.
  unfold bind, Srs.time_ms, Srs.writerow, modify, gets.
  destruct (Srs.convert_all (Srs.groups m) w) as [vs w1|e w1|w1] eqn:E;
    [destruct Hc as (-> & Hlen) | subst w1; left; reflexivity | contradiction].
  right. exists m, vs. split; [reflexivity|]. split; [exact E|].
  cbn [Srs.line_count Srs.csv Srs.posted Srs.printed Srs.readings].
  destruct ((Srs.line_count w + 1) mod Srs.send_every =? 0); [|reflexivity].
  unfold Srs.post.
  cbn [Srs.line_count Srs.csv Srs.posted Srs.printed Srs.readings].
  destruct (Srs.respond env _ _) as [status|];
    unfold bind, Srs.print, modify, ret; [destruct (negb _)|]; reflexivity.
Qed.

(** The row of a line that matched: the columns of [\d+] are integers. *)
Lemma row_of_match s m vs ts (w w' : Srs.World) :
  (String.length s <= max_str_digits)%nat ->
  Srs.match_ Srs.pattern s = Some m ->
  Srs.convert_all (Srs.groups m) w = Ok vs w' ->
  integral (Srs.VInt ts :: vs).
Proof.
  intros Hs Hm Hvs. pose proof (match_short _ _ _ Hm) as Hshort.
  destruct (groups_of_pattern _ _ Hm)
    as (t1 & t2 & t3 & t4 & t5 & t6 & t7 & t8 & t9 & t10 & t11 & t12 & t13
        & t14 & t15 & t16 & t17 & -> & Hd).
  apply convert_all_each in Hvs.
  change (Srs.groups _)
    with [t1; t2; t3; t4; t5; t6; t7; t8; t9; t10; t11; t12; t13; t14; t15;
          t16; t17] in Hvs.
  assert (Hread : forall t n,
            decimals t -> In (n, t) [("17", t17); ("16", t16); ("15", t15);
              ("14", t14); ("13", t13); ("12", t12); ("11", t11);
              ("10", t10); ("9", t9); ("8", t8); ("7", t7); ("6", t6);
              ("5", t5); ("4", t4); ("3", t3); ("2", t2); ("1", t1)] ->
            Srs.convert_value t = inr (Srs.VInt (number 10 t))).
  { intros t n Ht Hin. apply convert_value_digits; [exact Ht|].
    unfold short in Hshort. rewrite List.Forall_forall in Hshort.
    specialize (Hshort _ Hin). cbn [snd] in Hshort. lia. }
  repeat match goal with
         | H : Forall2 _ (_ :: _) _ |- _ =>
             inversion H; subst; clear H
         | H : Forall2 _ [] _ |- _ => inversion H; subst; clear H
         end.
  repeat match goal with
         | H : Forall decimals (?t :: _) |- _ =>
             let Ht := fresh "Ht" in
             let H' := fresh "H" in
             inversion H as [|? ? Ht H']; subst; clear H;
             rewrite (Hread t _ Ht ltac:(simpl; tauto)) in *
         end.
  repeat match goal with
         | H : inr _ = inr _ |- _ => injection H as <-
         end.
  intros name Hin. unfold counted_columns in Hin. cbn [In] in Hin.
  repeat destruct Hin as [<-|Hin]; try contradiction;
    eexists; reflexivity.
Qed.

(** The rows appended so far, when every counted column of each is an
    integer. *)
Definition integral_rows (file : list (list Srs.value)) (w : Srs.World)
    : Prop :=
  exists rows,
    Srs.csv w = Srs.write_header file ++ rows /\ Forall integral rows.

Lemma integral_on_lines env file lines :
  Forall (fun line => (String.length line <= max_str_digits)%nat) lines ->
  forall w, integral_rows file w ->
            integral_rows file (final (Srs.on_lines env lines w)).
Proof.
  induction 1 as [|line lines Hline Hlines IH]; intros w Hw; [exact Hw|].
  assert (H1 : integral_rows file (final (Srs.on_line env line w))).
  { destruct (on_line_csv env line w) as [E | (m & vs & Hm & Hvs & E)].
    - destruct Hw as (rows & Hr & Hi). exists rows. rewrite E. auto.
    - destruct Hw as (rows & Hr & Hi).
      exists (rows ++ [Srs.VInt (Srs.now_ms env (Srs.readings w)) :: vs]).
      rewrite E, Hr, <- app_assoc. split; [reflexivity|].
      apply Forall_app. split; [exact Hi|]. constructor; [|constructor].
      apply (row_of_match (Py.strip line) m vs _ w w); [|exact Hm|exact Hvs].
      pose proof (length_strip_le line). lia. }
  cbn [Srs.on_lines]. unfold bind.
  destruct (Srs.on_line env line w) as [[] w1|e w1|w1]; [|exact H1|exact H1].
  apply IH. exact H1.
Qed.

(** X23. The counters of a metrics line are integers in the CSV file: in
    every row parserSRS appends, the timestamp and the columns read with
    [\d+] (pci, rnti, ri_dl, mcs_dl, ok_dl, nok_dl, dl_bs, mcs_ul, ok_ul,
    nok_ul, bsr) hold an [int], never a float or a text, for lines within
    the 4300 characters that [int()] surely converts. *)
Theorem counted_columns_are_integers :
  forall env file lines,
    Forall (fun line => (String.length line <= max_str_digits)%nat) lines ->
    let w := final (Srs.on_lines env lines (Srs.start file)) in
    exists rows,
      Srs.csv w = Srs.write_header file ++ rows /\ Forall integral rows.
Proof.
  intros env file lines Hlines w.
  apply (integral_on_lines env file lines Hlines).
  exists []. split; [|constructor].
  cbn [Srs.start Srs.csv]. rewrite app_nil_r. reflexivity.
Qed.

(** A line of the console trace of the gNB, and an environment. *)
Definition metrics_line : string :=
  "   1 4601   15    1   28   1.4k   12    0   0%      0 |  25.1   28   52k    3    0   0%    0".

Definition env_srs : Srs.Env :=
  {| Srs.now_ms := fun n => 1700000000000 + Z.of_nat n;
     Srs.respond := fun _ _ => Some 200 |}.

Lemma counted_columns_are_integers_witness :
  exists rows,
    Srs.csv (final (Srs.on_lines env_srs [metrics_line] (Srs.start [])))
    = Srs.write_header [] ++ rows
    /\ Forall integral rows.
Proof.
  apply (counted_columns_are_integers env_srs [] [metrics_line]).
  constructor; [|constructor]. unfold max_str_digits. vm_compute. lia.
Defined.

Example metrics_line_row :
  Srs.csv (final (Srs.on_lines env_srs [metrics_line] (Srs.start [])))
  = [Srs.header;
     List.map Srs.VInt
       [1700000000000; 1; 4601; 15; 1; 28; 1400; 12; 0; 0; 0]
     ++ [Srs.VFloat (Py.fdiv (Py.exact 251) (Py.exact 10))]
     ++ List.map Srs.VInt [28; 52000; 3; 0; 0; 0]].
Proof. vm_compute. reflexivity. Qed.

Lemma lower_never_capital s : Py.endswith_char (Py.lower s) "M" = false.
Proof.
  induction s as [|c s IH]; [reflexivity|].
  cbn [Py.lower]. destruct s as [|b s]; [|exact IH].
  cbn [Py.lower Py.endswith_char]. each_char c; reflexivity.
Qed.

(** The exceptions [convert_value] raises, and the suffix that brings them. *)
Lemma convert_value_raises col e :
  Srs.convert_value col = inl e ->
  (e = Py.ValueError \/ e = Py.OverflowError)
  /\ (Py.endswith_char (Py.lower col) "k" = true
      \/ Py.endswith_char col "%" = true).
Proof.
  unfold Srs.convert_value. rewrite lower_never_capital.
  destruct (Py.endswith_char (Py.lower col) "k").
  - unfold Srs.scaled. intros H. split; [|left; reflexivity].
    destruct (PyFloat.float _) as [x|];
      [|injection H as <-; left; reflexivity].
    destruct (Py.fmul x _); simpl in H; try discriminate H;
      injection H as <-; auto.
  - destruct (Py.endswith_char col "%").
    + intros H. split; [|right; reflexivity].
      destruct (Srs.int _); [discriminate H|]. injection H as <-.
      left; reflexivity.
    + destruct (String.eqb _ _); [discriminate|].
      destruct (Srs.int col); [discriminate|].
      destruct (PyFloat.float col); discriminate.
Qed.

(** X24. An exception leaves the loop of parserSRS, and ends the program,
    only on a line that matched the pattern and has a column ending in [k],
    [K] or [%] that does not convert: it is a [ValueError] or an
    [OverflowError], and nothing was written or posted for the line. *)
Theorem unreadable_column_ends_the_program :
  forall env line w e w',
    Srs.on_line env line w = Raise e w' ->
    w' = w
    /\ (e = Py.ValueError \/ e = Py.OverflowError)
    /\ exists m col,
         Srs.match_ Srs.pattern (Py.strip line) = Some m
         /\ In col (Srs.groups m)
         /\ Srs.convert_value col = inl e
         /\ (Py.endswith_char (Py.lower col) "k" = true
             \/ Py.endswith_char col "%" = true).
Proof.
  intros env line w e w'. unfold Srs.on_line.
  destruct (_ || _); [discriminate|].
  destruct (Srs.match_ Srs.pattern (Py.strip line)) as [m|]; [|discriminate].
  unfold bind at 1.
  pose proof (convert_all_result (Srs.groups m) w) as Hc.
  destruct (Srs.convert_all (Srs.groups m) w) as [vs w1|e1 w1|w1] eqn:E;
    [destruct Hc as (-> & Hlen) | subst w1 | contradiction].
  - unfold bind, Srs.time_ms, Srs.writerow, modify, gets.
    cbn [Srs.line_count Srs.csv Srs.posted Srs.printed Srs.readings].
    destruct ((Srs.line_count w + 1) mod Srs.send_every =? 0); [|discriminate].
    unfold Srs.post.
    cbn [Srs.line_count Srs.csv Srs.posted Srs.printed Srs.readings].
    destruct (Srs.respond env _ _) as [status|];
      unfold bind, Srs.print, modify, ret; [destruct (negb _)|]; discriminate.
  - intros H. injection H as <- <-. split; [reflexivity|].
    destruct (convert_all_raises _ _ _ _ E) as (col & Hin & Hcol).
    destruct (convert_value_raises col e1 Hcol) as (He & Hsuffix).
    split; [exact He|]. exists m, col. auto.
Qed.

(** The line with a fractional percentage. *)
Definition fractional_line : string :=
  "   1 4601   15    1   28   1.4k   12    0   0.5%      0 |  25.1   28   52k    3    0   0%    0".

Lemma unreadable_column_ends_the_program_witness :
  Srs.start [] = Srs.start []
  /\ (Py.ValueError = Py.ValueError \/ Py.ValueError = Py.OverflowError)
  /\ exists m col,
       Srs.match_ Srs.pattern (Py.strip fractional_line) = Some m
       /\ In col (Srs.groups m)
       /\ Srs.convert_value col = inl Py.ValueError
       /\ (Py.endswith_char (Py.lower col) "k" = true
           \/ Py.endswith_char col "%" = true).
Proof.
  apply (unreadable_column_ends_the_program env_srs fractional_line
           (Srs.start []) Py.ValueError (Srs.start [])).
  vm_compute. reflexivity.
Defined.
